(** * slack-log2md: the Markdown conversion of an exported Slack log

    A shallow embedding of [src/lib/markdown.ts] (the renderer and the text
    transformer) and of [src/lib/log2md.ts] (the readers of the metadata
    files and the two channel conversions), with the properties of the
    specification stated over it. *)

From Stdlib Require Import String Ascii.
From Equations Require Import Equations.
From stdpp Require Import gmap list sorting.

Set Default Proof Using "Type".
Set Warnings "-clear-no-such-hyp".

(** ** JavaScript strings

    A JavaScript string is a sequence of UTF-16 code units. *)

Abbreviation jsstring := (list N).

Definition code (a : ascii) : N := N_of_ascii a.

(** An ASCII literal of the source. *)
Definition str (s : string) : jsstring := code <$> list_ascii_of_string s.

(** The line feed, written [\n] in the source. *)
Definition LF : N := 10%N.
Definition nl : jsstring := [LF].

(** The double quote, for the text of an error message. *)
Definition dquote : jsstring := [34%N].

(** [a < b] on strings: the lexicographic order of the code units. *)
Fixpoint str_ltb (a b : jsstring) : bool :=
  match a, b with
  | _, [] => false
  | [], _ :: _ => true
  | x :: a', y :: b' =>
      if (x <? y)%N then true
      else if (y <? x)%N then false
      else str_ltb a' b'
  end.

(** [s.endsWith(suffix)]. *)
Definition endsWith (s suffix : jsstring) : bool :=
  bool_decide (suffix `suffix_of` s).

(** ** Paths of the file system

    The operating system finds the entry that a path names in the directory
    named by the text before the last [/] of the path; the text after it is
    the name of the entry. A path without [/] names an entry of the working
    directory, which is taken to be there and is not part of the tree. *)
Fixpoint parentDir (p : jsstring) : option jsstring :=
  match p with
  | [] => None
  | c :: p' =>
      match parentDir p' with
      | Some d => Some (c :: d)
      | None => if bool_decide (c = code "/") then Some [] else None
      end
  end.

Fixpoint lastComponent (p : jsstring) : jsstring :=
  match p with
  | [] => []
  | c :: p' =>
      if bool_decide (code "/" ∈ p) then lastComponent p' else p
  end.

(** ** Regular expressions of the source *)

(** The line terminators, which [.] does not match. *)
Definition isLineTerminator (c : N) : bool :=
  bool_decide (c = 10%N) || bool_decide (c = 13%N)
  || bool_decide (c = 8232%N) || bool_decide (c = 8233%N).

(** [(.*?)>] at the head of [s]: the shortest run of units that are not line
    terminators and that a [>] follows. Gives the captured run and the text
    after the [>]. *)
Fixpoint lazyUntilGt (s : jsstring) : option (jsstring * jsstring) :=
  match s with
  | [] => None
  | c :: s' =>
      if bool_decide (c = code ">") then Some ([], s')
      else if isLineTerminator c then None
      else '(cap, rest) ← lazyUntilGt s'; Some (c :: cap, rest)
  end.

(** [/<σ(.*?)>/] at the head of [s], for the sigil [σ] ([@] or [#]). *)
Definition matchToken (sigil : N) (s : jsstring) : option (jsstring * jsstring) :=
  match s with
  | c0 :: c1 :: s' =>
      if bool_decide (c0 = code "<") && bool_decide (c1 = sigil)
      then lazyUntilGt s' else None
  | _ => None
  end.

Definition inspect {A : Type} (x : A) : { y : A | x = y } := exist _ x eq_refl.

(** [body.replace(/<σ(.*?)>/g, (_, $1) => replacer($1))]: the matches are
    looked for from left to right, and the search goes on after each match;
    the text a replacer returns is not searched again. *)
Equations? replaceTokens (sigil : N) (replacer : jsstring → jsstring)
    (body : jsstring) : jsstring by wf (length body) lt :=
  replaceTokens sigil replacer nil := [];
  replaceTokens sigil replacer (cons c s')
    with inspect (matchToken sigil (c :: s')) := {
    | exist _ (Some (pair cap rest)) E :=
        replacer cap ++ replaceTokens sigil replacer rest;
    | exist _ None E := c :: replaceTokens sigil replacer s' }.
Proof.
  - assert (∀ s cap rest,
      lazyUntilGt s = Some (cap, rest) → length rest < length s) as Hlazy.
    { clear. intros s. induction s as [|c s IH]; intros cap rest; simpl; [done|].
      case_bool_decide; [intros [= <- <-]; lia|].
      destruct (isLineTerminator c); [done|].
      destruct (lazyUntilGt s) as [[cap' rest']|] eqn:E; simpl; [|done].
      intros [= <- <-]. specialize (IH _ _ eq_refl). lia. }
    destruct s' as [|c1 s']; simpl in E; [done|].
    destruct (_ && _); [|done]. apply Hlazy in E. simpl. lia.
  - simpl. lia.
Qed.

(** [body.replace(/\n/g, '<br>')]. *)
Definition replaceLineBreaks (body : jsstring) : jsstring :=
  c ← body; if bool_decide (c = LF) then str "<br>" else [c].

(** [array.sort(compareFn)]: for a comparator that is a total order, as the
    one of the source is, the sorted array does not depend on the algorithm
    (see [array_sort_unique]). An element [a] stays before [b] when
    [compareFn a b <= 0]. *)
Definition keepsOrder {A} (compareFn : A → A → Z) : relation A :=
  λ a b, (compareFn a b ≤ 0)%Z.

#[global] Instance keepsOrder_dec {A} (compareFn : A → A → Z) a b :
  Decision (keepsOrder compareFn a b).
Proof. unfold keepsOrder. apply _. Defined.

Definition array_sort {A} (compareFn : A → A → Z) (l : list A) : list A :=
  merge_sort (keepsOrder compareFn) l.

(** [(a, b) => (a === b ? 0 : a < b ? 1 : -1)], the descending order. *)
Definition descending (a b : jsstring) : Z :=
  if decide (a = b) then 0 else if str_ltb a b then 1 else (-1).

(** [a] is not below [b]: the two are in descending order. *)
Definition notBelow (a b : jsstring) : Prop := str_ltb a b = false.

(** ** [Map], in insertion order

    [logs] of the conversion by day is iterated, so its keys are kept in the
    order of their insertion. *)

Section JsMap.
Context {V : Type}.

Fixpoint jsmap_get (m : list (jsstring * V)) (k : jsstring) : option V :=
  match m with
  | [] => None
  | (k', v) :: m' => if decide (k' = k) then Some v else jsmap_get m' k
  end.

(** [m.set(k, v)]: the value of a present key is replaced where it is, a new
    key goes to the end. *)
Fixpoint jsmap_set (m : list (jsstring * V)) (k : jsstring) (v : V)
    : list (jsstring * V) :=
  match m with
  | [] => [(k, v)]
  | (k', v') :: m' =>
      if decide (k' = k) then (k', v) :: m' else (k', v') :: jsmap_set m' k v
  end.

Definition jsmap_keys (m : list (jsstring * V)) : list jsstring := m.*1.

End JsMap.

(** ** The data model *)

(** Modelled from the spec: the types [Channel] and [User], whose modules
    [channel.ts] and [user.ts] are not among the sources; the fields are
    those of the data model of the specification. *)
Record Channel := { channel_id : jsstring; channel_name : jsstring }.

Record User := {
  user_id : jsstring;
  user_name : jsstring;
  displayName : option jsstring;
  avatarURL : option jsstring }.

(** Modelled from the spec: the type [Message], whose module [message.ts]
    is not among the sources. The time stamp is a fixed-point number of
    seconds, kept here in microseconds (six fractional digits). *)
Record Message := {
  userID : option jsstring;
  timeStamp : Z;
  text : jsstring;
  subtype : option jsstring }.

(** What [getMetadata] of [metadata.ts] returns, as [messagesToMarkdown]
    takes it apart. *)
Record Metadata := { time : jsstring; imageURL : jsstring; username : jsstring }.

(** [IgnoreMessage] and [Log2MdOptions]: every field is optional. *)
Record IgnoreMessage := { channelLogin : option bool }.

Record Log2MdOptions := {
  report : option bool;
  groupingSameDayByUTC : option bool;
  ignore : option IgnoreMessage }.

(** [!!x] on an optional boolean. *)
Definition truthy (x : option bool) : bool := default false x.

(** ** Exceptions and effects *)

Inductive error :=
  | Error (message : jsstring)
  | SyntaxError
  | TypeError
  | ENOENT (p : jsstring)
  | ENOTDIR (p : jsstring)
  | EISDIR (p : jsstring)
  | EEXIST (p : jsstring).

(** A computation that returns or throws. *)
Inductive outcome (A : Type) :=
  | Ok (a : A)
  | Throw (e : error).
Arguments Ok {A} a.
Arguments Throw {A} e.

#[global] Instance outcome_ret : MRet outcome := λ A a, Ok a.
#[global] Instance outcome_bind : MBind outcome := λ A B f m,
  match m with Ok a => f a | Throw e => Throw e end.

(** What a run does to the outside: the directories it has made, the files
    it has written and the lines it has logged, in order. A [mkdir] or a
    write that throws leaves no effect. *)
Inductive effect :=
  | Mkdir (p : jsstring)
  | WriteFile (p : jsstring) (data : jsstring)
  | Log (line : jsstring).

Record IO (A : Type) := mkIO { trace : list effect; result : outcome A }.
Arguments mkIO {A} trace result.
Arguments trace {A} i.
Arguments result {A} i.

#[global] Instance IO_ret : MRet IO := λ A a, mkIO [] (Ok a).
#[global] Instance IO_bind : MBind IO := λ A B f m,
  match result m with
  | Ok a => mkIO (trace m ++ trace (f a)) (result (f a))
  | Throw e => mkIO (trace m) (Throw e)
  end.

(** A reading step inside a run. *)
Definition await {A} (r : outcome A) : IO A := mkIO [] r.

Definition emit (e : effect) : IO unit := mkIO [e] (Ok tt).

(** [for (const x of xs) { ... }] over a loop state [b]. *)
Fixpoint foldM {M : Type → Type} `{!MBind M, !MRet M} {A B : Type}
    (body : B → A → M B) (b : B) (xs : list A) : M B :=
  match xs with
  | [] => mret b
  | x :: xs' => b' ← body b x; foldM body b' xs'
  end.

(** ** The exported tree *)

(** What [JSON.parse] gives for the text of a file: an array of records, or
    another value. *)
Inductive json (Raw : Type) :=
  | JArray (values : list Raw)
  | JOther.
Arguments JArray {Raw} values.
Arguments JOther {Raw}.

(** A directory with its entries in the order [readdir] lists them, or a
    file with its text parsed ([None] when the text is not JSON). *)
Inductive node (Raw : Type) :=
  | Directory (items : list jsstring)
  | File (parsed : option (json Raw)).
Arguments Directory {Raw} items.
Arguments File {Raw} parsed.

(** ** What the sources import

    [path] of Node depends on the platform, and [channel.ts], [user.ts],
    [message.ts] and [metadata.ts] are not among the sources: the code is
    embedded over any implementation of them. *)
Class Imports := {
  (** a record of an exported array, [any] in the source *)
  Raw : Type;
  (** [path.join(a, b)] *)
  path_join : jsstring → jsstring → jsstring;
  (** [path.basename(p)] and [path.basename(p, ext)] *)
  path_basename : jsstring → option jsstring → jsstring;
  parseChannel : Raw → outcome Channel;
  parseUser : Raw → outcome User;
  parseMessage : Raw → outcome Message;
  getMetadata : Message → gmap jsstring User → Metadata;
  (** [Date] *)
  Date : Type;
  tsToDate : Z → Date;
  (** [formatDate(date, format, isUTC)] *)
  formatDate : Date → jsstring → bool → jsstring }.

Abbreviation world := (gmap jsstring (node Raw)).

Section Code.
Context `{Imports}.

(** ** [markdown.ts] *)

(** [createBody]: the user mentions, then the channel references, then the
    line breaks. *)
Definition createBody (message : Message) (username : jsstring)
    (channels : gmap jsstring Channel) (users : gmap jsstring User) : jsstring :=
  let body := text message in
  let body :=
    replaceTokens (code "@") (λ id,
      match users !! id with
      | Some user => str "`@" ++ username ++ str "`"
      | None => str "`@" ++ id ++ str "`"
      end) body in
  let body :=
    replaceTokens (code "#") (λ id,
      match channels !! id with
      | Some channel => str "`#" ++ channel_name channel ++ str "`"
      | None => str "`@" ++ id ++ str "`"
      end) body in
  replaceLineBreaks body.

(** [messagesToMarkdown]: the loop appends one row to [md] for each message. *)
Definition messagesToMarkdown (messages : list Message)
    (channels : gmap jsstring Channel) (users : gmap jsstring User) : jsstring :=
  foldl (λ md message,
    let meta := getMetadata message users in
    let image :=
      if decide (imageURL meta = [])
      then []
      else str "![](" ++ imageURL meta ++ str ")" in
    let body := createBody message (username meta) channels users in
    md ++ str "|" ++ time meta ++ str "|" ++ image ++ str "|"
       ++ username meta ++ str "|" ++ body ++ str "|" ++ nl) [] messages.

(** ** The file system

    The tree with the entry [p] put in it: the directory that holds [p]
    lists its name, after the names it has, unless it lists it already. *)
Definition addEntry (w : world) (p : jsstring) (n : node Raw) : world :=
  <[p := n]>
    match parentDir p with
    | Some d =>
        match w !! d with
        | Some (Directory items) =>
            if decide (lastComponent p ∈ items) then w
            else <[d := Directory (items ++ [lastComponent p])]> w
        | _ => w
        end
    | None => w
    end.

(** The tree after an effect. The texts that the conversions write begin
    with [#]: they are not JSON. *)
Definition perform (w : world) (e : effect) : world :=
  match e with
  | Mkdir p => addEntry w p (Directory [])
  | WriteFile p _ => addEntry w p (File None)
  | Log _ => w
  end.

Definition after (w : world) (tr : list effect) : world := foldl perform w tr.

(** An asynchronous function of the source: what a run of it does, from the
    tree it starts in. Each step of a body runs in the tree as the steps
    before it have left it. *)
Definition Async (A : Type) : Type := world → IO A.

Definition async {A} (run : world → IO A) : Async A := run.

#[global] Instance Async_ret : MRet Async := λ A a w, mret a.
#[global] Instance Async_bind : MBind Async := λ A B f m w,
  match result (m w) with
  | Ok a =>
      let w' := after w (trace (m w)) in
      mkIO (trace (m w) ++ trace (f a w')) (result (f a w'))
  | Throw e => mkIO (trace (m w)) (Throw e)
  end.

(** The directory that is to hold [p] has to be there. *)
Definition checkParent (w : world) (p : jsstring) : outcome unit :=
  match parentDir p with
  | Some d =>
      match w !! d with
      | Some (Directory _) => Ok tt
      | Some (File _) => Throw (ENOTDIR p)
      | None => Throw (ENOENT p)
      end
  | None => Ok tt
  end.

(** ** [log2md.ts] *)

Definition existsSync (w : world) (p : jsstring) : bool :=
  bool_decide (is_Some (w !! p)).

Definition readdirAsync (w : world) (dir : jsstring) : outcome (list jsstring) :=
  match w !! dir with
  | Some (Directory items) => Ok items
  | Some (File _) => Throw (ENOTDIR dir)
  | None => Throw (ENOENT dir)
  end.

(** [await mkdirAsync(p)]: the directory is made in the directory that
    holds it, which is not made with it. *)
Definition mkdirAsync (w : world) (p : jsstring) : IO unit :=
  await (if existsSync w p then Throw (EEXIST p) else checkParent w p);;
  emit (Mkdir p).

(** [await writeFileASync(p, data)]: the file is made, or its text is
    replaced. *)
Definition writeFileASync (w : world) (p data : jsstring) : IO unit :=
  await (match w !! p with
         | Some (Directory _) => Throw (EISDIR p)
         | _ => checkParent w p
         end);;
  emit (WriteFile p data).

(** [(await statAsync(p)).isDirectory()]. *)
Definition statIsDirectory (w : world) (p : jsstring) : outcome bool :=
  match w !! p with
  | Some (Directory _) => Ok true
  | Some (File _) => Ok false
  | None => Throw (ENOENT p)
  end.

(** [JSON.parse(await readFileAsync(filePath, 'utf8'))]. *)
Definition readFileParse (w : world) (filePath : jsstring) : outcome (json Raw) :=
  match w !! filePath with
  | Some (File (Some v)) => Ok v
  | Some (File None) => Throw SyntaxError
  | Some (Directory _) => Throw (EISDIR filePath)
  | None => Throw (ENOENT filePath)
  end.

Definition enumChannelDirs (w : world) (rootDir : jsstring)
    : outcome (list jsstring) :=
  items ← readdirAsync w rootDir;
  foldM (λ results item,
    let dir := path_join rootDir item in
    isDir ← statIsDirectory w dir;
    if isDir : bool then mret (results ++ [dir]) else mret results) [] items.

Definition enumMessageJSONs (w : world) (dir : jsstring)
    : outcome (list jsstring) :=
  items ← readdirAsync w dir;
  foldM (λ results item,
    if negb (endsWith item (str ".json")) then mret results
    else
      let filePath := path_join dir item in
      isDir ← statIsDirectory w filePath;
      if isDir : bool then mret results else mret (results ++ [filePath]))
    [] items.

Definition readArrayFromJSON (w : world) (filePath : jsstring)
    : outcome (list Raw) :=
  if negb (existsSync w filePath)
  then Throw (Error (str "File does not exist. " ++ dquote ++ filePath ++ dquote))
  else
    values ← readFileParse w filePath;
    match values with
    | JArray values => Ok values
    | JOther => Throw (Error (str "Data is not an array."))
    end.

Definition readChannels (w : world) (dir : jsstring)
    : outcome (gmap jsstring Channel) :=
  values ← readArrayFromJSON w (path_join dir (str "channels.json"));
  foldM (λ channels value,
    channel ← parseChannel value;
    mret (<[channel_id channel := channel]> channels)) ∅ values.

Definition readUsers (w : world) (dir : jsstring)
    : outcome (gmap jsstring User) :=
  values ← readArrayFromJSON w (path_join dir (str "users.json"));
  foldM (λ users value,
    user ← parseUser value;
    mret (<[user_id user := user]> users)) ∅ values.

Definition readMessages (w : world) (filePath : jsstring)
    : outcome (list Message) :=
  values ← readArrayFromJSON w filePath;
  foldM (λ messages value,
    message ← parseMessage value;
    mret (messages ++ [message])) [] values.

Definition isIgnore (message : Message) (ignore : IgnoreMessage) : bool :=
  if truthy (channelLogin ignore)
  then bool_decide (subtype message = Some (str "channel_join"))
  else false.

(** The body of the inner loop of [convertChannelMessagesSameDay]:
    [targets.push(message)] changes the array that [logs] holds. *)
Definition pushLog (ignore : IgnoreMessage)
    (logs : list (jsstring * list Message)) (message : Message)
    : list (jsstring * list Message) :=
  if isIgnore message ignore then logs
  else
    let date := formatDate (tsToDate (timeStamp message)) (str "YYYY-MM-DD") true in
    match jsmap_get logs date with
    | Some targets => jsmap_set logs date (targets ++ [message])
    | None => jsmap_set logs date [message]
    end.

(** [- [logName](./logName.md)\n], a line of the index. *)
Definition indexLine (logName : jsstring) : jsstring :=
  str "- [" ++ logName ++ str "](./" ++ logName ++ str ".md)" ++ nl.

Definition mkdirUnlessExists (w : world) (dest : jsstring) : IO unit :=
  if negb (existsSync w dest) then mkdirAsync w dest else mret tt.

Definition writeIndex (w : world) (src dest indexMd : jsstring) : IO unit :=
  if negb (bool_decide (indexMd = []))
  then
    let destFilePath := path_join dest (str "index.md") in
    writeFileASync w destFilePath
      (str "# " ++ path_basename src None ++ nl ++ nl ++ indexMd)
  else mret tt.

(** The body of the first loop of [convertChannelMessagesSameDay]: the
    messages of a file go into [logs]. *)
Definition collectLogs (w : world) (ignore : IgnoreMessage)
    (logs : list (jsstring * list Message)) (filePath : jsstring)
    : IO (list (jsstring * list Message)) :=
  messages ← await (readMessages w filePath);
  mret (foldl (pushLog ignore) logs messages).

(** The body of its second loop: the document of a day is written. *)
Definition writeLog (w : world) (dest : jsstring)
    (channels : gmap jsstring Channel) (users : gmap jsstring User)
    (logs : list (jsstring * list Message))
    (logNames : list jsstring) (logName : jsstring) : IO (list jsstring) :=
  messages ← await (from_option Ok (Throw TypeError) (jsmap_get logs logName));
  let table := messagesToMarkdown messages channels users in
  let markdown := str "# " ++ logName ++ nl ++ nl ++ table in
  let destFilePath := path_join dest (logName ++ str ".md") in
  writeFileASync w destFilePath markdown;;
  mret (logNames ++ [logName]).

Definition convertChannelMessagesSameDay (w : world) (src dest : jsstring)
    (channels : gmap jsstring Channel) (users : gmap jsstring User)
    (ignore : IgnoreMessage) : IO unit :=
  (async (λ w, mkdirUnlessExists w dest);;
   filePaths ← async (λ w, await (enumMessageJSONs w src));
   logs ← foldM (λ logs filePath,
             async (λ w, collectLogs w ignore logs filePath)) [] filePaths;
   logNames ← foldM (λ logNames logName,
                 async (λ w, writeLog w dest channels users logs logNames logName))
               [] (jsmap_keys logs);
   let logNames := array_sort descending logNames in
   let indexMd :=
     foldl (λ indexMd logName, indexMd ++ indexLine logName) [] logNames in
   async (λ w, writeIndex w src dest indexMd)) w.

(** The body of the loop of [convertChannelMessages]: the document of a
    file is written and linked, unless no message is kept. *)
Definition convertFile (w : world) (dest : jsstring)
    (channels : gmap jsstring Channel) (users : gmap jsstring User)
    (ignore : IgnoreMessage) (indexMd filePath : jsstring) : IO jsstring :=
  all ← await (readMessages w filePath);
  let messages := filter (λ message, isIgnore message ignore = false) all in
  if bool_decide (length messages = 0) then mret indexMd
  else
    let table := messagesToMarkdown messages channels users in
    let logName := path_basename filePath (Some (str ".json")) in
    let markdown := str "# " ++ logName ++ nl ++ nl ++ table in
    let destFilePath := path_join dest (logName ++ str ".md") in
    writeFileASync w destFilePath markdown;;
    mret (indexMd ++ indexLine logName).

Definition convertChannelMessages (w : world) (src dest : jsstring)
    (channels : gmap jsstring Channel) (users : gmap jsstring User)
    (ignore : IgnoreMessage) : IO unit :=
  (async (λ w, mkdirUnlessExists w dest);;
   filePaths ← async (λ w, await (enumMessageJSONs w src));
   let filePaths := array_sort descending filePaths in
   indexMd ← foldM (λ indexMd filePath,
                async (λ w, convertFile w dest channels users ignore indexMd filePath))
              [] filePaths;
   async (λ w, writeIndex w src dest indexMd)) w.

Definition checkIgnoreOption (ignore : option IgnoreMessage) : IgnoreMessage :=
  match ignore with
  | Some ignore => {| channelLogin := Some (truthy (channelLogin ignore)) |}
  | None => {| channelLogin := Some false |}
  end.

(** Modelled from the spec: [Logger] of [logger.ts], which is not among the
    sources; it reports the progress of a run when [report] is set. *)
Definition logger_log (report : bool) (line : jsstring) : IO unit :=
  if report then emit (Log line) else mret tt.

Definition log2Md (w : world) (inputDir outputDir : jsstring)
    (options : Log2MdOptions) : IO unit :=
  let logger := truthy (report options) in
  (async (λ _, logger_log logger (str "src: " ++ dquote ++ inputDir ++ dquote));;
   async (λ _, logger_log logger (str "dest: " ++ dquote ++ outputDir ++ dquote));;
   async (λ _, logger_log logger (str "Converted channels..."));;
   channels ← async (λ w, await (readChannels w inputDir));
   users ← async (λ w, await (readUsers w inputDir));
   channelDirs ← async (λ w, await (enumChannelDirs w inputDir));
   let ignore := checkIgnoreOption (ignore options) in
   foldM (λ _ src,
     let channel := path_basename src None in
     async (λ _, logger_log logger (str "  #" ++ channel));;
     let dest := path_join outputDir channel in
     if truthy (groupingSameDayByUTC options)
     then async (λ w, convertChannelMessagesSameDay w src dest channels users ignore)
     else async (λ w, convertChannelMessages w src dest channels users ignore))
     tt channelDirs;;
   async (λ _, logger_log logger (str "Completed!!"))) w.

End Code.

(** ** What a successful conversion does, group by group *)

Section Groups.
Context `{Imports}.

(** The UTC day of a message, as the conversion by day computes it. *)
Definition utcDay (message : Message) : jsstring :=
  formatDate (tsToDate (timeStamp message)) (str "YYYY-MM-DD") true.

(** The messages of a file that the ignore policy keeps. *)
Definition kept (ignore : IgnoreMessage) (messages : list Message) : list Message :=
  filter (λ message, isIgnore message ignore = false) messages.

(** The groups of the conversion by source file: a file with its messages
    gives a group named after the file, unless no message is kept. *)
Definition groupsByFile (ignore : IgnoreMessage)
    (files : list (jsstring * list Message)) : list (jsstring * list Message) :=
  omap (λ file,
    match kept ignore file.2 with
    | [] => None
    | messages => Some (path_basename file.1 (Some (str ".json")), messages)
    end) files.

(** The groups of the conversion by day, from the messages of all files. *)
Definition groupsByDay (ignore : IgnoreMessage) (all : list Message)
    : list (jsstring * list Message) :=
  foldl (pushLog ignore) [] all.

(** The messages of a file that can be read. *)
Definition messagesOf (w : world) (filePath : jsstring) : list Message :=
  match readMessages w filePath with
  | Ok messages => messages
  | Throw _ => []
  end.

(** The groups that [convertChannelMessages] goes through, for the listed
    files of a channel: the files are taken in the descending order of their
    paths. *)
Definition fileGroups (w : world) (ignore : IgnoreMessage)
    (filePaths : list jsstring) : list (jsstring * list Message) :=
  groupsByFile ignore
    ((λ filePath, (filePath, messagesOf w filePath))
       <$> array_sort descending filePaths).

(** The groups that [convertChannelMessagesSameDay] collects in [logs], for
    the listed files of a channel. *)
Definition dayGroups (w : world) (ignore : IgnoreMessage)
    (filePaths : list jsstring) : list (jsstring * list Message) :=
  groupsByDay ignore (mjoin (messagesOf w <$> filePaths)).

(** The document of a group. *)
Definition documentOf (dest : jsstring) (channels : gmap jsstring Channel)
    (users : gmap jsstring User) (group : jsstring * list Message) : effect :=
  WriteFile (path_join dest (group.1 ++ str ".md"))
    (str "# " ++ group.1 ++ nl ++ nl ++ messagesToMarkdown group.2 channels users).

(** The index of a channel, with its links in the given order. *)
Definition indexOf (src dest : jsstring) (logNames : list jsstring) : effect :=
  WriteFile (path_join dest (str "index.md"))
    (str "# " ++ path_basename src None ++ nl ++ nl ++ mjoin (indexLine <$> logNames)).

(** The effects of a conversion that writes the documents of [groups] and
    links them in the order [logNames]. *)
Definition conversionTrace (w : world) (src dest : jsstring)
    (channels : gmap jsstring Channel) (users : gmap jsstring User)
    (groups : list (jsstring * list Message)) (logNames : list jsstring)
    : list effect :=
  (if existsSync w dest then [] else [Mkdir dest])
  ++ (documentOf dest channels users <$> groups)
  ++ match logNames with [] => [] | _ => [indexOf src dest logNames] end.

(** The row of a message, as the specification words it:
    [|time|icon|username|body|], ended by a line feed. *)
Definition tableRow (channels : gmap jsstring Channel)
    (users : gmap jsstring User) (message : Message) : jsstring :=
  let meta := getMetadata message users in
  let icon :=
    match imageURL meta with
    | [] => []
    | url => str "![](" ++ url ++ str ")"
    end in
  str "|" ++ time meta ++ str "|" ++ icon ++ str "|" ++ username meta
    ++ str "|" ++ createBody message (username meta) channels users
    ++ str "|" ++ nl.

(** The text of the document of a group, as the specification words it:
    the heading, an empty line and the rows of the messages. *)
Definition documentText (channels : gmap jsstring Channel)
    (users : gmap jsstring User) (group : jsstring * list Message) : jsstring :=
  str "# " ++ group.1 ++ nl ++ nl ++ mjoin (tableRow channels users <$> group.2).

(** The paths of the documents of [groups], and the paths of the files that
    a conversion writes for them: the documents and then, if there is a
    document, the index. *)
Definition documentPaths (dest : jsstring)
    (groups : list (jsstring * list Message)) : list jsstring :=
  (λ group, path_join dest (group.1 ++ str ".md")) <$> groups.

Definition targets (dest : jsstring)
    (groups : list (jsstring * list Message)) : list jsstring :=
  match groups with
  | [] => []
  | _ => documentPaths dest groups ++ [path_join dest (str "index.md")]
  end.

(** What holds of [logs] after the messages [all] went through the loop:
    the days are distinct, a group is not empty and holds kept messages of
    its day only, and each kept message is in the group of its day. *)
Definition groupedByDay (ignore : IgnoreMessage) (all : list Message)
    (logs : list (jsstring * list Message)) : Prop :=
  NoDup logs.*1
  ∧ (∀ day group, (day, group) ∈ logs →
       group ≠ [] ∧ ∀ message, message ∈ group →
         message ∈ all ∧ isIgnore message ignore = false ∧ utcDay message = day)
  ∧ (∀ message, message ∈ all → isIgnore message ignore = false →
       ∃ group, (utcDay message, group) ∈ logs ∧ message ∈ group).

End Groups.

(** ** An implementation of the imports, for the examples *)

(** [path] on POSIX, for a directory path that is normalised and a name
    without a slash. *)
Definition posix_join (a b : jsstring) : jsstring := a ++ str "/" ++ b.

Definition posix_basename (p : jsstring) (ext : option jsstring) : jsstring :=
  let base := lastComponent p in
  match ext with
  | Some ext =>
      if endsWith base ext && negb (bool_decide (base = ext))
      then take (length base - length ext) base
      else base
  | None => base
  end.

(** The records of the examples carry their kind and their fields; a record
    of another kind is malformed. *)
Inductive record :=
  | RChannel (channel : Channel)
  | RUser (user : User)
  | RMessage (message : Message).

Definition malformed {A} : outcome A := Throw (Error (str "MalformedRecordError")).

(** Two decimal digits, and four. *)
Definition digit (n : Z) : N := (48 + Z.to_N (n `mod` 10))%N.
Definition pad2 (n : Z) : jsstring := [digit (n `div` 10); digit n].
Definition pad4 (n : Z) : jsstring :=
  [digit (n `div` 1000); digit (n `div` 100); digit (n `div` 10); digit n].

(** The civil date of a day counted from 1970-01-01. *)
Definition civilFromDays (days : Z) : Z * Z * Z :=
  let z := (days + 719468)%Z in
  let era := (z `div` 146097)%Z in
  let doe := (z - era * 146097)%Z in
  let yoe := ((doe - doe `div` 1460 + doe `div` 36524 - doe `div` 146096) `div` 365)%Z in
  let doy := (doe - (365 * yoe + yoe `div` 4 - yoe `div` 100))%Z in
  let mp := ((5 * doy + 2) `div` 153)%Z in
  let d := (doy - (153 * mp + 2) `div` 5 + 1)%Z in
  let m := (if decide (mp < 10)%Z then mp + 3 else mp - 9)%Z in
  let y := (yoe + era * 400 + (if decide (m ≤ 2)%Z then 1 else 0))%Z in
  (y, m, d).

(** Modelled from the spec: [tsToDate] and [formatDate] of [metadata.ts],
    which is not among the sources. A date is a number of milliseconds since
    the epoch; the fraction of a second is dropped; the two formats of the
    specification are [YYYY-MM-DD] and [HH:MM], both in UTC. *)
Definition spec_tsToDate (ts : Z) : Z := ((ts `div` 1000000) * 1000)%Z.

Definition spec_formatDate (date : Z) (format : jsstring) (isUTC : bool) : jsstring :=
  let seconds := (date `div` 1000)%Z in
  if decide (format = str "YYYY-MM-DD") then
    let '(y, m, d) := civilFromDays (seconds `div` 86400) in
    pad4 y ++ str "-" ++ pad2 m ++ str "-" ++ pad2 d
  else
    let s := (seconds `mod` 86400)%Z in
    pad2 (s `div` 3600) ++ str ":" ++ pad2 ((s `mod` 3600) `div` 60).

(** Modelled from the spec: [getMetadata] of [metadata.ts], which is not
    among the sources. The time is [HH:MM] in UTC; the user name is the
    display name if present, else the account name, else the raw user id;
    the image is the avatar of the user, or empty. *)
Definition spec_getMetadata (message : Message) (users : gmap jsstring User)
    : Metadata :=
  let user := userID message ≫= λ id, users !! id in
  {| time := spec_formatDate (spec_tsToDate (timeStamp message)) (str "HH:MM") true;
     imageURL := default [] (user ≫= avatarURL);
     username :=
       match user with
       | Some user => default (user_name user) (displayName user)
       | None => default [] (userID message)
       end |}.

#[global] Instance example_imports : Imports := {|
  Raw := record;
  path_join := posix_join;
  path_basename := posix_basename;
  parseChannel r := match r with RChannel c => Ok c | _ => malformed end;
  parseUser r := match r with RUser u => Ok u | _ => malformed end;
  parseMessage r := match r with RMessage m => Ok m | _ => malformed end;
  getMetadata := spec_getMetadata;
  Date := Z;
  tsToDate := spec_tsToDate;
  formatDate := spec_formatDate |}.

(** ** An exported tree, for the examples

    The workspace [in] has the channel [general] with two files; the first
    file holds a message of the next UTC day. The records of [C1] and of
    [U1] come twice. The output directory [out] is there, and is empty. *)

Definition alice : User :=
  {| user_id := str "U1"; user_name := str "alice";
     displayName := None; avatarURL := None |}.

Definition alice_renamed : User :=
  {| user_id := str "U1"; user_name := str "alice";
     displayName := Some (str "Alice"); avatarURL := None |}.

Definition bob : User :=
  {| user_id := str "U2"; user_name := str "bob";
     displayName := None;
     avatarURL := Some (str "https://example.com/bob/72.png") |}.

Definition general : Channel :=
  {| channel_id := str "C1"; channel_name := str "general" |}.

Definition general_renamed : Channel :=
  {| channel_id := str "C1"; channel_name := str "main" |}.

Definition random : Channel :=
  {| channel_id := str "C2"; channel_name := str "random" |}.

(** 2019-10-30 23:50:00 UTC, a channel join. *)
Definition msg_join : Message :=
  {| userID := Some (str "U1"); timeStamp := 1572479400000000;
     text := str "<@U1> has joined the channel";
     subtype := Some (str "channel_join") |}.

(** 2019-10-31 01:43:00 UTC, in the file of the day before. *)
Definition msg_late : Message :=
  {| userID := Some (str "U1"); timeStamp := 1572486180000100;
     text := str "Hello <@U2> in <#C1>" ++ nl ++ str "See :smile:";
     subtype := None |}.

(** 2019-10-31 07:02:00 UTC. *)
Definition msg_next : Message :=
  {| userID := Some (str "U2"); timeStamp := 1572505320000000;
     text := str "See <#C9>"; subtype := None |}.

Definition example_world : world :=
  list_to_map [
    (str "out", Directory []);
    (str "in", Directory [str "channels.json"; str "users.json"; str "general"]);
    (str "in/channels.json",
       File (Some (JArray [RChannel general; RChannel random; RChannel general_renamed])));
    (str "in/users.json",
       File (Some (JArray [RUser alice; RUser bob; RUser alice_renamed])));
    (str "in/general",
       Directory [str "2019-10-30.json"; str "2019-10-31.json"; str "notes.txt"]);
    (str "in/general/2019-10-30.json",
       File (Some (JArray [RMessage msg_join; RMessage msg_late])));
    (str "in/general/2019-10-31.json",
       File (Some (JArray [RMessage msg_next])));
    (str "in/general/notes.txt", File None) ].

Definition example_channels : gmap jsstring Channel :=
  <[str "C1" := general_renamed]> (<[str "C2" := random]> ∅).

Definition example_users : gmap jsstring User :=
  <[str "U1" := alice_renamed]> (<[str "U2" := bob]> ∅).

(** A workspace without its metadata files, and with a message file that
    holds an object. *)
Definition broken_world : world :=
  list_to_map [
    (str "in", Directory [str "general"]);
    (str "in/general", Directory [str "2019-10-31.json"]);
    (str "in/general/2019-10-31.json", File (Some JOther)) ].

(** A channel whose files are named [a.json] and [a-b.json]. *)
Definition prefix_world : world :=
  list_to_map [
    (str "out", Directory []);
    (str "in", Directory [str "general"]);
    (str "in/general", Directory [str "a-b.json"; str "a.json"]);
    (str "in/general/a.json", File (Some (JArray [RMessage msg_late])));
    (str "in/general/a-b.json", File (Some (JArray [RMessage msg_next]))) ].

Definition ignoreNothing : IgnoreMessage := {| channelLogin := Some false |}.
Definition ignoreLogin : IgnoreMessage := {| channelLogin := Some true |}.

(** ** Definitions for the further properties *)

Section Observations.
Context `{Imports}.

(** A path of the tree that is a file, and one that is a directory. *)
Definition isFile (w : world) (p : jsstring) : bool :=
  match w !! p with Some (File _) => true | _ => false end.

Definition isDirectory (w : world) (p : jsstring) : bool :=
  match w !! p with Some (Directory _) => true | _ => false end.

(** Two entries are alike when they are the same but for the listing of a
    directory. *)
Definition alike (a b : option (node Raw)) : Prop :=
  match a, b with
  | Some (Directory _), Some (Directory _) => True
  | _, _ => a = b
  end.

(** What it takes to write the files [paths] into the output directory
    [dest] of a channel whose listed files are [filePaths]: [dest] is a
    directory, or it is not there and the directory that is to hold it is;
    each of [paths] names an entry of [dest], is not a directory, and is
    not a file of the channel. If [dest] is to be made in the channel
    directory [src], joining [src] and its name gives [dest] back, as
    [path.join] does. *)
Definition canWrite (w : world) (src dest : jsstring)
    (filePaths paths : list jsstring) : Prop :=
  (parentDir dest = Some src → path_join src (lastComponent dest) = dest)
  ∧ match w !! dest with
    | Some (Directory _) => True
    | Some (File _) => False
    | None => checkParent w dest = Ok tt
    end
  ∧ Forall (λ p, parentDir p = Some dest
                 ∧ isDirectory w p = false
                 ∧ p ∉ filePaths) paths.

(** What the loop of [log2Md] does for a channel directory. *)
Definition channelRun (w : world) (outputDir : jsstring)
    (options : Log2MdOptions) (channels : gmap jsstring Channel)
    (users : gmap jsstring User) (src : jsstring) : IO unit :=
  let channel := path_basename src None in
  logger_log (truthy (report options)) (str "  #" ++ channel);;
  let dest := path_join outputDir channel in
  if truthy (groupingSameDayByUTC options)
  then convertChannelMessagesSameDay w src dest channels users
         (checkIgnoreOption (ignore options))
  else convertChannelMessages w src dest channels users
         (checkIgnoreOption (ignore options)).

(** The runs of the loop of [log2Md], each in the tree as the runs before
    it have left it. *)
Fixpoint channelRuns (w : world) (outputDir : jsstring)
    (options : Log2MdOptions) (channels : gmap jsstring Channel)
    (users : gmap jsstring User) (channelDirs : list jsstring)
    : list (IO unit) :=
  match channelDirs with
  | [] => []
  | src :: channelDirs' =>
      let run := channelRun w outputDir options channels users src in
      run :: channelRuns (after w (trace run)) outputDir options channels users
               channelDirs'
  end.

End Observations.

(** The path that an effect makes or writes. *)
Definition target (e : effect) : option jsstring :=
  match e with
  | Mkdir p | WriteFile p _ => Some p
  | Log _ => None
  end.

(** The paths that a run has written to, in order, and the text of each
    file it has written: a later write to a path replaces an earlier one. *)
Definition writePaths (tr : list effect) : list jsstring :=
  omap (λ e, match e with WriteFile p _ => Some p | _ => None end) tr.

Definition written (tr : list effect) : gmap jsstring jsstring :=
  foldl (λ files e,
    match e with
    | WriteFile p data => <[p := data]> files
    | _ => files
    end) ∅ tr.

Section Output.
Context `{Imports}.

(** The documents that a run has left are those of [groups]: the document
    of each group is at its path, and every file written is one of these
    or the index. *)
Definition outputIs (dest : jsstring) (channels : gmap jsstring Channel)
    (users : gmap jsstring User) (tr : list effect)
    (groups : list (jsstring * list Message)) : Prop :=
  (∀ group, group ∈ groups →
     written tr !! path_join dest (group.1 ++ str ".md")
     = Some (documentText channels users group))
  ∧ (∀ p text, written tr !! p = Some text →
       p = path_join dest (str "index.md")
       ∨ ∃ group, group ∈ groups
           ∧ p = path_join dest (group.1 ++ str ".md")
           ∧ text = documentText channels users group).

End Output.

(** The elements of a list in the order in which they are first seen. *)
Definition firstSeen (l : list jsstring) : list jsstring :=
  foldl (λ seen x, if decide (x ∈ seen) then seen else seen ++ [x]) [] l.

(** The effects of a run other than its log lines. *)
Definition isLog (e : effect) : bool :=
  match e with Log _ => true | _ => false end.

Definition withoutLogs (tr : list effect) : list effect :=
  filter (λ e, isLog e = false) tr.

(** A run without its log lines, and a run that has none. *)
Definition silent {A} (m : IO A) : IO A :=
  mkIO (withoutLogs (trace m)) (result m).

Definition quiet {A} (m : IO A) : Prop :=
  Forall (λ e, isLog e = false) (trace m).

(** The lines a logger writes. *)
Definition logLines (report : bool) (lines : list jsstring) : list effect :=
  if report then Log <$> lines else [].

(** The number of line feeds of a text. *)
Definition lineFeeds (s : jsstring) : nat := length (filter (λ c, c = LF) s).

(** A message with a text only. *)
Definition textMessage (s : jsstring) : Message :=
  {| userID := None; timeStamp := 0; text := s; subtype := None |}.

(** A workspace whose files hold a record of the wrong kind after a good
    one. *)
Definition malformed_world : world :=
  list_to_map [
    (str "in/channels.json",
       File (Some (JArray [RChannel general; RUser alice; RChannel random])));
    (str "in/users.json",
       File (Some (JArray [RUser alice; RMessage msg_join])));
    (str "in/general/2019-10-31.json",
       File (Some (JArray [RMessage msg_next; RChannel general; RMessage msg_late]))) ].

(** A workspace with the channels [general] and [random]; the file
    [a.json] of [random] holds an object, not an array. *)
Definition partial_world : world :=
  list_to_map [
    (str "out", Directory []);
    (str "in", Directory [str "channels.json"; str "users.json";
                          str "general"; str "random"]);
    (str "in/channels.json", File (Some (JArray [RChannel general; RChannel random])));
    (str "in/users.json", File (Some (JArray [RUser alice; RUser bob])));
    (str "in/general", Directory [str "2019-10-31.json"]);
    (str "in/general/2019-10-31.json", File (Some (JArray [RMessage msg_next])));
    (str "in/random", Directory [str "a.json"; str "b.json"]);
    (str "in/random/a.json", File (Some JOther));
    (str "in/random/b.json", File (Some (JArray [RMessage msg_late]))) ].

(** A channel with channel joins only, whose output directory exists. *)
Definition quiet_world : world :=
  list_to_map [
    (str "in", Directory [str "general"]);
    (str "in/general", Directory [str "2019-10-30.json"]);
    (str "in/general/2019-10-30.json", File (Some (JArray [RMessage msg_join])));
    (str "out", Directory [str "general"]);
    (str "out/general", Directory []) ].

(** A channel whose files are named [.json] and [.json.json]; each holds a
    message of 2019-10-31. *)
Definition clash_world : world :=
  list_to_map [
    (str "out", Directory []);
    (str "in", Directory [str "general"]);
    (str "in/general", Directory [str ".json"; str ".json.json"]);
    (str "in/general/.json", File (Some (JArray [RMessage msg_next])));
    (str "in/general/.json.json", File (Some (JArray [RMessage msg_late]))) ].


(** The example workspace without the output directory [out], and with a
    file in the place of the output directory of the channel. *)
Definition unmade_world : world := delete (str "out") example_world.

Definition blocked_world : world :=
  <[str "out/general" := File None]>
    (<[str "out" := Directory [str "general"]]> example_world).

Definition defaultOptions : Log2MdOptions :=
  {| report := None; groupingSameDayByUTC := None; ignore := None |}.

Definition reportingOptions : Log2MdOptions :=
  {| report := Some true; groupingSameDayByUTC := None; ignore := None |}.

(** * Properties *)

(** ** The order of strings and the sorted array *)

Lemma str_ltb_irrefl a : str_ltb a a = false.
Proof.
  induction a as [|x a IH]; simpl; [done|].
  by rewrite N.ltb_irrefl.
Qed.

Lemma str_ltb_asym a b : str_ltb a b = true → str_ltb b a = false.
Proof.
  revert b; induction a as [|x a IH]; intros [|y b]; simpl; try done.
  destruct (N.ltb_spec x y), (N.ltb_spec y x); try done; try lia.
  apply IH.
Qed.

Lemma str_ltb_trichotomy a b :
  str_ltb a b = false → str_ltb b a = false → a = b.
Proof.
  revert b; induction a as [|x a IH]; intros [|y b]; simpl; try done.
  destruct (N.ltb_spec x y), (N.ltb_spec y x); try done.
  intros ??. assert (x = y) as -> by lia. f_equal. by apply IH.
Qed.

Lemma str_ltb_trans a b c :
  str_ltb a b = true → str_ltb b c = true → str_ltb a c = true.
Proof.
  revert b c; induction a as [|x a IH]; intros [|y b] [|z c]; simpl; try done.
  destruct (N.ltb_spec x y), (N.ltb_spec y x), (N.ltb_spec y z),
    (N.ltb_spec z y), (N.ltb_spec x z), (N.ltb_spec z x);
    try done; try lia.
  apply IH.
Qed.

(** The comparator of the source keeps [a] before [b] exactly when [a] is
    not below [b]. *)
Lemma keepsOrder_descending a b :
  keepsOrder descending a b ↔ str_ltb a b = false.
Proof.
  unfold keepsOrder, descending.
  destruct (decide (a = b)) as [->|]; [by rewrite str_ltb_irrefl|].
  destruct (str_ltb a b); split; (done || lia).
Qed.

#[global] Instance descending_total : Total (keepsOrder descending).
Proof.
  intros a b. rewrite !keepsOrder_descending.
  destruct (str_ltb a b) eqn:E; [right; by apply str_ltb_asym|by left].
Qed.

#[global] Instance descending_trans : Transitive (keepsOrder descending).
Proof.
  intros a b c. rewrite !keepsOrder_descending. intros Hab Hbc.
  destruct (str_ltb a c) eqn:Hac; [|done].
  destruct (str_ltb b c) eqn:E; [congruence|].
  destruct (str_ltb c b) eqn:E'.
  - by rewrite (str_ltb_trans a c b) in Hab.
  - apply str_ltb_trichotomy in E; [|done]. congruence.
Qed.

#[global] Instance descending_antisym : AntiSymm (=) (keepsOrder descending).
Proof.
  intros a b. rewrite !keepsOrder_descending. apply str_ltb_trichotomy.
Qed.

Lemma array_sort_descending_sorted l :
  StronglySorted (keepsOrder descending) (array_sort descending l).
Proof. apply StronglySorted_merge_sort; apply _. Qed.

Lemma array_sort_perm {A} (compareFn : A → A → Z) l :
  array_sort compareFn l ≡ₚ l.
Proof. apply merge_sort_Permutation. Qed.

(** Whatever the algorithm of the engine, an array sorted by the comparator
    of the source is this one. *)
Lemma array_sort_unique l l' :
  l' ≡ₚ l → StronglySorted (keepsOrder descending) l' →
  l' = array_sort descending l.
Proof.
  intros Hp Hs. apply (StronglySorted_unique (keepsOrder descending));
    [done|apply array_sort_descending_sorted|].
  by rewrite Hp, array_sort_perm.
Qed.

(** ** The text transformer *)

Lemma replaceTokens_cons sigil replacer c s' :
  replaceTokens sigil replacer (c :: s')
  = match matchToken sigil (c :: s') with
    | Some (cap, rest) => replacer cap ++ replaceTokens sigil replacer rest
    | None => c :: replaceTokens sigil replacer s'
    end.
Proof. funelim (replaceTokens sigil replacer (c :: s')); by rewrite E. Qed.

(** A text without [<] has no token. *)
Lemma replaceTokens_plain sigil replacer (s : jsstring) :
  code "<" ∉ s → replaceTokens sigil replacer s = s.
Proof.
  induction s as [|c s IH]; [by simp replaceTokens|].
  intros [Hc Hs]%not_elem_of_cons. rewrite replaceTokens_cons.
  assert (matchToken sigil (c :: s) = None) as ->.
  { destruct s as [|c1 s]; [done|]. cbn [matchToken].
    by rewrite bool_decide_eq_false_2. }
  by rewrite IH.
Qed.

Lemma replaceLineBreaks_plain (s : jsstring) :
  LF ∉ s → replaceLineBreaks s = s.
Proof.
  unfold replaceLineBreaks. induction s as [|c s IH]; [done|].
  intros [Hc Hs]%not_elem_of_cons. cbn [mbind list_bind].
  rewrite bool_decide_eq_false_2 by done. cbn [app]. f_equal. by apply IH.
Qed.

(** The body of a text without [<] and without a line feed is the text:
    nothing else is rewritten, an emoji code in particular. *)
Lemma createBody_plain `{Imports} message username channels users :
  code "<" ∉ text message → LF ∉ text message →
  createBody message username channels users = text message.
Proof.
  intros Hlt Hlf. unfold createBody. cbn zeta.
  rewrite (replaceTokens_plain (code "@")) by done.
  rewrite (replaceTokens_plain (code "#")) by done.
  by apply replaceLineBreaks_plain.
Qed.

(** A token at the head of a text: an id without [>] and without a line
    terminator, between [<σ] and [>]. *)
Lemma lazyUntilGt_id (id rest : jsstring) :
  code ">" ∉ id → Forall (λ c, isLineTerminator c = false) id →
  lazyUntilGt (id ++ code ">" :: rest) = Some (id, rest).
Proof.
  induction id as [|c id IH]; intros Hgt Hlt.
  - cbn [app lazyUntilGt]. by rewrite bool_decide_eq_true_2.
  - apply not_elem_of_cons in Hgt as [Hc Hgt].
    apply Forall_cons in Hlt as [Hlc Hlt].
    cbn [app lazyUntilGt]. rewrite bool_decide_eq_false_2 by done.
    by rewrite Hlc, IH.
Qed.

Lemma replaceTokens_token sigil replacer (id rest : jsstring) :
  code ">" ∉ id → Forall (λ c, isLineTerminator c = false) id →
  replaceTokens sigil replacer (code "<" :: sigil :: id ++ code ">" :: rest)
  = replacer id ++ replaceTokens sigil replacer rest.
Proof.
  intros Hgt Hlt. rewrite replaceTokens_cons. cbn [matchToken].
  rewrite !bool_decide_eq_true_2 by done. cbn [andb].
  by rewrite lazyUntilGt_id.
Qed.

(** A code unit is not in a literal. *)
Ltac not_in_literal :=
  let Hin := fresh in
  vm_compute; intros Hin%list_elem_of_In; cbn in Hin; intuition discriminate.

(** The mention of a known user, alone in a text: the body is the user name
    of the row, whoever is mentioned. *)
Lemma createBody_mention_known `{Imports} message username channels users
    (id : jsstring) user :
  text message = code "<" :: code "@" :: id ++ [code ">"] →
  code ">" ∉ id → Forall (λ c, isLineTerminator c = false) id →
  users !! id = Some user →
  code "<" ∉ username → LF ∉ username →
  createBody message username channels users = str "`@" ++ username ++ str "`".
Proof.
  intros Htext Hgt Hlt Huser Hname Hlf. unfold createBody. cbn zeta.
  rewrite Htext, replaceTokens_token by done. rewrite Huser.
  simp replaceTokens. rewrite app_nil_r.
  rewrite replaceTokens_plain, replaceLineBreaks_plain; [done|..];
    rewrite !not_elem_of_app; (split_and!; [not_in_literal|done|not_in_literal]).
Qed.

(** The reference to an unknown channel, alone in a text: the body is the
    raw id after [@]. *)
Lemma createBody_channel_unknown `{Imports} message username channels users
    (id : jsstring) :
  text message = code "<" :: code "#" :: id ++ [code ">"] →
  code ">" ∉ id → Forall (λ c, isLineTerminator c = false) id →
  channels !! id = None →
  code "<" ∉ id →
  createBody message username channels users = str "`@" ++ id ++ str "`".
Proof.
  intros Htext Hgt Hlt Hchannel Hid. unfold createBody. cbn zeta.
  assert (LF ∉ id) as Hlf.
  { intros Hin. rewrite Forall_forall in Hlt. by specialize (Hlt _ Hin). }
  rewrite Htext, replaceTokens_cons. cbn [matchToken].
  rewrite (bool_decide_eq_false_2 (code "#" = code "@")) by (by vm_compute).
  rewrite andb_false_r, (replaceTokens_plain (code "@")).
  - rewrite replaceTokens_token by done. rewrite Hchannel.
    simp replaceTokens. rewrite app_nil_r.
    apply replaceLineBreaks_plain. rewrite !not_elem_of_app.
    split_and!; [not_in_literal|done|not_in_literal].
  - rewrite not_elem_of_cons, not_elem_of_app.
    split_and!; [by vm_compute|done|not_in_literal].
Qed.

(** ** Returning and throwing *)

Lemma outcome_bind_Ok {A B} (f : A → outcome B) m b :
  m ≫= f = Ok b ↔ ∃ a, m = Ok a ∧ f a = Ok b.
Proof.
  destruct m as [a|e]; simpl; split.
  - intros Hb. by exists a.
  - by intros (a' & [= <-] & Hb).
  - done.
  - by intros (a' & ? & _).
Qed.

Lemma IO_bind_Ok {A B} (f : A → IO B) (m : IO A) b :
  result (m ≫= f) = Ok b →
  ∃ a, result m = Ok a ∧ result (f a) = Ok b
       ∧ trace (m ≫= f) = trace m ++ trace (f a).
Proof.
  unfold mbind, IO_bind. destruct (result m) as [a|e] eqn:E; simpl; [|done].
  intros Hb. by exists a.
Qed.

(** ** The readers *)

Section Readers.
Context `{Imports}.

(** A loop that parses each record and appends it returns the parsed
    records in order, when each of them parses. *)
Lemma foldM_parse_snoc {R E : Type} (parse : R → outcome E) values acc r :
  foldM (λ acc value, e ← parse value; mret (acc ++ [e])) acc values = Ok r ↔
  ∃ es, Forall2 (λ value e, parse value = Ok e) values es ∧ r = acc ++ es.
Proof.
  revert acc; induction values as [|v values IH]; intros acc; simpl.
  - split.
    + intros [= <-]. exists []. by rewrite app_nil_r.
    + intros (es & ->%Forall2_nil_inv_l & ->). by rewrite app_nil_r.
  - rewrite outcome_bind_Ok. split.
    + intros (acc' & Hv & Hrest). apply outcome_bind_Ok in Hv as (e & He & [= <-]).
      apply IH in Hrest as (es & Hes & ->). exists (e :: es).
      split; [by constructor|by rewrite <-app_assoc].
    + intros (es & Hes & ->).
      apply Forall2_cons_inv_l in Hes as (e & es' & He & Hes & ->).
      exists (acc ++ [e]). split; [by rewrite He|].
      apply IH. exists es'. split; [done|by rewrite <-app_assoc].
Qed.

(** The loop of [readChannels] and of [readUsers]: each parsed record is set
    at its id, in order. *)
Lemma foldM_parse_insert {R E : Type} (parse : R → outcome E)
    (key : E → jsstring) (values : list R) (es : list E)
    (m : gmap jsstring E) :
  Forall2 (λ value e, parse value = Ok e) values es →
  foldM (λ m value, e ← parse value; mret (<[key e := e]> m)) m values
  = Ok (foldl (λ m e, <[key e := e]> m) m es).
Proof.
  intros Hes; revert m; induction Hes as [|v e values es He _ IH]; intros m;
    simpl; [done|].
  rewrite He; simpl. apply IH.
Qed.

Lemma foldl_insert_lookup {E : Type} (key : E → jsstring) (es : list E)
    (m : gmap jsstring E) id :
  foldl (λ m e, <[key e := e]> m) m es !! id
  = match last (filter (λ e, key e = id) es) with
    | Some e => Some e
    | None => m !! id
    end.
Proof.
  revert m; induction es as [|e es IH]; intros m; simpl; [done|].
  rewrite IH, filter_cons. destruct (decide (key e = id)) as [<-|Hne].
  - rewrite last_cons. destruct (last _); [done|]. by rewrite lookup_insert_eq.
  - destruct (last _); [done|]. by rewrite lookup_insert_ne.
Qed.

Lemma foldl_insert_dom {E : Type} (key : E → jsstring) (es : list E)
    (m : gmap jsstring E) :
  dom (foldl (λ m e, <[key e := e]> m) m es) = dom m ∪ list_to_set (key <$> es).
Proof.
  revert m; induction es as [|e es IH]; intros m; simpl.
  - set_solver.
  - rewrite IH, dom_insert_L. set_solver.
Qed.

(** A map built by the loop from the empty map: the entry of an id is the
    last record with this id, and there is one entry for each id. *)
Lemma foldl_insert_last_wins {E : Type} (key : E → jsstring) (es : list E) :
  let m : gmap jsstring E := foldl (λ m e, <[key e := e]> m) ∅ es in
  (∀ id, m !! id = last (filter (λ e, key e = id) es))
  ∧ dom m = list_to_set (key <$> es)
  ∧ size m = length (remove_dups (key <$> es)).
Proof.
  intros m. assert (dom m = list_to_set (key <$> es)) as Hdom.
  { unfold m. rewrite foldl_insert_dom. set_solver. }
  split_and!; [|done|].
  - intros id. unfold m. rewrite foldl_insert_lookup, lookup_empty.
    by destruct (last _).
  - rewrite <-size_dom, Hdom.
    rewrite <-(size_list_to_set (C:=gset jsstring) (remove_dups (key <$> es)))
      by apply NoDup_remove_dups.
    f_equal. apply set_eq. intros id.
    by rewrite !elem_of_list_to_set, elem_of_remove_dups.
Qed.

Lemma readArrayFromJSON_missing (w : world) filePath :
  w !! filePath = None →
  readArrayFromJSON w filePath
  = Throw (Error (str "File does not exist. " ++ dquote ++ filePath ++ dquote)).
Proof.
  intros Hw. unfold readArrayFromJSON, existsSync.
  rewrite bool_decide_eq_false_2; [done|]. rewrite Hw. by intros [??].
Qed.

Lemma readArrayFromJSON_not_array (w : world) filePath :
  w !! filePath = Some (File (Some JOther)) →
  readArrayFromJSON w filePath = Throw (Error (str "Data is not an array.")).
Proof.
  intros Hw. unfold readArrayFromJSON, existsSync, readFileParse.
  rewrite bool_decide_eq_true_2; [|by rewrite Hw]. simpl. by rewrite Hw.
Qed.

Lemma readArrayFromJSON_array (w : world) filePath values :
  readArrayFromJSON w filePath = Ok values ↔
  w !! filePath = Some (File (Some (JArray values))).
Proof.
  unfold readArrayFromJSON, existsSync, readFileParse.
  destruct (w !! filePath) as [[items|[[vs|]|]]|] eqn:Hw; simpl;
    (rewrite ?bool_decide_eq_true_2 by eauto);
    (rewrite ?bool_decide_eq_false_2 by (by intros [??])); simpl;
    naive_solver.
Qed.

(** X9: [readMessages] returns exactly when the file holds an array whose
    records all parse, and it returns the parsed messages in the order of
    the records. *)
Lemma readMessages_Ok (w : world) filePath messages :
  readMessages w filePath = Ok messages ↔
  ∃ values, w !! filePath = Some (File (Some (JArray values)))
    ∧ Forall2 (λ value message, parseMessage value = Ok message) values messages.
Proof.
  unfold readMessages. rewrite outcome_bind_Ok.
  setoid_rewrite readArrayFromJSON_array. setoid_rewrite foldM_parse_snoc.
  split.
  - intros (values & Hw & es & Hes & ->). by exists values.
  - intros (values & Hw & Hes). exists values. split; [done|]. by exists messages.
Qed.

End Readers.

(** ** The map in insertion order *)

Section JsMapFacts.
Context {V : Type}.
Implicit Types (m : list (jsstring * V)) (k : jsstring) (v : V).

Lemma jsmap_get_Some m k v : jsmap_get m k = Some v → (k, v) ∈ m.
Proof.
  induction m as [|[k' v'] m IH]; simpl; [done|].
  destruct (decide (k' = k)) as [->|].
  - intros [= ->]. by left.
  - intros ?. right. by apply IH.
Qed.

Lemma jsmap_get_None m k : jsmap_get m k = None ↔ k ∉ m.*1.
Proof.
  induction m as [|[k' v'] m IH]; simpl.
  - split; [intros _; apply not_elem_of_nil|done].
  - rewrite not_elem_of_cons. destruct (decide (k' = k)) as [->|]; naive_solver.
Qed.

(** With distinct keys, an entry is what [get] gives for its key. *)
Lemma jsmap_get_elem_of m k v :
  NoDup m.*1 → (k, v) ∈ m → jsmap_get m k = Some v.
Proof.
  induction m as [|[k' v'] m IH]; simpl; [by intros _ ?%elem_of_nil|].
  intros [Hk' Hnd]%NoDup_cons [[= -> ->]|Hin]%elem_of_cons.
  - by rewrite decide_True.
  - rewrite decide_False; [by apply IH|].
    intros ->. apply Hk'. apply list_elem_of_fmap. by exists (k, v).
Qed.

(** [set] keeps the keys where they are and puts a new key at the end. *)
Lemma jsmap_set_keys m k v :
  (jsmap_set m k v).*1 = if decide (k ∈ m.*1) then m.*1 else m.*1 ++ [k].
Proof.
  induction m as [|[k' v'] m IH].
  - case_decide as Hk; [by apply elem_of_nil in Hk|done].
  - rewrite fmap_cons. cbn [jsmap_set fst].
    destruct (decide (k' = k)) as [->|Hne].
    + destruct (decide (k ∈ k :: m.*1)) as [|Hk]; [done|]. destruct Hk. by left.
    + rewrite fmap_cons, IH. cbn [fst].
      destruct (decide (k ∈ m.*1)) as [Hk|Hk],
        (decide (k ∈ k' :: m.*1)) as [Hk'|Hk']; try done.
      * destruct Hk'. by right.
      * by apply elem_of_cons in Hk' as [->|Hk'].
Qed.

Lemma jsmap_set_NoDup m k v : NoDup m.*1 → NoDup (jsmap_set m k v).*1.
Proof.
  intros Hnd. rewrite jsmap_set_keys. destruct (decide _); [done|].
  apply NoDup_app. split_and!; [done| |apply NoDup_singleton].
  intros k' Hk' ->%list_elem_of_singleton. done.
Qed.

Lemma jsmap_set_elem_of m k v : (k, v) ∈ jsmap_set m k v.
Proof.
  induction m as [|[k' v'] m IH]; simpl; [by left|].
  destruct (decide (k' = k)) as [->|]; [by left|by right].
Qed.

Lemma jsmap_set_elem_of_ne m k v k' v' :
  k' ≠ k → (k', v') ∈ m → (k', v') ∈ jsmap_set m k v.
Proof.
  intros Hne. induction m as [|[k0 v0] m IH]; cbn [jsmap_set];
    [by intros ?%elem_of_nil|].
  intros [[= <- <-]|Hin]%elem_of_cons.
  - destruct (decide (k' = k)); [done|by left].
  - destruct (decide (k0 = k)); right; [done|by apply IH].
Qed.

Lemma jsmap_set_elem_of_inv m k v k' v' :
  (k', v') ∈ jsmap_set m k v → (k' = k ∧ v' = v) ∨ (k', v') ∈ m.
Proof.
  induction m as [|[k0 v0] m IH]; simpl.
  - intros [= -> ->]%list_elem_of_singleton. by left.
  - destruct (decide (k0 = k)) as [->|].
    + intros [[= -> ->]|Hin]%elem_of_cons; [by left|right; by right].
    + intros [[= -> ->]|Hin]%elem_of_cons; [right; by left|].
      destruct (IH Hin); [by left|right; by right].
Qed.

End JsMapFacts.

(** ** The groups of the conversion by day *)

Section GroupsByDay.
Context `{Imports}.

Lemma groupedByDay_pushLog ignore all logs message :
  groupedByDay ignore all logs →
  groupedByDay ignore (all ++ [message]) (pushLog ignore logs message).
Proof.
  intros (Hnd & Hin & Hall). unfold pushLog.
  destruct (isIgnore message ignore) eqn:Hig.
  { split_and!; [done| |].
    - intros day group Hg. destruct (Hin _ _ Hg) as [Hne Hms].
      split; [done|]. intros m Hm. destruct (Hms m Hm) as (?&?&?).
      split_and!; [|done..]. apply elem_of_app. by left.
    - intros m [Hm| ->%list_elem_of_singleton]%elem_of_app Hk; [|congruence].
      by apply Hall. }
  fold (utcDay message).
  assert (∃ group', (match jsmap_get logs (utcDay message) with
                     | Some targets => jsmap_set logs (utcDay message) (targets ++ [message])
                     | None => jsmap_set logs (utcDay message) [message]
                     end) = jsmap_set logs (utcDay message) (group' ++ [message])
                    ∧ (group' = [] ∨ (utcDay message, group') ∈ logs)
                    ∧ (∀ group, (utcDay message, group) ∈ logs → group = group'))
    as (group' & -> & Hgroup' & Huniq).
  { destruct (jsmap_get logs (utcDay message)) as [targets|] eqn:Hget.
    - exists targets. split_and!; [done|right; by apply jsmap_get_Some|].
      intros group Hg. apply (jsmap_get_elem_of _ _ _ Hnd) in Hg. congruence.
    - exists []. split_and!; [done|by left|].
      intros group Hg. apply jsmap_get_None in Hget. destruct Hget.
      apply list_elem_of_fmap. by exists (utcDay message, group). }
  split_and!.
  - by apply jsmap_set_NoDup.
  - intros day group [[-> ->]|Hg]%jsmap_set_elem_of_inv.
    + split; [by destruct group'|].
      intros m [Hm| ->%list_elem_of_singleton]%elem_of_app.
      * destruct Hgroup' as [->|Hg']; [by apply elem_of_nil in Hm|].
        destruct (Hin _ _ Hg') as [_ Hms]. destruct (Hms m Hm) as (?&?&?).
        split_and!; [|done..]. apply elem_of_app. by left.
      * split_and!; [|done..]. apply elem_of_app. right. by left.
    + destruct (Hin _ _ Hg) as [Hne Hms]. split; [done|].
      intros m Hm. destruct (Hms m Hm) as (?&?&?).
      split_and!; [|done..]. apply elem_of_app. by left.
  - intros m [Hm| ->%list_elem_of_singleton]%elem_of_app Hk.
    + destruct (Hall m Hm Hk) as (group & Hg & Hmg).
      destruct (decide (utcDay m = utcDay message)) as [Heq|Hne].
      * rewrite Heq in Hg |- *. apply Huniq in Hg as ->.
        exists (group' ++ [message]). split; [apply jsmap_set_elem_of|].
        apply elem_of_app. by left.
      * exists group. split; [by apply jsmap_set_elem_of_ne|done].
    + exists (group' ++ [message]). split; [apply jsmap_set_elem_of|].
      apply elem_of_app. right. by left.
Qed.

Lemma groupsByDay_grouped ignore all :
  groupedByDay ignore all (groupsByDay ignore all).
Proof.
  unfold groupsByDay. induction all as [|message all IH] using rev_ind.
  - split_and!; [constructor|by intros ?? ?%elem_of_nil|by intros ? ?%elem_of_nil].
  - rewrite foldl_snoc. by apply groupedByDay_pushLog.
Qed.

End GroupsByDay.

(** ** The tree and the effects of a run *)

Section Tree.
Context `{Imports}.
Implicit Types (w : world) (p q d : jsstring) (n : node Raw).

Lemma parentDir_length p d : parentDir p = Some d → length d < length p.
Proof.
  revert d; induction p as [|c p IH]; intros d; cbn [parentDir]; [done|].
  destruct (parentDir p) as [d'|].
  - intros [= <-]. specialize (IH _ eq_refl). cbn. lia.
  - case_bool_decide; [|done]. intros [= <-]. cbn. lia.
Qed.

Lemma parentDir_ne p d : parentDir p = Some d → p ≠ d.
Proof. intros Hd ->. apply parentDir_length in Hd. lia. Qed.

Lemma alike_refl (a : option (node Raw)) : alike a a.
Proof. by destruct a as [[]|]. Qed.

Lemma alike_sym (a b : option (node Raw)) : alike a b → alike b a.
Proof. destruct a as [[]|], b as [[]|]; cbn; done || congruence. Qed.

Lemma alike_trans (a b c : option (node Raw)) : alike a b → alike b c → alike a c.
Proof. destruct a as [[]|], b as [[]|], c as [[]|]; cbn; done || congruence. Qed.

Lemma alike_eq (a b : option (node Raw)) : a = b → alike a b.
Proof. intros ->. apply alike_refl. Qed.

(** An entry that is alike in two trees is read alike. *)
Lemma existsSync_alike w w' p :
  alike (w !! p) (w' !! p) → existsSync w p = existsSync w' p.
Proof.
  unfold existsSync.
  destruct (w !! p) as [[]|], (w' !! p) as [[]|]; cbn; done || congruence.
Qed.

Lemma isDirectory_alike w w' p :
  alike (w !! p) (w' !! p) → isDirectory w p = isDirectory w' p.
Proof.
  unfold isDirectory.
  destruct (w !! p) as [[]|], (w' !! p) as [[]|]; cbn; done || congruence.
Qed.

Lemma isFile_alike w w' p :
  alike (w !! p) (w' !! p) → isFile w p = isFile w' p.
Proof.
  unfold isFile.
  destruct (w !! p) as [[]|], (w' !! p) as [[]|]; cbn; done || congruence.
Qed.

Lemma readMessages_alike w w' p :
  alike (w !! p) (w' !! p) → readMessages w p = readMessages w' p.
Proof.
  intros Hp. unfold readMessages, readArrayFromJSON, readFileParse.
  rewrite (existsSync_alike _ _ _ Hp).
  destruct (w !! p) as [[]|], (w' !! p) as [[]|]; cbn in Hp; by simplify_eq.
Qed.

(** Putting an entry in the tree leaves the other entries alike. *)
Lemma addEntry_lookup w p n : addEntry w p n !! p = Some n.
Proof. unfold addEntry. apply lookup_insert_eq. Qed.

Lemma addEntry_alike w p n q : q ≠ p → alike (w !! q) (addEntry w p n !! q).
Proof.
  intros Hq. unfold addEntry. rewrite lookup_insert_ne by done.
  destruct (parentDir p) as [d|]; [|apply alike_refl].
  destruct (w !! d) as [[items|x]|] eqn:Hd; try apply alike_refl.
  destruct (decide (lastComponent p ∈ items)); [apply alike_refl|].
  destruct (decide (d = q)) as [->|Hne].
  - by rewrite lookup_insert_eq, Hd.
  - rewrite lookup_insert_ne by done. apply alike_refl.
Qed.

Lemma perform_alike w e q : target e ≠ Some q → alike (w !! q) (perform w e !! q).
Proof.
  destruct e as [p|p data|line]; cbn [target perform]; intros Hq;
    [apply addEntry_alike; congruence..|apply alike_refl].
Qed.

Lemma after_app w tr1 tr2 : after w (tr1 ++ tr2) = after (after w tr1) tr2.
Proof. apply foldl_app. Qed.

Lemma after_cons w e tr : after w (e :: tr) = after (perform w e) tr.
Proof. done. Qed.

Lemma after_alike w tr q :
  Forall (λ e, target e ≠ Some q) tr → alike (w !! q) (after w tr !! q).
Proof.
  intros Htr; revert w. induction Htr as [|e tr He _ IH]; intros w.
  - apply alike_refl.
  - rewrite after_cons. eapply alike_trans; [by apply perform_alike|apply IH].
Qed.

(** A write to a path that is not a directory leaves the directories as
    they are. *)
Lemma write_isDirectory w p data q :
  isDirectory w p = false →
  isDirectory (perform w (WriteFile p data)) q = isDirectory w q.
Proof.
  intros Hp. cbn [perform]. destruct (decide (q = p)) as [->|Hq].
  - rewrite Hp. unfold isDirectory. by rewrite addEntry_lookup.
  - symmetry. by apply isDirectory_alike, addEntry_alike.
Qed.

(** What [mkdir] and a write give. *)
Lemma mkdirAsync_eq w p :
  mkdirAsync w p
  = if existsSync w p then mkIO [] (Throw (EEXIST p))
    else match checkParent w p with
         | Ok _ => mkIO [Mkdir p] (Ok tt)
         | Throw e => mkIO [] (Throw e)
         end.
Proof.
  unfold mkdirAsync. destruct (existsSync w p); [done|].
  by destruct (checkParent w p) as [[]|e].
Qed.

Lemma mkdirUnlessExists_eq w dest :
  mkdirUnlessExists w dest
  = if existsSync w dest then mkIO [] (Ok tt)
    else match checkParent w dest with
         | Ok _ => mkIO [Mkdir dest] (Ok tt)
         | Throw e => mkIO [] (Throw e)
         end.
Proof.
  unfold mkdirUnlessExists. rewrite mkdirAsync_eq.
  by destruct (existsSync w dest).
Qed.

Lemma writeFileASync_eq w p data :
  writeFileASync w p data
  = match w !! p with
    | Some (Directory _) => mkIO [] (Throw (EISDIR p))
    | _ => match checkParent w p with
           | Ok _ => mkIO [WriteFile p data] (Ok tt)
           | Throw e => mkIO [] (Throw e)
           end
    end.
Proof.
  unfold writeFileASync.
  destruct (w !! p) as [[]|]; [done|by destruct (checkParent w p) as [[]|]..].
Qed.

Lemma checkParent_Ok w p d :
  parentDir p = Some d → isDirectory w d = true → checkParent w p = Ok tt.
Proof.
  unfold checkParent, isDirectory. intros -> Hd.
  by destruct (w !! d) as [[]|].
Qed.

Lemma writeFileASync_Ok w p data d :
  parentDir p = Some d → isDirectory w d = true → isDirectory w p = false →
  writeFileASync w p data = mkIO [WriteFile p data] (Ok tt).
Proof.
  intros Hd Hdir Hp. rewrite writeFileASync_eq, (checkParent_Ok _ _ _ Hd Hdir).
  unfold isDirectory in Hp. by destruct (w !! p) as [[]|].
Qed.

(** A write makes the file, or throws and writes nothing. *)
Lemma writeFileASync_cases w p data :
  writeFileASync w p data = mkIO [WriteFile p data] (Ok tt)
  ∨ ∃ e, writeFileASync w p data = mkIO [] (Throw e).
Proof.
  rewrite writeFileASync_eq.
  destruct (w !! p) as [[]|]; eauto; destruct (checkParent w p) as [[]|]; eauto.
Qed.

Lemma mkdirUnlessExists_cases w dest :
  (mkdirUnlessExists w dest = mkIO [] (Ok tt) ∧ existsSync w dest = true)
  ∨ (mkdirUnlessExists w dest = mkIO [Mkdir dest] (Ok tt)
     ∧ existsSync w dest = false)
  ∨ ∃ e, mkdirUnlessExists w dest = mkIO [] (Throw e).
Proof.
  rewrite mkdirUnlessExists_eq.
  destruct (existsSync w dest); eauto; destruct (checkParent w dest) as [[]|]; eauto.
Qed.

End Tree.

(** ** The listing of a channel directory *)

Section ListingFacts.
Context `{Imports}.
Implicit Types (w : world) (p q : jsstring).

Lemma stat_Some w p n :
  w !! p = Some n →
  statIsDirectory w p = Ok (isDirectory w p)
  ∧ isFile w p = negb (isDirectory w p).
Proof.
  intros Hn. unfold statIsDirectory, isDirectory, isFile. rewrite Hn.
  by destruct n.
Qed.

Lemma enumMessageJSONs_loop w dir items results :
  Forall (λ item, endsWith item (str ".json") = true →
                  is_Some (w !! path_join dir item)) items →
  foldM (λ results item,
    if negb (endsWith item (str ".json")) then mret results
    else
      let filePath := path_join dir item in
      isDir ← statIsDirectory w filePath;
      if isDir : bool then mret results else mret (results ++ [filePath]))
    results items
  = Ok (results
        ++ (path_join dir
              <$> filter (λ item, endsWith item (str ".json")
                                  && isFile w (path_join dir item)) items)).
Proof.
  intros Hitems; revert results.
  induction Hitems as [|item items Hitem _ IH]; intros results.
  - cbn. by rewrite app_nil_r.
  - cbn [foldM]. rewrite filter_cons.
    destruct (endsWith item (str ".json")) eqn:Hjson; cbn [negb andb].
    + destruct (Hitem eq_refl) as [n Hn].
      destruct (stat_Some _ _ _ Hn) as [-> ->].
      destruct (isDirectory w (path_join dir item));
        cbn [mbind outcome_bind mret outcome_ret negb].
      * rewrite decide_False by (by intros []). apply IH.
      * rewrite decide_True by done. rewrite IH, fmap_cons.
        by rewrite <-app_assoc.
    + cbn [mbind outcome_bind mret outcome_ret].
      rewrite decide_False by (by intros []). apply IH.
Qed.

(** A listing that returns has looked at every entry named [*.json]. *)
Lemma enumMessageJSONs_loop_inv w dir items results filePaths :
  foldM (λ results item,
    if negb (endsWith item (str ".json")) then mret results
    else
      let filePath := path_join dir item in
      isDir ← statIsDirectory w filePath;
      if isDir : bool then mret results else mret (results ++ [filePath]))
    results items
  = Ok filePaths →
  Forall (λ item, endsWith item (str ".json") = true →
                  is_Some (w !! path_join dir item)) items.
Proof.
  revert results; induction items as [|item items IH]; intros results;
    [constructor|].
  cbn [foldM]. destruct (endsWith item (str ".json")) eqn:Hjson; cbn [negb].
  - destruct (statIsDirectory w (path_join dir item)) as [isDir|e] eqn:Hstat;
      [|done].
    intros Hloop. constructor.
    + intros _. unfold statIsDirectory in Hstat.
      by destruct (w !! path_join dir item).
    + destruct isDir; cbn in Hloop; by eapply IH.
  - cbn [mbind outcome_bind mret outcome_ret]. intros Hloop.
    constructor; [by rewrite Hjson|]. by eapply IH.
Qed.

Lemma enumMessageJSONs_inv w dir filePaths :
  enumMessageJSONs w dir = Ok filePaths →
  ∃ items, w !! dir = Some (Directory items)
    ∧ Forall (λ item, endsWith item (str ".json") = true →
                      is_Some (w !! path_join dir item)) items
    ∧ filePaths
      = path_join dir
          <$> filter (λ item, endsWith item (str ".json")
                              && isFile w (path_join dir item)) items.
Proof.
  unfold enumMessageJSONs, readdirAsync.
  destruct (w !! dir) as [[items|]|]; [|done..]. cbn [mbind outcome_bind].
  intros Hloop. exists items. split; [done|].
  pose proof (enumMessageJSONs_loop_inv _ _ _ _ _ Hloop) as Hitems.
  split; [done|]. rewrite (enumMessageJSONs_loop _ _ _ _ Hitems) in Hloop.
  by injection Hloop as <-.
Qed.

(** The paths that a listing gives are files. *)
Lemma enumMessageJSONs_files w dir filePaths :
  enumMessageJSONs w dir = Ok filePaths →
  Forall (λ filePath, isFile w filePath = true) filePaths.
Proof.
  intros (items & _ & _ & ->)%enumMessageJSONs_inv.
  apply Forall_fmap, Forall_forall. intros item [Hitem _]%list_elem_of_filter.
  cbn beta. by apply andb_prop_elim in Hitem as [_ ?%Is_true_eq_true].
Qed.

Lemma filter_Forall_iff {A} (P1 P2 : A → Prop)
    `{!∀ x, Decision (P1 x), !∀ x, Decision (P2 x)} (l : list A) :
  Forall (λ x, P1 x ↔ P2 x) l → filter P1 l = filter P2 l.
Proof.
  induction 1 as [|x l Hx _ IH]; [done|]. rewrite !filter_cons, IH.
  destruct (decide (P1 x)), (decide (P2 x)); naive_solver.
Qed.

(** Making the output directory of a channel does not change the listing
    of the channel directory: the new directory is not a file. *)
Lemma enumMessageJSONs_addEntry w src dest filePaths :
  enumMessageJSONs w src = Ok filePaths →
  w !! dest = None →
  (parentDir dest = Some src → path_join src (lastComponent dest) = dest) →
  enumMessageJSONs (addEntry w dest (Directory [])) src = Ok filePaths.
Proof.
  intros (items & Hsrc & Hitems & ->)%enumMessageJSONs_inv Hdest Hjoin.
  set (w1 := addEntry w dest (Directory [])).
  assert (∀ q, is_Some (w !! q) → alike (w !! q) (w1 !! q)) as Hold.
  { intros q [n Hq]. apply addEntry_alike. intros ->. congruence. }
  assert (src ≠ dest) as Hne by congruence.
  assert (∃ items1, w1 !! src = Some (Directory items1)
            ∧ (items1 = items
               ∨ (items1 = items ++ [lastComponent dest]
                  ∧ parentDir dest = Some src))) as (items1 & Hsrc1 & Hitems1).
  { unfold w1, addEntry. rewrite lookup_insert_ne by done.
    destruct (parentDir dest) as [d|] eqn:Hd; [|eauto].
    destruct (decide (d = src)) as [->|Hd'].
    - rewrite Hsrc. case_decide; [eauto|]. rewrite lookup_insert_eq. eauto.
    - destruct (w !! d) as [[]|]; [case_decide|..];
        rewrite ?lookup_insert_ne by done; eauto. }
  assert (Forall (λ item,
            endsWith item (str ".json") && isFile w1 (path_join src item)
            ↔ endsWith item (str ".json") && isFile w (path_join src item))
            items) as Hsame.
  { eapply Forall_impl; [exact Hitems|]. intros item Hitem. cbn beta in *.
    destruct (endsWith item (str ".json")); [|done]. cbn [andb].
    by rewrite (isFile_alike _ _ _ (Hold _ (Hitem eq_refl))). }
  assert (Forall (λ item, endsWith item (str ".json") = true →
                          is_Some (w1 !! path_join src item)) items) as Hitems'.
  { eapply Forall_impl; [exact Hitems|]. intros item Hitem Hjson. cbn beta in *.
    specialize (Hold _ (Hitem Hjson)). destruct (Hitem Hjson) as [n Hn].
    rewrite Hn in Hold. destruct (w1 !! path_join src item); [done|].
    by destruct n. }
  unfold enumMessageJSONs, readdirAsync. rewrite Hsrc1. cbn [mbind outcome_bind].
  destruct Hitems1 as [->|[-> Hparent]].
  - rewrite enumMessageJSONs_loop by done. cbn [app].
    by rewrite (filter_Forall_iff _ _ _ Hsame).
  - specialize (Hjoin Hparent).
    assert (w1 !! dest = Some (Directory [])) as Hdest1
      by apply addEntry_lookup.
    rewrite enumMessageJSONs_loop.
    + cbn [app]. rewrite filter_app, (filter_Forall_iff _ _ _ Hsame).
      rewrite filter_cons_False, filter_nil, app_nil_r; [done|].
      rewrite Hjoin. unfold isFile. rewrite Hdest1.
      rewrite andb_false_r. by intros [].
    + apply Forall_app. split; [done|]. repeat constructor.
      intros _. rewrite Hjoin. by eexists.
Qed.

(** What [mkdirUnlessExists] leaves, when the output directory can be
    written to: the directory, a channel directory that lists the same
    files, and the files as they were. *)
Lemma mkdirUnlessExists_canWrite w src dest filePaths paths :
  canWrite w src dest filePaths paths →
  enumMessageJSONs w src = Ok filePaths →
  let made := if existsSync w dest then [] else [Mkdir dest] in
  mkdirUnlessExists w dest = mkIO made (Ok tt)
  ∧ isDirectory (after w made) dest = true
  ∧ enumMessageJSONs (after w made) src = Ok filePaths
  ∧ (∀ filePath, filePath ∈ filePaths →
       alike (w !! filePath) (after w made !! filePath))
  ∧ Forall (λ p, parentDir p = Some dest
                 ∧ isDirectory (after w made) p = false
                 ∧ p ∉ filePaths) paths.
Proof.
  intros (Hjoin & Hdest & Hpaths) Hlist. cbn zeta.
  rewrite mkdirUnlessExists_eq. unfold existsSync.
  destruct (w !! dest) as [[items|x]|] eqn:Hd; [|done|].
  - rewrite bool_decide_eq_true_2 by by eexists. cbn [after foldl].
    split_and!; [done|by unfold isDirectory; rewrite Hd|done| |done].
    intros. apply alike_refl.
  - rewrite bool_decide_eq_false_2 by (by intros []). rewrite Hdest.
    cbn [after foldl perform].
    split_and!; [done| | | |].
    + unfold isDirectory. by rewrite addEntry_lookup.
    + by apply enumMessageJSONs_addEntry.
    + intros filePath Hin. apply addEntry_alike. intros ->.
      apply enumMessageJSONs_files in Hlist.
      rewrite Forall_forall in Hlist. specialize (Hlist _ Hin).
      unfold isFile in Hlist. by rewrite Hd in Hlist.
    + eapply Forall_impl; [exact Hpaths|]. intros p (Hp & Hdir & Hnot).
      split_and!; [done| |done]. rewrite <-Hdir. symmetry.
      apply isDirectory_alike, addEntry_alike. by apply parentDir_ne.
Qed.

End ListingFacts.

(** ** The two conversions of a channel *)

Section Conversions.
Context `{Imports}.
Context (src dest : jsstring).
Context (channels : gmap jsstring Channel) (users : gmap jsstring User).
Context (ignore : IgnoreMessage).
Implicit Types (w : world).

Lemma IO_bind_unfold {A B} (f : A → IO B) (m : IO A) :
  m ≫= f = match result m with
           | Ok a => mkIO (trace m ++ trace (f a)) (result (f a))
           | Throw e => mkIO (trace m) (Throw e)
           end.
Proof. done. Qed.

Lemma IO_eta {A} (m : IO A) : mkIO (trace m) (result m) = m.
Proof. by destruct m. Qed.

Lemma Async_bind_unfold {A B} (f : A → Async B) (m : Async A) w :
  (m ≫= f) w
  = match result (m w) with
    | Ok a =>
        mkIO (trace (m w) ++ trace (f a (after w (trace (m w)))))
             (result (f a (after w (trace (m w)))))
    | Throw e => mkIO (trace (m w)) (Throw e)
    end.
Proof. done. Qed.

Lemma async_run {A} (run : world → IO A) w : async run w = run w.
Proof. done. Qed.

Lemma foldM_Async_cons {A B} (body : B → A → Async B) b x xs w :
  foldM body b (x :: xs) w = (body b x ≫= λ b', foldM body b' xs) w.
Proof. done. Qed.

Lemma indexMd_foldl logNames indexMd :
  foldl (λ indexMd logName, indexMd ++ indexLine logName) indexMd logNames
  = indexMd ++ mjoin (indexLine <$> logNames).
Proof.
  revert indexMd; induction logNames as [|n logNames IH]; intros indexMd; simpl.
  - by rewrite app_nil_r.
  - by rewrite IH, <-app_assoc.
Qed.

(** The index is written exactly when a line went into it. *)
Lemma writeIndex_eq w logNames :
  writeIndex w src dest (mjoin (indexLine <$> logNames))
  = match logNames with
    | [] => mkIO [] (Ok tt)
    | _ =>
        writeFileASync w (path_join dest (str "index.md"))
          (str "# " ++ path_basename src None ++ nl ++ nl
           ++ mjoin (indexLine <$> logNames))
    end.
Proof.
  unfold writeIndex. destruct logNames as [|n logNames]; [done|].
  rewrite bool_decide_eq_false_2; [done|].
  rewrite fmap_cons. unfold indexLine at 1. by vm_compute.
Qed.

Lemma writeIndex_Ok w logNames :
  (logNames ≠ [] →
     parentDir (path_join dest (str "index.md")) = Some dest
     ∧ isDirectory w dest = true
     ∧ isDirectory w (path_join dest (str "index.md")) = false) →
  writeIndex w src dest (mjoin (indexLine <$> logNames))
  = mkIO match logNames with [] => [] | _ => [indexOf src dest logNames] end
         (Ok tt).
Proof.
  intros Hindex. rewrite writeIndex_eq. destruct logNames as [|n logNames]; [done|].
  destruct Hindex as (Hparent & Hdest & Hdir); [done|].
  by rewrite (writeFileASync_Ok _ _ _ _ Hparent Hdest Hdir).
Qed.

(** The body of the loop of the conversion by source file, by what reading
    the file gives. *)
Lemma convertFile_eq w indexMd filePath :
  convertFile w dest channels users ignore indexMd filePath
  = match readMessages w filePath with
    | Throw e => mkIO [] (Throw e)
    | Ok all =>
        match kept ignore all with
        | [] => mkIO [] (Ok indexMd)
        | messages =>
            let logName := path_basename filePath (Some (str ".json")) in
            writeFileASync w (path_join dest (logName ++ str ".md"))
              (str "# " ++ logName ++ nl ++ nl
               ++ messagesToMarkdown messages channels users);;
            mret (indexMd ++ indexLine logName)
        end
    end.
Proof.
  unfold convertFile, kept. destruct (readMessages w filePath) as [all|e]; [|done].
  rewrite IO_bind_unfold. cbn [await result trace].
  destruct (filter _ all) as [|m ms]; [done|]. apply IO_eta.
Qed.

Lemma groupsByFile_cons (file : jsstring * list Message) files :
  groupsByFile ignore (file :: files)
  = match kept ignore file.2 with
    | [] => groupsByFile ignore files
    | messages =>
        (path_basename file.1 (Some (str ".json")), messages)
        :: groupsByFile ignore files
    end.
Proof.
  unfold groupsByFile. cbn [omap list_omap].
  by destruct (kept ignore file.2).
Qed.

Lemma collectLogs_eq w logs filePath :
  collectLogs w ignore logs filePath
  = match readMessages w filePath with
    | Ok messages => mkIO [] (Ok (foldl (pushLog ignore) logs messages))
    | Throw e => mkIO [] (Throw e)
    end.
Proof. unfold collectLogs. by destruct (readMessages w filePath). Qed.

Lemma writeLog_eq w logs logNames logName messages :
  jsmap_get logs logName = Some messages →
  writeLog w dest channels users logs logNames logName
  = (writeFileASync w (path_join dest (logName ++ str ".md"))
       (str "# " ++ logName ++ nl ++ nl
        ++ messagesToMarkdown messages channels users);;
     mret (logNames ++ [logName])).
Proof.
  intros Hget. unfold writeLog. rewrite Hget. cbn [from_option].
  rewrite (IO_bind_unfold _ (await _)). cbn [await result trace app].
  apply IO_eta.
Qed.

(** *** When the files can be read and the documents written *)

(** The loop of the conversion by source file, from a tree in which the
    files to read are as in [w0]. *)
Lemma perFile_loop_run w0 w filePaths indexMd :
  (∀ filePath, filePath ∈ filePaths → alike (w0 !! filePath) (w !! filePath)) →
  Forall (λ filePath, ∃ messages, readMessages w0 filePath = Ok messages)
    filePaths →
  isDirectory w dest = true →
  Forall (λ p, parentDir p = Some dest ∧ isDirectory w p = false ∧ p ∉ filePaths)
    (documentPaths dest
       (groupsByFile ignore
          ((λ filePath, (filePath, messagesOf w0 filePath)) <$> filePaths))) →
  let groups :=
    groupsByFile ignore
      ((λ filePath, (filePath, messagesOf w0 filePath)) <$> filePaths) in
  foldM (λ indexMd filePath,
           async (λ w, convertFile w dest channels users ignore indexMd filePath))
    indexMd filePaths w
  = mkIO (documentOf dest channels users <$> groups)
         (Ok (indexMd ++ mjoin (indexLine <$> groups.*1))).
Proof.
  revert w indexMd.
  induction filePaths as [|filePath filePaths IH];
    intros w indexMd Halike Hread Hdest Hpaths; cbn zeta.
  - cbn. by rewrite app_nil_r.
  - apply Forall_cons in Hread as [[all Hall] Hread].
    rewrite foldM_Async_cons, Async_bind_unfold, async_run, convertFile_eq.
    rewrite <-(readMessages_alike _ _ _ (Halike filePath ltac:(left))), Hall.
    assert (messagesOf w0 filePath = all) as Hof
      by (unfold messagesOf; by rewrite Hall).
    revert Hpaths. rewrite fmap_cons, groupsByFile_cons. cbn [fst snd].
    rewrite Hof.
    destruct (kept ignore all) as [|message messages] eqn:Hkept.
    + intros Hpaths. cbn [result trace after foldl app]. rewrite IO_eta.
      apply IH; [|done..|].
      * intros p Hp. apply Halike. by right.
      * eapply Forall_impl; [exact Hpaths|].
        intros p (? & ? & Hp). split_and!; [done..|].
        intros Hin. apply Hp. by right.
    + unfold documentPaths. rewrite fmap_cons. cbn [fst snd].
      intros [(Hparent & Hdir & Hnot) Hpaths]%Forall_cons.
      cbn zeta.
      rewrite (writeFileASync_Ok _ _ _ _ Hparent Hdest Hdir).
      rewrite IO_bind_unfold. cbn [result trace app mret IO_ret].
      rewrite after_cons. cbn [after foldl].
      rewrite IH.
      * cbn [result trace]. rewrite !fmap_cons. cbn [fst mjoin list_join].
        by rewrite <-!app_assoc.
      * intros p Hp. eapply alike_trans; [apply Halike; by right|].
        apply perform_alike. cbn [target]. intros [= Heq].
        apply Hnot. rewrite Heq. by right.
      * done.
      * by rewrite write_isDirectory.
      * eapply Forall_impl; [exact Hpaths|].
        intros p (? & ? & Hp). split_and!; [done| |].
        -- by rewrite write_isDirectory.
        -- intros Hin. apply Hp. by right.
Qed.

(** The first loop of the conversion by day: nothing is written, and the
    messages of the files go through [pushLog], in order. *)
Lemma collect_loop_run w filePaths mss logs :
  Forall2 (λ filePath messages, readMessages w filePath = Ok messages)
    filePaths mss →
  foldM (λ logs filePath, async (λ w, collectLogs w ignore logs filePath))
    logs filePaths w
  = mkIO [] (Ok (foldl (pushLog ignore) logs (mjoin mss))).
Proof.
  intros Hmss; revert logs.
  induction Hmss as [|p messages ps mss Hread _ IH]; intros logs; [done|].
  rewrite foldM_Async_cons, Async_bind_unfold, async_run, collectLogs_eq, Hread.
  cbn [result trace after foldl app].
  rewrite IH. cbn [result trace mjoin list_join]. by rewrite foldl_app.
Qed.

(** Its second loop: the document of each day is written, in the order of
    the days in [logs]. *)
Lemma write_loop_run w logs (entries : list (jsstring * list Message)) logNames :
  Forall (λ entry, jsmap_get logs entry.1 = Some entry.2) entries →
  isDirectory w dest = true →
  Forall (λ p, parentDir p = Some dest ∧ isDirectory w p = false)
    (documentPaths dest entries) →
  foldM (λ logNames logName,
           async (λ w, writeLog w dest channels users logs logNames logName))
    logNames entries.*1 w
  = mkIO (documentOf dest channels users <$> entries)
         (Ok (logNames ++ entries.*1)).
Proof.
  intros Hget; revert w logNames.
  induction Hget as [|[logName messages] entries Hget _ IH];
    intros w logNames Hdest Hpaths.
  - cbn. by rewrite app_nil_r.
  - unfold documentPaths in Hpaths. rewrite fmap_cons in Hpaths.
    apply Forall_cons in Hpaths as [(Hparent & Hdir) Hpaths]. cbn [fst snd] in *.
    rewrite !fmap_cons. cbn [fst].
    rewrite foldM_Async_cons, Async_bind_unfold, async_run.
    rewrite (writeLog_eq _ _ _ _ _ Hget).
    rewrite (writeFileASync_Ok _ _ _ _ Hparent Hdest Hdir).
    rewrite IO_bind_unfold. cbn [result trace app mret IO_ret].
    rewrite after_cons. cbn [after foldl].
    rewrite IH.
    + cbn [result trace]. by rewrite <-app_assoc.
    + by rewrite write_isDirectory.
    + eapply Forall_impl; [exact Hpaths|]. intros p (? & ?).
      split; [done|]. by rewrite write_isDirectory.
Qed.

Lemma document_isDirectory w (group : jsstring * list Message) q :
  isDirectory w (path_join dest (group.1 ++ str ".md")) = false →
  isDirectory (perform w (documentOf dest channels users group)) q
  = isDirectory w q.
Proof. apply write_isDirectory. Qed.

Lemma documents_isDirectory w (groups : list (jsstring * list Message)) q :
  Forall (λ p, isDirectory w p = false) (documentPaths dest groups) →
  isDirectory (after w (documentOf dest channels users <$> groups)) q
  = isDirectory w q.
Proof.
  revert w. induction groups as [|group groups IH]; intros w Hpaths; [done|].
  unfold documentPaths in Hpaths. rewrite fmap_cons in Hpaths.
  apply Forall_cons in Hpaths as [Hp Hpaths].
  rewrite fmap_cons, after_cons.
  rewrite IH; [by apply document_isDirectory|].
  eapply Forall_impl; [exact Hpaths|]. intros p Hdir. cbn beta.
  by rewrite document_isDirectory.
Qed.

Lemma readable_messagesOf w (filePaths : list jsstring) :
  Forall (λ filePath, ∃ messages, readMessages w filePath = Ok messages) filePaths →
  Forall2 (λ filePath messages, readMessages w filePath = Ok messages)
    filePaths (messagesOf w <$> filePaths).
Proof.
  induction 1 as [|p ps [messages Hp] _ IH]; [constructor|].
  rewrite fmap_cons. constructor; [|done]. unfold messagesOf. by rewrite Hp.
Qed.

Lemma zip_messagesOf w (filePaths : list jsstring) :
  zip filePaths (messagesOf w <$> filePaths)
  = (λ filePath, (filePath, messagesOf w filePath)) <$> filePaths.
Proof. by rewrite zip_with_fmap_r, zip_with_diag. Qed.

Lemma targets_documentPaths (P : jsstring → Prop)
    (groups : list (jsstring * list Message)) :
  Forall P (targets dest groups) →
  Forall P (documentPaths dest groups)
  ∧ (groups ≠ [] → P (path_join dest (str "index.md"))).
Proof.
  unfold targets. destruct groups as [|group groups];
    [intros _; split; [constructor|done]|].
  intros [Hdocs Hindex]%Forall_app. split; [done|]. intros _.
  by apply Forall_inv in Hindex.
Qed.

(** When the listed files of the channel can be read and the files of the
    groups written, the conversion by source file returns, and it has
    written the documents of [fileGroups] and linked them in their order. *)
Lemma convertChannelMessages_fileGroups w filePaths :
  enumMessageJSONs w src = Ok filePaths →
  Forall (λ filePath, ∃ messages, readMessages w filePath = Ok messages) filePaths →
  canWrite w src dest filePaths (targets dest (fileGroups w ignore filePaths)) →
  convertChannelMessages w src dest channels users ignore
  = mkIO (conversionTrace w src dest channels users
            (fileGroups w ignore filePaths) (fileGroups w ignore filePaths).*1)
         (Ok tt).
Proof.
  intros Hlist Hread Hcan.
  destruct (mkdirUnlessExists_canWrite _ _ _ _ _ Hcan Hlist)
    as (Hmk & Hdest & Hlist1 & Halike & Hpaths).
  apply targets_documentPaths in Hpaths as [Hdocs Hindex].
  set (made := if existsSync w dest then [] else [Mkdir dest]) in *.
  assert (∀ p, p ∈ array_sort descending filePaths ↔ p ∈ filePaths) as Hsorted.
  { intros p. by rewrite (array_sort_perm descending filePaths). }
  unfold convertChannelMessages.
  rewrite Async_bind_unfold, async_run, Hmk. cbn [result trace].
  rewrite Async_bind_unfold, async_run, Hlist1.
  cbn [await result trace app after foldl].
  rewrite Async_bind_unfold.
  rewrite (perFile_loop_run w (after w made) (array_sort descending filePaths) []).
  - cbn [result trace app]. fold (fileGroups w ignore filePaths).
    rewrite async_run, writeIndex_Ok; [done|].
    intros Hne. destruct Hindex as (Hparent & Hdir & _).
    { intros Hnil. apply Hne. by rewrite Hnil. }
    rewrite !documents_isDirectory; [done|..];
      (eapply Forall_impl; [exact Hdocs|]; by intros p (_ & ? & _)).
  - intros p Hp. apply Halike. by apply Hsorted.
  - by rewrite (array_sort_perm descending filePaths).
  - done.
  - eapply Forall_impl; [exact Hdocs|]. intros p (? & ? & Hp).
    split_and!; [done..|]. by rewrite Hsorted.
Qed.

(** When the listed files of the channel can be read and the files of the
    groups written, the conversion by day returns, and it has written the
    documents of [dayGroups] and linked them in the descending order of
    their names. *)
Lemma convertChannelMessagesSameDay_dayGroups w filePaths :
  enumMessageJSONs w src = Ok filePaths →
  Forall (λ filePath, ∃ messages, readMessages w filePath = Ok messages) filePaths →
  canWrite w src dest filePaths (targets dest (dayGroups w ignore filePaths)) →
  convertChannelMessagesSameDay w src dest channels users ignore
  = mkIO (conversionTrace w src dest channels users
            (dayGroups w ignore filePaths)
            (array_sort descending (dayGroups w ignore filePaths).*1))
         (Ok tt).
Proof.
  intros Hlist Hread Hcan.
  destruct (mkdirUnlessExists_canWrite _ _ _ _ _ Hcan Hlist)
    as (Hmk & Hdest & Hlist1 & Halike & Hpaths).
  apply targets_documentPaths in Hpaths as [Hdocs Hindex].
  set (made := if existsSync w dest then [] else [Mkdir dest]) in *.
  assert (Forall2 (λ filePath messages,
                     readMessages (after w made) filePath = Ok messages)
            filePaths (messagesOf w <$> filePaths)) as Hread1.
  { apply readable_messagesOf in Hread. clear -Hread Halike.
    induction Hread as [|p ms ps mss Hp _ IH]; constructor.
    - rewrite <-Hp. symmetry. apply readMessages_alike, Halike. by left.
    - apply IH. intros q Hq. apply Halike. by right. }
  unfold convertChannelMessagesSameDay.
  rewrite Async_bind_unfold, async_run, Hmk. cbn [result trace].
  rewrite Async_bind_unfold, async_run, Hlist1.
  cbn [await result trace app after foldl].
  rewrite Async_bind_unfold, (collect_loop_run _ _ _ _ Hread1).
  cbn [result trace app after foldl].
  fold (groupsByDay ignore (mjoin (messagesOf w <$> filePaths))).
  fold (dayGroups w ignore filePaths).
  destruct (groupsByDay_grouped ignore (mjoin (messagesOf w <$> filePaths)))
    as (Hnd & _ & _).
  fold (dayGroups w ignore filePaths) in Hnd.
  unfold jsmap_keys. rewrite Async_bind_unfold, write_loop_run.
  - cbn [result trace app]. rewrite indexMd_foldl. cbn [app].
    rewrite async_run, writeIndex_Ok; [done|].
    intros Hne. destruct Hindex as (Hparent & Hdir & _).
    { intros Hnil. apply Hne. by rewrite Hnil. }
    rewrite !documents_isDirectory; [done|..];
      (eapply Forall_impl; [exact Hdocs|]; by intros p (_ & ? & _)).
  - apply Forall_forall. intros [logName messages] Hin. by apply jsmap_get_elem_of.
  - done.
  - eapply Forall_impl; [exact Hdocs|]. by intros p (? & ? & _).
Qed.

(** *** Whatever the tree is *)

Lemma mkdirUnlessExists_made w :
  (∃ made, mkdirUnlessExists w dest = mkIO made (Ok tt)
     ∧ (made = [] ∨ made = [Mkdir dest]))
  ∨ ∃ e, mkdirUnlessExists w dest = mkIO [] (Throw e).
Proof.
  destruct (mkdirUnlessExists_cases w dest) as [[Hmk _]|[[Hmk _]|[e Hmk]]];
    eauto.
Qed.

(** The loop of the conversion by source file writes the documents of some
    of the files, in their order, each with a message; when it returns,
    [indexMd] has got a line for each of them. *)
Lemma perFile_loop_trace filePaths indexMd w :
  ∃ files groups,
    files `sublist_of` filePaths
    ∧ groups.*1
      = (λ filePath, path_basename filePath (Some (str ".json"))) <$> files
    ∧ Forall (λ group : jsstring * list Message, group.2 ≠ []) groups
    ∧ trace (foldM (λ indexMd filePath,
               async (λ w, convertFile w dest channels users ignore indexMd filePath))
               indexMd filePaths w)
      = documentOf dest channels users <$> groups
    ∧ ∀ indexMd',
        result (foldM (λ indexMd filePath,
                  async (λ w, convertFile w dest channels users ignore indexMd filePath))
                  indexMd filePaths w)
        = Ok indexMd' →
        indexMd' = indexMd ++ mjoin (indexLine <$> groups.*1).
Proof.
  revert indexMd w. induction filePaths as [|filePath filePaths IH];
    intros indexMd w.
  - exists [], []. split_and!; [done..|constructor|done|].
    intros indexMd' [= <-]. by rewrite app_nil_r.
  - rewrite foldM_Async_cons, Async_bind_unfold, async_run, convertFile_eq.
    destruct (readMessages w filePath) as [all|e]; cbn [result trace].
    2:{ exists [], []. split_and!; [apply sublist_nil_l|done|constructor|done..]. }
    destruct (kept ignore all) as [|message messages]; cbn [result trace].
    + cbn [after foldl app].
      destruct (IH indexMd w) as (files & groups & Hsub & Hnames & Hne & Htr & Hres).
      exists files, groups. split_and!; [by apply sublist_cons|done..].
    + cbn zeta.
      destruct (writeFileASync_cases w
                  (path_join dest
                     (path_basename filePath (Some (str ".json")) ++ str ".md"))
                  (str "# " ++ path_basename filePath (Some (str ".json"))
                   ++ nl ++ nl
                   ++ messagesToMarkdown (message :: messages) channels users))
        as [Hwrite|[e Hwrite]];
        rewrite Hwrite, IO_bind_unfold; cbn [result trace app mret IO_ret].
      2:{ exists [], [].
          split_and!; [apply sublist_nil_l|done|constructor|done..]. }
      match goal with
      | |- context [foldM _ ?i filePaths ?w'] =>
          destruct (IH i w') as (files & groups & Hsub & Hnames & Hne & Htr & Hres)
      end.
      exists (filePath :: files),
        ((path_basename filePath (Some (str ".json")), message :: messages)
         :: groups).
      split_and!.
      * by apply sublist_skip.
      * rewrite !fmap_cons. by f_equal.
      * by constructor.
      * by rewrite Htr.
      * intros indexMd' Hloop. rewrite (Hres _ Hloop), !fmap_cons.
        cbn [fst mjoin list_join]. by rewrite <-!app_assoc.
Qed.

(** The first loop of the conversion by day writes nothing, also when it
    throws. *)
Lemma collect_loop_trace w filePaths logs :
  trace (foldM (λ logs filePath, async (λ w, collectLogs w ignore logs filePath))
           logs filePaths w) = []
  ∧ ∀ logs',
      result (foldM (λ logs filePath,
                async (λ w, collectLogs w ignore logs filePath))
                logs filePaths w) = Ok logs' →
      ∃ all, logs' = foldl (pushLog ignore) logs all.
Proof.
  revert logs; induction filePaths as [|p ps IH]; intros logs.
  - split; [done|]. intros logs' [= <-]. by exists [].
  - rewrite foldM_Async_cons, Async_bind_unfold, async_run, collectLogs_eq.
    destruct (readMessages w p) as [messages|e];
      cbn [result trace after foldl app]; [|done].
    destruct (IH (foldl (pushLog ignore) logs messages)) as [Htr Hres].
    split; [done|]. intros logs' Hloop. destruct (Hres _ Hloop) as [all ->].
    exists (messages ++ all). by rewrite foldl_app.
Qed.

(** Its second loop writes the documents of the first days of [logs]: of
    all of them, when it returns. *)
Lemma write_loop_trace w logs (entries : list (jsstring * list Message)) logNames :
  Forall (λ entry, jsmap_get logs entry.1 = Some entry.2) entries →
  ∃ done,
    done `prefix_of` entries
    ∧ trace (foldM (λ logNames logName,
               async (λ w, writeLog w dest channels users logs logNames logName))
               logNames entries.*1 w)
      = documentOf dest channels users <$> done
    ∧ ∀ logNames',
        result (foldM (λ logNames logName,
                  async (λ w, writeLog w dest channels users logs logNames logName))
                  logNames entries.*1 w) = Ok logNames' →
        done = entries ∧ logNames' = logNames ++ entries.*1.
Proof.
  intros Hget; revert w logNames.
  induction Hget as [|[logName messages] entries Hget _ IH]; intros w logNames.
  - exists []. split_and!; [done..|]. intros logNames' [= <-].
    by rewrite app_nil_r.
  - cbn [fst snd] in *. rewrite !fmap_cons. cbn [fst].
    rewrite foldM_Async_cons, Async_bind_unfold, async_run.
    rewrite (writeLog_eq _ _ _ _ _ Hget).
    destruct (writeFileASync_cases w (path_join dest (logName ++ str ".md"))
                (str "# " ++ logName ++ nl ++ nl
                 ++ messagesToMarkdown messages channels users))
      as [Hwrite|[e Hwrite]];
      rewrite Hwrite, IO_bind_unfold; cbn [result trace app mret IO_ret].
    2:{ exists []. split_and!; [apply prefix_nil|done..]. }
    match goal with
    | |- context [foldM _ ?names entries.*1 ?w'] =>
        destruct (IH w' names) as (done & Hprefix & Htr & Hres)
    end.
    exists ((logName, messages) :: done). split_and!.
    + by apply prefix_cons.
    + by rewrite Htr.
    + intros logNames' Hloop. destruct (Hres _ Hloop) as [-> ->].
      split; [done|]. by rewrite <-app_assoc.
Qed.

(** What the conversion by source file does, whether it returns or throws:
    it makes the output directory if it is not there, writes documents,
    each with a message, and then the index, which links the documents in
    their order. When it returns, the index is written if a document is,
    and the documents are those of listed files, in the descending order of
    their paths. *)
Lemma convertChannelMessages_trace w :
  ∃ made groups index,
    trace (convertChannelMessages w src dest channels users ignore)
    = made ++ (documentOf dest channels users <$> groups) ++ index
    ∧ (made = [] ∨ made = [Mkdir dest])
    ∧ Forall (λ group : jsstring * list Message, group.2 ≠ []) groups
    ∧ (index = [] ∨ (groups ≠ [] ∧ index = [indexOf src dest groups.*1]))
    ∧ (result (convertChannelMessages w src dest channels users ignore) = Ok tt →
         index = match groups with
                 | [] => []
                 | _ => [indexOf src dest groups.*1]
                 end
         ∧ ∃ filePaths files,
             enumMessageJSONs (after w made) src = Ok filePaths
             ∧ files `sublist_of` array_sort descending filePaths
             ∧ groups.*1
               = (λ filePath, path_basename filePath (Some (str ".json")))
                   <$> files).
Proof.
  unfold convertChannelMessages. rewrite Async_bind_unfold, async_run.
  destruct (mkdirUnlessExists_made w) as [(made & -> & Hmade)|[e ->]];
    cbn [result trace].
  2:{ exists [], [], []. split_and!; [done|by left|constructor|by left|done]. }
  rewrite Async_bind_unfold, async_run.
  destruct (enumMessageJSONs (after w made) src) as [filePaths|e] eqn:Hlist;
    cbn [await result trace app after foldl].
  2:{ exists made, [], []. split_and!; [done..|constructor|by left|done]. }
  rewrite Async_bind_unfold.
  destruct (perFile_loop_trace (array_sort descending filePaths) [] (after w made))
    as (files & groups & Hsub & Hnames & Hne & Htr & Hres).
  rewrite Htr.
  destruct (result (foldM (M := Async) _ [] (array_sort descending filePaths) (after w made)))
    as [indexMd|e]; cbn [result trace].
  2:{ exists made, groups, []. rewrite app_nil_r.
      split_and!; [done..|by left|done]. }
  rewrite (Hres _ eq_refl). cbn [app]. rewrite async_run, writeIndex_eq.
  destruct groups as [|group groups].
  { exists made, [], []. cbn [fmap list_fmap result trace app].
    split_and!; [done..|by left|].
    intros _. split; [done|]. by exists filePaths, files. }
  rewrite (fmap_cons fst).
  match goal with
  | |- context [writeFileASync ?w' ?p ?text] =>
      destruct (writeFileASync_cases w' p text) as [Hwrite|[e Hwrite]];
        rewrite Hwrite; cbn [result trace]
  end.
  - exists made, (group :: groups), [indexOf src dest (group :: groups).*1].
    split_and!; [done..|by right|].
    intros _. split; [done|]. by exists filePaths, files.
  - exists made, (group :: groups), []. rewrite app_nil_r.
    split_and!; [done..|by left|done].
Qed.

(** What the conversion by day does, whether it returns or throws: it
    makes the output directory if it is not there, writes the documents of
    days, each with a message, and then the index, which links the
    documents in the descending order of their names. When it returns, the
    index is written if a document is. *)
Lemma convertChannelMessagesSameDay_trace w :
  ∃ made groups index,
    trace (convertChannelMessagesSameDay w src dest channels users ignore)
    = made ++ (documentOf dest channels users <$> groups) ++ index
    ∧ (made = [] ∨ made = [Mkdir dest])
    ∧ Forall (λ group : jsstring * list Message, group.2 ≠ []) groups
    ∧ NoDup groups.*1
    ∧ (index = []
       ∨ (groups ≠ []
          ∧ index = [indexOf src dest (array_sort descending groups.*1)]))
    ∧ (result (convertChannelMessagesSameDay w src dest channels users ignore)
       = Ok tt →
         index = match groups with
                 | [] => []
                 | _ => [indexOf src dest (array_sort descending groups.*1)]
                 end).
Proof.
  unfold convertChannelMessagesSameDay. rewrite Async_bind_unfold, async_run.
  destruct (mkdirUnlessExists_made w) as [(made & -> & Hmade)|[e ->]];
    cbn [result trace].
  2:{ exists [], [], [].
      split_and!; [done|by left|constructor|constructor|by left|done]. }
  rewrite Async_bind_unfold, async_run.
  destruct (enumMessageJSONs (after w made) src) as [filePaths|e];
    cbn [await result trace app after foldl].
  2:{ exists made, [], [].
      split_and!; [done..|constructor|constructor|by left|done]. }
  rewrite Async_bind_unfold.
  destruct (collect_loop_trace (after w made) filePaths []) as [-> Hlogs].
  destruct (result (foldM (M := Async) _ [] filePaths (after w made))) as [logs|e];
    cbn [result trace app after foldl].
  2:{ exists made, [], [].
      split_and!; [done..|constructor|constructor|by left|done]. }
  destruct (Hlogs _ eq_refl) as [all ->]. fold (groupsByDay ignore all).
  destruct (groupsByDay_grouped ignore all) as (Hnd & Hgroups & _).
  set (logs := groupsByDay ignore all) in *.
  assert (Forall (λ group : jsstring * list Message, group.2 ≠ []) logs) as Hne.
  { apply Forall_forall. intros [day group] Hin. by apply (Hgroups _ _ Hin). }
  rewrite Async_bind_unfold. unfold jsmap_keys.
  destruct (write_loop_trace (after w made) logs logs []) as (done & Hprefix & -> & Hres).
  { apply Forall_forall. intros [logName messages] Hin. by apply jsmap_get_elem_of. }
  assert (Forall (λ group : jsstring * list Message, group.2 ≠ []) done
          ∧ NoDup done.*1) as [Hne' Hnd'].
  { destruct Hprefix as [rest ->]. apply Forall_app in Hne as [? _].
    rewrite fmap_app in Hnd. by apply NoDup_app in Hnd as (? & _ & _). }
  destruct (result (foldM (M := Async) _ [] logs.*1 (after w made))) as [logNames|e];
    cbn [result trace].
  2:{ exists made, done, []. rewrite app_nil_r.
      split_and!; [done..|by left|done]. }
  destruct (Hres _ eq_refl) as [-> ->]. cbn [app].
  rewrite indexMd_foldl. cbn [app]. rewrite async_run, writeIndex_eq.
  assert (array_sort descending logs.*1 = [] → logs = []) as Hnil.
  { intros Hsorted. apply fmap_nil_inv with (f := fst).
    apply Permutation_nil_r. rewrite <-Hsorted. symmetry. apply array_sort_perm. }
  destruct (array_sort descending logs.*1) as [|name names] eqn:Hsorted.
  { rewrite (Hnil eq_refl). exists made, [], [].
    cbn [fmap list_fmap result trace app].
    split_and!; [done..|constructor|constructor|by left|done]. }
  destruct logs as [|group groups] eqn:Hlogs'.
  { by vm_compute in Hsorted. }
  match goal with
  | |- context [writeFileASync ?w' ?p ?text] =>
      destruct (writeFileASync_cases w' p text) as [Hwrite|[e Hwrite]];
        rewrite Hwrite; cbn [result trace]
  end.
  - exists made, (group :: groups), [indexOf src dest (name :: names)].
    rewrite Hsorted. split_and!; [done..|by right|done].
  - exists made, (group :: groups), []. rewrite app_nil_r.
    split_and!; [done..|by left|done].
Qed.

End Conversions.
(** ** The groups and the messages of the files *)

Section GroupFacts.
Context `{Imports}.
Context (w : world) (ignore : IgnoreMessage).

Lemma elem_of_kept message messages :
  message ∈ kept ignore messages ↔
  isIgnore message ignore = false ∧ message ∈ messages.
Proof.
  unfold kept.
  apply (list_elem_of_filter (λ message, isIgnore message ignore = false)).
Qed.

(** The messages read from a listed file are those paired with it. *)
Lemma read_elem_of_zip filePaths mss filePath messages :
  Forall2 (λ filePath messages, readMessages w filePath = Ok messages)
    filePaths mss →
  filePath ∈ filePaths → readMessages w filePath = Ok messages →
  (filePath, messages) ∈ zip filePaths mss.
Proof.
  intros Hmss [i Hi]%list_elem_of_lookup Hread.
  destruct (Forall2_lookup_l _ _ _ _ _ Hmss Hi) as (messages' & Hi' & Hread').
  assert (messages' = messages) as -> by congruence.
  apply list_elem_of_lookup. exists i. by apply lookup_zip_Some.
Qed.


(** Two elements of a list, one after the other. *)
Lemma elem_of_two_split {A} (l : list A) x y :
  x ∈ l → y ∈ l → x ≠ y →
  ∃ l1 l2 l3, l = l1 ++ x :: l2 ++ y :: l3 ∨ l = l1 ++ y :: l2 ++ x :: l3.
Proof.
  intros (l1 & l' & ->)%list_elem_of_split Hy Hne.
  apply elem_of_app in Hy as [Hy|Hy].
  - apply list_elem_of_split in Hy as (la & lb & ->).
    exists la, lb, l'. right. by rewrite <-app_assoc.
  - apply elem_of_cons in Hy as [->|Hy]; [done|].
    apply list_elem_of_split in Hy as (l2 & l3 & ->).
    exists l1, l2, l3. by left.
Qed.

(** Two files with kept messages give two groups, in the order of the
    files. *)
Lemma groupsByFile_two l1 l2 l3 f1 f2 ms1 ms2 mss :
  Forall2 (λ filePath messages, readMessages w filePath = Ok messages)
    (l1 ++ f1 :: l2 ++ f2 :: l3) mss →
  readMessages w f1 = Ok ms1 → readMessages w f2 = Ok ms2 →
  kept ignore ms1 ≠ [] → kept ignore ms2 ≠ [] →
  ∃ pre mid post,
    groupsByFile ignore (zip (l1 ++ f1 :: l2 ++ f2 :: l3) mss)
    = pre ++ (path_basename f1 (Some (str ".json")), kept ignore ms1)
        :: mid ++ (path_basename f2 (Some (str ".json")), kept ignore ms2) :: post.
Proof.
  intros Hmss Hr1 Hr2 Hk1 Hk2.
  apply Forall2_app_inv_l in Hmss as (k1 & k' & Hl1 & Hmss & ->).
  apply Forall2_cons_inv_l in Hmss as (ms1' & k'' & Hr1' & Hmss & ->).
  apply Forall2_app_inv_l in Hmss as (k2 & k' & Hl2 & Hmss & ->).
  apply Forall2_cons_inv_l in Hmss as (ms2' & k3 & Hr2' & Hl3 & ->).
  assert (ms1' = ms1) as -> by congruence.
  assert (ms2' = ms2) as -> by congruence.
  unfold groupsByFile.
  rewrite zip_with_app by by eapply Forall2_length.
  cbn [zip_with]. rewrite zip_with_app by by eapply Forall2_length.
  cbn [zip_with]. rewrite omap_app. cbn [omap list_omap snd fst].
  rewrite omap_app. cbn [omap list_omap snd fst].
  destruct (kept ignore ms1) as [|m1 r1]; [done|].
  destruct (kept ignore ms2) as [|m2 r2]; [done|].
  by eexists _, _, _.
Qed.



(** The same for the conversion by day, where the group is that of the day
    of the message. *)
Lemma groupsByDay_holds filePaths mss filePath messages message :
  Forall2 (λ filePath messages, readMessages w filePath = Ok messages)
    filePaths mss →
  filePath ∈ filePaths → readMessages w filePath = Ok messages →
  message ∈ messages → isIgnore message ignore = false →
  ∃ group, (utcDay message, group) ∈ groupsByDay ignore (mjoin mss)
    ∧ message ∈ group.
Proof.
  intros Hmss Hin Hread Hm Hk.
  destruct (groupsByDay_grouped ignore (mjoin mss)) as (_ & _ & Hall).
  apply Hall; [|done]. apply list_elem_of_join. exists messages. split; [done|].
  apply (read_elem_of_zip _ _ _ _ Hmss Hin) in Hread.
  by apply elem_of_zip_r in Hread.
Qed.


(** The facts above, for the groups of the two conversions. *)
Lemma fileGroups_zip filePaths :
  fileGroups w ignore filePaths
  = groupsByFile ignore
      (zip (array_sort descending filePaths)
           (messagesOf w <$> array_sort descending filePaths)).
Proof. unfold fileGroups. by rewrite zip_messagesOf. Qed.

Lemma readable_sorted (filePaths : list jsstring) :
  Forall (λ filePath, ∃ messages, readMessages w filePath = Ok messages) filePaths →
  Forall2 (λ filePath messages, readMessages w filePath = Ok messages)
    (array_sort descending filePaths)
    (messagesOf w <$> array_sort descending filePaths).
Proof.
  intros Hall. apply readable_messagesOf.
  by rewrite (array_sort_perm descending filePaths).
Qed.

Lemma elem_of_array_sort (filePaths : list jsstring) filePath :
  filePath ∈ array_sort descending filePaths ↔ filePath ∈ filePaths.
Proof. by rewrite (array_sort_perm descending filePaths). Qed.

(** The names of the groups by file are the names of the files that have a
    kept message, in the descending order of their paths. *)
Lemma fileGroups_names filePaths :
  (fileGroups w ignore filePaths).*1
  = (λ filePath, path_basename filePath (Some (str ".json")))
      <$> filter (λ filePath, length (kept ignore (messagesOf w filePath)) ≠ 0)
            (array_sort descending filePaths).
Proof.
  unfold fileGroups, groupsByFile.
  induction (array_sort descending filePaths) as [|p ps IH]; [done|].
  rewrite fmap_cons, filter_cons. cbn [omap list_omap fst snd].
  destruct (kept ignore (messagesOf w p)) as [|m ms] eqn:Hkept; cbn [length].
  - by rewrite decide_False by (by intros []).
  - rewrite decide_True by done. rewrite !fmap_cons. cbn [fst]. by rewrite IH.
Qed.



Lemma fileGroups_two filePaths f1 f2 ms1 ms2 :
  Forall (λ filePath, ∃ messages, readMessages w filePath = Ok messages) filePaths →
  f1 ∈ filePaths → f2 ∈ filePaths → f1 ≠ f2 →
  readMessages w f1 = Ok ms1 → readMessages w f2 = Ok ms2 →
  kept ignore ms1 ≠ [] → kept ignore ms2 ≠ [] →
  let g1 := (path_basename f1 (Some (str ".json")), kept ignore ms1) in
  let g2 := (path_basename f2 (Some (str ".json")), kept ignore ms2) in
  ∃ pre mid post,
    fileGroups w ignore filePaths = pre ++ g1 :: mid ++ g2 :: post
    ∨ fileGroups w ignore filePaths = pre ++ g2 :: mid ++ g1 :: post.
Proof.
  intros Hall Hf1%elem_of_array_sort Hf2%elem_of_array_sort Hne Hr1 Hr2 Hn1 Hn2.
  cbn zeta. rewrite fileGroups_zip.
  pose proof (readable_sorted _ Hall) as Hmss.
  destruct (elem_of_two_split _ _ _ Hf1 Hf2 Hne) as (l1 & l2 & l3 & [Hl|Hl]);
    rewrite Hl in Hmss |- *.
  - destruct (groupsByFile_two _ _ _ _ _ _ _ _ Hmss Hr1 Hr2 Hn1 Hn2)
      as (pre & mid & post & Hgroups).
    exists pre, mid, post. by left.
  - destruct (groupsByFile_two _ _ _ _ _ _ _ _ Hmss Hr2 Hr1 Hn2 Hn1)
      as (pre & mid & post & Hgroups).
    exists pre, mid, post. by right.
Qed.

Lemma dayGroups_holds filePaths filePath messages message :
  Forall (λ filePath, ∃ messages, readMessages w filePath = Ok messages) filePaths →
  filePath ∈ filePaths → readMessages w filePath = Ok messages →
  message ∈ messages → isIgnore message ignore = false →
  ∃ group, (utcDay message, group) ∈ dayGroups w ignore filePaths
    ∧ message ∈ group.
Proof.
  intros Hall. apply groupsByDay_holds. by apply readable_messagesOf.
Qed.


(** A day has one group. *)
Lemma dayGroups_day filePaths day group group' :
  (day, group) ∈ dayGroups w ignore filePaths →
  (day, group') ∈ dayGroups w ignore filePaths →
  group = group'.
Proof.
  destruct (groupsByDay_grouped ignore (mjoin (messagesOf w <$> filePaths)))
    as (Hnd & _ & _).
  intros Hg Hg'. apply (jsmap_get_elem_of _ _ _ Hnd) in Hg, Hg'.
  unfold dayGroups in *. congruence.
Qed.

Lemma dayGroups_NoDup filePaths : NoDup (dayGroups w ignore filePaths).*1.
Proof.
  by destruct (groupsByDay_grouped ignore (mjoin (messagesOf w <$> filePaths)))
    as (Hnd & _ & _).
Qed.

End GroupFacts.

(** ** The renderer *)

Section Renderer.
Context `{Imports}.

Lemma messagesToMarkdown_foldl messages channels users md :
  foldl (λ md message,
    let meta := getMetadata message users in
    let image :=
      if decide (imageURL meta = [])
      then []
      else str "![](" ++ imageURL meta ++ str ")" in
    let body := createBody message (username meta) channels users in
    md ++ str "|" ++ time meta ++ str "|" ++ image ++ str "|"
       ++ username meta ++ str "|" ++ body ++ str "|" ++ nl) md messages
  = md ++ mjoin (tableRow channels users <$> messages).
Proof.
  revert md; induction messages as [|message messages IH]; intros md.
  - cbn. by rewrite app_nil_r.
  - cbn [foldl]. rewrite IH, fmap_cons. cbn [mjoin list_join].
    rewrite <-(app_assoc md). f_equal. f_equal. unfold tableRow. cbn zeta.
    destruct (decide (imageURL (getMetadata message users) = [])) as [->|Hne];
      [done|].
    by destruct (imageURL (getMetadata message users)).
Qed.

Lemma messagesToMarkdown_tableRows channels users messages :
  messagesToMarkdown messages channels users
  = mjoin (tableRow channels users <$> messages).
Proof. unfold messagesToMarkdown. by rewrite messagesToMarkdown_foldl. Qed.

(** C6: the renderer gives one row for each message, in the order of the
    messages; a row is [|time|icon|username|body|] ended by a line feed,
    where the icon is [![](url)] for a resolved image and empty otherwise;
    no message gives the empty string. *)
Theorem messagesToMarkdown_rows messages channels users :
  messagesToMarkdown messages channels users
  = mjoin (tableRow channels users <$> messages)
  ∧ length (tableRow channels users <$> messages) = length messages
  ∧ (∀ i message, messages !! i = Some message →
       (tableRow channels users <$> messages) !! i
       = Some (tableRow channels users message))
  ∧ (∀ message,
       let meta := getMetadata message users in
       tableRow channels users message
       = str "|" ++ time meta ++ str "|"
         ++ (if decide (imageURL meta = []) then []
             else str "![](" ++ imageURL meta ++ str ")")
         ++ str "|" ++ username meta ++ str "|"
         ++ createBody message (username meta) channels users ++ str "|" ++ nl)
  ∧ messagesToMarkdown [] channels users = [].
Proof.
  split_and!.
  - unfold messagesToMarkdown. by rewrite messagesToMarkdown_foldl.
  - apply length_fmap.
  - intros i message Hi. by rewrite list_lookup_fmap, Hi.
  - intros message. unfold tableRow. cbn zeta.
    destruct (decide (imageURL (getMetadata message users) = [])) as [->|Hne];
      [done|].
    by destruct (imageURL (getMetadata message users)).
  - done.
Qed.

End Renderer.

(** ** The files that a run has written *)

Lemma writePaths_app tr1 tr2 :
  writePaths (tr1 ++ tr2) = writePaths tr1 ++ writePaths tr2.
Proof. apply omap_app. Qed.

Lemma elem_of_writePaths tr p :
  p ∈ writePaths tr ↔ ∃ data, WriteFile p data ∈ tr.
Proof.
  unfold writePaths. rewrite list_elem_of_omap. split.
  - intros ([q|q data|line] & Hin & [= <-]). by exists data.
  - intros [data Hin]. by exists (WriteFile p data).
Qed.

Lemma written_snoc tr e :
  written (tr ++ [e])
  = match e with
    | WriteFile p data => <[p := data]> (written tr)
    | _ => written tr
    end.
Proof. unfold written. by rewrite foldl_app. Qed.

(** When no path is written to twice, the files are the writes. *)
Lemma written_lookup tr p text :
  NoDup (writePaths tr) →
  written tr !! p = Some text ↔ WriteFile p text ∈ tr.
Proof.
  induction tr as [|e tr IH] using rev_ind; intros Hnd.
  - unfold written. cbn [foldl]. rewrite lookup_empty, elem_of_nil. naive_solver.
  - rewrite writePaths_app in Hnd. apply NoDup_app in Hnd as (Hnd & Hnot & _).
    rewrite written_snoc, elem_of_app, list_elem_of_singleton, <-(IH Hnd).
    destruct e as [q|q data|line]; [naive_solver| |naive_solver].
    destruct (decide (q = p)) as [->|Hne].
    + rewrite lookup_insert_eq. split; [intros [= ->]; by right|].
      intros [Hin|[= ->]]; [|done]. exfalso. apply (Hnot p).
      * apply elem_of_writePaths. exists text. by apply IH.
      * cbn. left.
    + rewrite lookup_insert_ne by done. naive_solver.
Qed.

(** ** The documents of a channel *)

Section Documents.
Context `{Imports}.
Context (w : world) (src dest : jsstring).
Context (channels : gmap jsstring Channel) (users : gmap jsstring User).


Lemma array_sort_notBelow l : StronglySorted notBelow (array_sort descending l).
Proof.
  induction (array_sort_descending_sorted l) as [|a l' Hl' IH Ha]; constructor;
    [done|].
  eapply Forall_impl; [exact Ha|]. intros b Hb. by apply keepsOrder_descending.
Qed.

Lemma StronglySorted_sublist {A} (R : relation A) (l k : list A) :
  l `sublist_of` k → StronglySorted R k → StronglySorted R l.
Proof.
  induction 1 as [|x l k Hsub IH|x l k Hsub IH];
    intros Hk; [constructor|..];
    apply StronglySorted_inv in Hk as [Hk Hx].
  - constructor; [by apply IH|]. apply Forall_forall. intros y Hy.
    rewrite Forall_forall in Hx. apply Hx. by eapply elem_of_sublist.
  - by apply IH.
Qed.

Lemma documentOf_text (group : jsstring * list Message) :
  documentOf dest channels users group
  = WriteFile (path_join dest (group.1 ++ str ".md"))
      (documentText channels users group).
Proof.
  unfold documentOf, documentText. by rewrite messagesToMarkdown_tableRows.
Qed.

Lemma writePaths_documents (groups : list (jsstring * list Message)) :
  writePaths (documentOf dest channels users <$> groups)
  = documentPaths dest groups.
Proof.
  unfold documentPaths. induction groups as [|group groups IH]; [done|].
  rewrite !fmap_cons. cbn [writePaths omap list_omap documentOf].
  by f_equal.
Qed.

Lemma writePaths_conversionTrace groups logNames :
  (logNames = [] ↔ groups = []) →
  writePaths (conversionTrace w src dest channels users groups logNames)
  = targets dest groups.
Proof.
  intros Hnil. unfold conversionTrace, targets.
  rewrite !writePaths_app, writePaths_documents.
  assert (writePaths (if existsSync w dest then [] else [Mkdir dest]) = [])
    as -> by by destruct (existsSync w dest).
  cbn [app]. destruct groups as [|group groups].
  - rewrite (proj2 Hnil eq_refl). done.
  - destruct logNames; [|done]. by pose proof (proj1 Hnil eq_refl).
Qed.

(** A conversion that writes no path twice leaves the documents of its
    groups. *)
Lemma conversionTrace_outputIs groups logNames :
  (logNames = [] ↔ groups = []) →
  NoDup (targets dest groups) →
  outputIs dest channels users
    (conversionTrace w src dest channels users groups logNames) groups.
Proof.
  intros Hnil Hnd. rewrite <-(writePaths_conversionTrace _ _ Hnil) in Hnd.
  split.
  - intros group Hin. apply (written_lookup _ _ _ Hnd).
    unfold conversionTrace. rewrite !elem_of_app. right; left.
    rewrite <-documentOf_text. by apply list_elem_of_fmap_2.
  - intros p text Hp. apply (written_lookup _ _ _ Hnd) in Hp.
    unfold conversionTrace in Hp. rewrite !elem_of_app in Hp.
    destruct Hp as [Hp|[Hp|Hp]].
    + destruct (existsSync w dest); [by apply elem_of_nil in Hp|].
      by apply list_elem_of_singleton in Hp.
    + apply list_elem_of_fmap in Hp as (group & Heq & Hin).
      rewrite documentOf_text in Heq. injection Heq as -> ->. right. eauto.
    + destruct logNames; [by apply elem_of_nil in Hp|].
      apply list_elem_of_singleton in Hp. injection Hp as -> _. by left.
Qed.

Lemma sorted_names_nil (groups : list (jsstring * list Message)) :
  array_sort descending groups.*1 = [] ↔ groups = [].
Proof.
  split; [|by intros ->].
  intros Hsorted. apply fmap_nil_inv with (f := fst).
  apply Permutation_nil_r. rewrite <-Hsorted. symmetry. apply array_sort_perm.
Qed.

Lemma names_nil (groups : list (jsstring * list Message)) :
  groups.*1 = [] ↔ groups = [].
Proof. split; [apply fmap_nil_inv|by intros ->]. Qed.

Lemma NoDup_two {A} (l1 l2 l3 : list A) x y :
  NoDup (l1 ++ x :: l2 ++ y :: l3) → x ≠ y.
Proof.
  intros Hnd ->. apply NoDup_app in Hnd as (_ & _ & Hnd).
  apply NoDup_cons in Hnd as [Hnot _]. apply Hnot.
  apply elem_of_app. right. left.
Qed.

(** C5, amended: two kept messages of the same UTC day that come from two
    files of a channel are in one document, that of their day, when the
    channel is converted by day; when it is converted by source file, they
    are in two documents at two paths, each with the rows of the kept
    messages of its file. This holds when the conversion writes no path
    twice. The files of the channel are taken to be readable and the files
    of the output writable; both conversions return then. *)
Theorem same_day_one_document_or_two ignore filePaths f1 f2 ms1 ms2 m1 m2 :
  enumMessageJSONs w src = Ok filePaths →
  Forall (λ filePath, ∃ messages, readMessages w filePath = Ok messages) filePaths →
  f1 ∈ filePaths → f2 ∈ filePaths → f1 ≠ f2 →
  readMessages w f1 = Ok ms1 → readMessages w f2 = Ok ms2 →
  m1 ∈ ms1 → m2 ∈ ms2 →
  isIgnore m1 ignore = false → isIgnore m2 ignore = false →
  utcDay m1 = utcDay m2 →
  let byDay := dayGroups w ignore filePaths in
  let byFile := fileGroups w ignore filePaths in
  canWrite w src dest filePaths (targets dest byDay) →
  NoDup (targets dest byDay) →
  canWrite w src dest filePaths (targets dest byFile) →
  NoDup (targets dest byFile) →
  let runByDay := convertChannelMessagesSameDay w src dest channels users ignore in
  let runByFile := convertChannelMessages w src dest channels users ignore in
  (result runByDay = Ok tt
   ∧ ∃ group,
       written (trace runByDay) !! path_join dest (utcDay m1 ++ str ".md")
       = Some (str "# " ++ utcDay m1 ++ nl ++ nl
               ++ mjoin (tableRow channels users <$> group))
       ∧ m1 ∈ group ∧ m2 ∈ group)
  ∧ (result runByFile = Ok tt
     ∧ let name1 := path_basename f1 (Some (str ".json")) in
       let name2 := path_basename f2 (Some (str ".json")) in
       path_join dest (name1 ++ str ".md") ≠ path_join dest (name2 ++ str ".md")
       ∧ written (trace runByFile) !! path_join dest (name1 ++ str ".md")
         = Some (str "# " ++ name1 ++ nl ++ nl
                 ++ mjoin (tableRow channels users <$> kept ignore ms1))
       ∧ written (trace runByFile) !! path_join dest (name2 ++ str ".md")
         = Some (str "# " ++ name2 ++ nl ++ nl
                 ++ mjoin (tableRow channels users <$> kept ignore ms2))
       ∧ m1 ∈ kept ignore ms1 ∧ m2 ∈ kept ignore ms2).
Proof.
  intros Hlist Hall Hf1 Hf2 Hne Hr1 Hr2 Hm1 Hm2 Hk1 Hk2 Hday byDay byFile
    HcanDay HndDay HcanFile HndFile runByDay runByFile.
  split.
  - unfold runByDay.
    rewrite (convertChannelMessagesSameDay_dayGroups _ _ _ _ _ _ _ Hlist Hall HcanDay).
    split; [done|]. cbn [trace].
    destruct (dayGroups_holds w ignore _ _ _ _ Hall Hf1 Hr1 Hm1 Hk1)
      as (group & Hg & Hmg).
    destruct (dayGroups_holds w ignore _ _ _ _ Hall Hf2 Hr2 Hm2 Hk2)
      as (group' & Hg' & Hmg').
    rewrite <-Hday in Hg'. exists group. split_and!; [|done|].
    + by apply (proj1 (conversionTrace_outputIs _ _ (sorted_names_nil _) HndDay)
                  (utcDay m1, group)).
    + by rewrite (dayGroups_day w ignore _ _ _ _ Hg Hg').
  - assert (m1 ∈ kept ignore ms1) as Hkm1 by by apply elem_of_kept.
    assert (m2 ∈ kept ignore ms2) as Hkm2 by by apply elem_of_kept.
    unfold runByFile.
    rewrite (convertChannelMessages_fileGroups _ _ _ _ _ _ _ Hlist Hall HcanFile).
    split; [done|]. cbn [trace]. cbn zeta.
    set (g1 := (path_basename f1 (Some (str ".json")), kept ignore ms1)).
    set (g2 := (path_basename f2 (Some (str ".json")), kept ignore ms2)).
    assert (∃ pre mid post,
              byFile = pre ++ g1 :: mid ++ g2 :: post
              ∨ byFile = pre ++ g2 :: mid ++ g1 :: post)
      as (pre & mid & post & Hsplit).
    { apply (fileGroups_two w ignore); try done.
      - intros Hnil. rewrite Hnil in Hkm1. by apply elem_of_nil in Hkm1.
      - intros Hnil. rewrite Hnil in Hkm2. by apply elem_of_nil in Hkm2. }
    pose proof (conversionTrace_outputIs _ _ (names_nil byFile) HndFile)
      as [Hdocs _].
    assert (g1 ∈ byFile ∧ g2 ∈ byFile) as [Hg1 Hg2].
    { destruct Hsplit as [->| ->]; rewrite !elem_of_app, !elem_of_cons,
        !elem_of_app, !elem_of_cons; naive_solver. }
    split_and!; [|exact (Hdocs _ Hg1)|exact (Hdocs _ Hg2)|done..].
    assert (NoDup (documentPaths dest byFile)) as Hnd.
    { unfold targets in HndFile. destruct byFile; [constructor|].
      by apply NoDup_app in HndFile as (? & _ & _). }
    unfold documentPaths in Hnd.
    destruct Hsplit as [Hsplit|Hsplit]; rewrite Hsplit in Hnd;
      rewrite fmap_app, fmap_cons, fmap_app, fmap_cons in Hnd;
      apply NoDup_two in Hnd; [done|]. by intros Heq.
Qed.


(** C7, amended: a conversion that returns has written [index.md] exactly
    when it has written a document; the index begins with the base name of
    the channel directory as its heading and has one link for each
    document. The links are in the descending order of the names of the
    groups when the channel is converted by day; when it is converted by
    source file, they are in the order of the documents, which is the
    descending order of the paths of the source files. *)
Theorem index_of_channel ignore :
  let index (logNames : list jsstring) : list effect :=
    match logNames with
    | [] => []
    | _ => [WriteFile (path_join dest (str "index.md"))
              (str "# " ++ path_basename src None ++ nl ++ nl
               ++ mjoin (indexLine <$> logNames))]
    end in
  (result (convertChannelMessagesSameDay w src dest channels users ignore) = Ok tt →
     ∃ made groups logNames,
       trace (convertChannelMessagesSameDay w src dest channels users ignore)
       = made ++ (documentOf dest channels users <$> groups) ++ index logNames
       ∧ (made = [] ∨ made = [Mkdir dest])
       ∧ logNames ≡ₚ groups.*1 ∧ StronglySorted notBelow logNames)
  ∧ (result (convertChannelMessages w src dest channels users ignore) = Ok tt →
     ∃ made groups filePaths files,
       trace (convertChannelMessages w src dest channels users ignore)
       = made ++ (documentOf dest channels users <$> groups) ++ index groups.*1
       ∧ (made = [] ∨ made = [Mkdir dest])
       ∧ enumMessageJSONs (after w made) src = Ok filePaths
       ∧ files `sublist_of` array_sort descending filePaths
       ∧ StronglySorted notBelow files
       ∧ groups.*1
         = (λ filePath, path_basename filePath (Some (str ".json"))) <$> files).
Proof.
  intros index. split; intros Hrun.
  - destruct (convertChannelMessagesSameDay_trace src dest channels users ignore w)
      as (made & groups & idx & Htr & Hmade & _ & _ & _ & Hidx).
    exists made, groups, (array_sort descending groups.*1).
    split_and!; [|done|apply array_sort_perm|apply array_sort_notBelow].
    rewrite Htr, (Hidx Hrun). do 2 f_equal. unfold index, indexOf.
    destruct groups as [|group groups]; [done|].
    destruct (array_sort descending (group :: groups).*1) eqn:Hsorted; [|done].
    by apply sorted_names_nil in Hsorted.
  - destruct (convertChannelMessages_trace src dest channels users ignore w)
      as (made & groups & idx & Htr & Hmade & _ & _ & Hidx).
    destruct (Hidx Hrun) as (-> & filePaths & files & Hlist & Hsub & Hnames).
    exists made, groups, filePaths, files.
    split_and!; [|done..| |done].
    + rewrite Htr. do 2 f_equal. by destruct groups.
    + eapply StronglySorted_sublist; [exact Hsub|apply array_sort_notBelow].
Qed.

End Documents.

(** ** The metadata files *)

Section Metadata.
Context `{Imports}.
Context (w : world).

Lemma readChannels_throws dir e :
  readArrayFromJSON w (path_join dir (str "channels.json")) = Throw e →
  readChannels w dir = Throw e.
Proof. intros Hr. unfold readChannels. by rewrite Hr. Qed.

Lemma readUsers_throws dir e :
  readArrayFromJSON w (path_join dir (str "users.json")) = Throw e →
  readUsers w dir = Throw e.
Proof. intros Hr. unfold readUsers. by rewrite Hr. Qed.

Lemma logger_log_eq report line :
  logger_log report line = mkIO (if report then [Log line] else []) (Ok tt).
Proof. by destruct report. Qed.

Lemma logger_log_logs report line :
  Forall (λ e, ∃ line, e = Log line) (if report : bool then [Log line] else []).
Proof. destruct report; repeat constructor. by eexists. Qed.

Lemma after_log report line :
  after w (if report : bool then [Log line] else []) = w.
Proof. by destruct report. Qed.

(** A run in which a reader of the metadata throws has thrown before any
    directory was made and any file written. *)
Lemma log2Md_throws inputDir outputDir options :
  (∃ e, readChannels w inputDir = Throw e)
  ∨ (∃ e, readUsers w inputDir = Throw e) →
  ∃ e, result (log2Md w inputDir outputDir options) = Throw e
    ∧ Forall (λ e, ∃ line, e = Log line) (trace (log2Md w inputDir outputDir options)).
Proof.
  intros Hthrow. unfold log2Md.
  do 3 (rewrite Async_bind_unfold, async_run, logger_log_eq;
        cbn [result trace]; rewrite after_log).
  rewrite Async_bind_unfold, async_run. cbn [await result trace].
  destruct (readChannels w inputDir) as [chs|e] eqn:Hchannels.
  - destruct Hthrow as [[e [=]]|[e Husers]].
    cbn [result trace app after foldl].
    rewrite Async_bind_unfold, async_run, Husers. cbn [await result trace].
    exists e. split; [done|].
    rewrite !Forall_app. split_and!; (apply logger_log_logs || constructor).
  - cbn [result trace]. exists e. split; [done|].
    rewrite !Forall_app. split_and!; (apply logger_log_logs || constructor).
Qed.

(** C9: in a workspace without [channels.json], [readChannels] throws, and
    without [users.json], [readUsers] throws: no mapping is returned; the
    run throws then, before it writes anything. Reading a message file that
    holds a value other than an array throws too. *)
Theorem missing_or_malformed_source_throws dir :
  (w !! path_join dir (str "channels.json") = None →
     readChannels w dir
     = Throw (Error (str "File does not exist. " ++ dquote
                     ++ path_join dir (str "channels.json") ++ dquote)))
  ∧ (w !! path_join dir (str "users.json") = None →
       readUsers w dir
       = Throw (Error (str "File does not exist. " ++ dquote
                       ++ path_join dir (str "users.json") ++ dquote)))
  ∧ (w !! path_join dir (str "channels.json") = None
     ∨ w !! path_join dir (str "users.json") = None →
       ∀ outputDir options,
         ∃ e, result (log2Md w dir outputDir options) = Throw e
           ∧ Forall (λ e, ∃ line, e = Log line)
               (trace (log2Md w dir outputDir options)))
  ∧ (∀ filePath, w !! filePath = Some (File (Some JOther)) →
       readMessages w filePath = Throw (Error (str "Data is not an array."))).
Proof.
  split_and!.
  - intros Hw. by apply readChannels_throws, readArrayFromJSON_missing.
  - intros Hw. by apply readUsers_throws, readArrayFromJSON_missing.
  - intros Hw outputDir options. apply log2Md_throws.
    destruct Hw as [Hw|Hw]; [left|right]; eexists.
    + by apply readChannels_throws, readArrayFromJSON_missing.
    + by apply readUsers_throws, readArrayFromJSON_missing.
  - intros filePath Hw. unfold readMessages.
    by rewrite readArrayFromJSON_not_array.
Qed.

(** C10: when the records of [channels.json] parse, [readChannels] returns
    a mapping in which the entry of an id is the last channel of the file
    with this id, and which has one entry for each id of the file; the same
    holds of [readUsers] and [users.json]. *)
Theorem readers_keep_last_record dir :
  (∀ values parsed,
     readArrayFromJSON w (path_join dir (str "channels.json")) = Ok values →
     Forall2 (λ value channel, parseChannel value = Ok channel) values parsed →
     ∃ channels, readChannels w dir = Ok channels
       ∧ (∀ id, channels !! id
                = last (filter (λ channel, channel_id channel = id) parsed))
       ∧ dom channels = list_to_set (channel_id <$> parsed)
       ∧ size channels = length (remove_dups (channel_id <$> parsed)))
  ∧ (∀ values parsed,
       readArrayFromJSON w (path_join dir (str "users.json")) = Ok values →
       Forall2 (λ value user, parseUser value = Ok user) values parsed →
       ∃ users, readUsers w dir = Ok users
         ∧ (∀ id, users !! id = last (filter (λ user, user_id user = id) parsed))
         ∧ dom users = list_to_set (user_id <$> parsed)
         ∧ size users = length (remove_dups (user_id <$> parsed))).
Proof.
  split; intros values parsed Hread Hparsed; eexists.
  - split; [|apply (foldl_insert_last_wins channel_id parsed)].
    unfold readChannels. rewrite Hread. cbn [mbind outcome_bind].
    by apply foldM_parse_insert.
  - split; [|apply (foldl_insert_last_wins user_id parsed)].
    unfold readUsers. rewrite Hread. cbn [mbind outcome_bind].
    by apply foldM_parse_insert.
Qed.

End Metadata.

(** ** The code on the examples *)

(** C1, at a mention of a known user: the mention of [U2], who is [bob], in
    a message of Alice becomes the name of the sender in inline code, and
    the text changes with the sender; the specification has the name of the
    mentioned user there. *)
Theorem mention_takes_the_name_of_the_sender :
  example_users !! str "U2" = Some bob
  ∧ createBody msg_late (str "Alice") example_channels example_users
    = str "Hello `@Alice` in `#main`<br>See :smile:"
  ∧ createBody msg_late (str "carol") example_channels example_users
    = str "Hello `@carol` in `#main`<br>See :smile:".
Proof. split_and!; vm_compute; reflexivity. Qed.

(** C3, at two emoji codes: the body keeps the codes [:smile:] and
    [:flag-gb:] as they are, where the specification has their Unicode
    characters. *)
Theorem emoji_codes_are_kept :
  createBody
    {| userID := Some (str "U1"); timeStamp := 1572505320000000;
       text := str ":flag-gb:: Sample message :smile:"; subtype := None |}
    (str "Alice") example_channels example_users
  = str ":flag-gb:: Sample message :smile:".
Proof. vm_compute; reflexivity. Qed.

(** C4, at a reference to an unknown channel: the reference to [C9], which
    is not in the mapping, becomes the raw id in inline code with the prefix
    [@] of a mention, where the specification keeps the prefix [#]. *)
Theorem unknown_channel_takes_the_mention_prefix :
  example_channels !! str "C9" = None
  ∧ createBody msg_next (str "bob") example_channels example_users
    = str "See `@C9`".
Proof. split_and!; vm_compute; reflexivity. Qed.

(** C2, at the example channel: the documents of both conversions are the
    heading, an empty line and the rows; the two lines of the table header
    are not written. *)
Theorem documents_have_no_table_header :
  convertChannelMessages example_world (str "in/general") (str "out/general")
    example_channels example_users ignoreLogin
  = mkIO
      [ Mkdir (str "out/general");
        WriteFile (str "out/general/2019-10-31.md")
          (str "# 2019-10-31" ++ nl ++ nl
           ++ str "|07:02|![](https://example.com/bob/72.png)|bob|See `@C9`|" ++ nl);
        WriteFile (str "out/general/2019-10-30.md")
          (str "# 2019-10-30" ++ nl ++ nl
           ++ str "|01:43||Alice|Hello `@Alice` in `#main`<br>See :smile:|" ++ nl);
        WriteFile (str "out/general/index.md")
          (str "# general" ++ nl ++ nl
           ++ str "- [2019-10-31](./2019-10-31.md)" ++ nl
           ++ str "- [2019-10-30](./2019-10-30.md)" ++ nl) ]
      (Ok tt)
  ∧ convertChannelMessagesSameDay example_world (str "in/general")
      (str "out/general") example_channels example_users ignoreLogin
    = mkIO
        [ Mkdir (str "out/general");
          WriteFile (str "out/general/2019-10-31.md")
            (str "# 2019-10-31" ++ nl ++ nl
             ++ str "|01:43||Alice|Hello `@Alice` in `#main`<br>See :smile:|" ++ nl
             ++ str "|07:02|![](https://example.com/bob/72.png)|bob|See `@C9`|" ++ nl);
          WriteFile (str "out/general/index.md")
            (str "# general" ++ nl ++ nl
             ++ str "- [2019-10-31](./2019-10-31.md)" ++ nl) ]
        (Ok tt).
Proof. split; vm_compute; reflexivity. Qed.

(** C7, as stated, fails for the files [a.json] and [a-b.json] of a channel
    converted by source file: the index links [a] before [a-b], and [a] is
    below [a-b]. *)
Lemma index_by_file_not_in_name_order :
  convertChannelMessages prefix_world (str "in/general") (str "out/general")
    example_channels example_users ignoreNothing
  = mkIO
      (conversionTrace prefix_world (str "in/general") (str "out/general")
         example_channels example_users
         [(str "a", [msg_late]); (str "a-b", [msg_next])]
         [str "a"; str "a-b"])
      (Ok tt)
  ∧ conversionTrace prefix_world (str "in/general") (str "out/general")
      example_channels example_users
      [(str "a", [msg_late]); (str "a-b", [msg_next])]
      [str "a"; str "a-b"] !! 3
    = Some (WriteFile (str "out/general/index.md")
              (str "# general" ++ nl ++ nl
               ++ str "- [a](./a.md)" ++ nl ++ str "- [a-b](./a-b.md)" ++ nl))
  ∧ ¬ StronglySorted notBelow [str "a"; str "a-b"].
Proof.
  split_and!; [vm_compute; reflexivity..|].
  intros Hsorted. apply StronglySorted_inv in Hsorted as [_ Hhd].
  apply Forall_inv in Hhd. vm_compute in Hhd. discriminate.
Qed.

(** C5, as stated, fails for the files [.json] and [.json.json] of a
    channel converted by source file: both give the document [.json.md],
    the second write replaces the first, and the message of [.json.json] is
    in no document. *)
Lemma same_base_name_one_document :
  let run :=
    convertChannelMessages clash_world (str "in/general") (str "out/general")
      example_channels example_users ignoreNothing in
  enumMessageJSONs clash_world (str "in/general")
  = Ok [str "in/general/.json"; str "in/general/.json.json"]
  ∧ readMessages clash_world (str "in/general/.json") = Ok [msg_next]
  ∧ readMessages clash_world (str "in/general/.json.json") = Ok [msg_late]
  ∧ isIgnore msg_next ignoreNothing = false
  ∧ isIgnore msg_late ignoreNothing = false
  ∧ utcDay msg_next = utcDay msg_late
  ∧ result run = Ok tt
  ∧ written (trace run)
    = {[ str "out/general/.json.md"
         := str "# .json" ++ nl ++ nl
            ++ tableRow example_channels example_users msg_next;
         str "out/general/index.md"
         := str "# general" ++ nl ++ nl
            ++ str "- [.json](./.json.md)" ++ nl
            ++ str "- [.json](./.json.md)" ++ nl ]}.
Proof. split_and!; vm_compute; reflexivity. Qed.


Ltac by_deciding := apply (bool_decide_unpack _); vm_compute; exact I.

Ltac can_write :=
  split_and!; [by_deciding|vm_compute; first [reflexivity|exact I]|by_deciding].

(** The two files of the example channel hold [msg_late] and [msg_next],
    which are of the same UTC day: they share the document of the day, and
    they are in the documents of their files. *)
Lemma same_day_one_document_or_two_witness :
  let runByDay :=
    convertChannelMessagesSameDay example_world (str "in/general")
      (str "out/general") example_channels example_users ignoreLogin in
  let runByFile :=
    convertChannelMessages example_world (str "in/general")
      (str "out/general") example_channels example_users ignoreLogin in
  utcDay msg_late = str "2019-10-31"
  ∧ utcDay msg_next = str "2019-10-31"
  ∧ (result runByDay = Ok tt
     ∧ ∃ group,
         written (trace runByDay) !! str "out/general/2019-10-31.md"
         = Some (str "# 2019-10-31" ++ nl ++ nl
                 ++ mjoin (tableRow example_channels example_users <$> group))
         ∧ msg_late ∈ group ∧ msg_next ∈ group)
  ∧ (result runByFile = Ok tt
     ∧ str "out/general/2019-10-30.md" ≠ str "out/general/2019-10-31.md"
     ∧ written (trace runByFile) !! str "out/general/2019-10-30.md"
       = Some (str "# 2019-10-30" ++ nl ++ nl
               ++ mjoin (tableRow example_channels example_users <$> [msg_late]))
     ∧ written (trace runByFile) !! str "out/general/2019-10-31.md"
       = Some (str "# 2019-10-31" ++ nl ++ nl
               ++ mjoin (tableRow example_channels example_users <$> [msg_next]))
     ∧ msg_late ∈ [msg_late] ∧ msg_next ∈ [msg_next]).
Proof.
  intros runByDay runByFile.
  split; [vm_compute; reflexivity|]. split; [vm_compute; reflexivity|].
  apply (same_day_one_document_or_two example_world (str "in/general")
           (str "out/general") example_channels example_users ignoreLogin
           [str "in/general/2019-10-30.json"; str "in/general/2019-10-31.json"]
           (str "in/general/2019-10-30.json") (str "in/general/2019-10-31.json")
           [msg_join; msg_late] [msg_next] msg_late msg_next).
  - vm_compute; reflexivity.
  - repeat constructor; eexists; vm_compute; reflexivity.
  - repeat constructor.
  - repeat constructor.
  - vm_compute. discriminate.
  - vm_compute; reflexivity.
  - vm_compute; reflexivity.
  - repeat constructor.
  - repeat constructor.
  - vm_compute; reflexivity.
  - vm_compute; reflexivity.
  - vm_compute; reflexivity.
  - can_write.
  - by_deciding.
  - can_write.
  - by_deciding.
Defined.


(** Both conversions of the example channel return: each has an index with
    a link for each of its documents. *)
Lemma index_of_channel_witness :
  let index (logNames : list jsstring) : list effect :=
    match logNames with
    | [] => []
    | _ => [WriteFile (path_join (str "out/general") (str "index.md"))
              (str "# " ++ path_basename (str "in/general") None ++ nl ++ nl
               ++ mjoin (indexLine <$> logNames))]
    end in
  let runByDay :=
    convertChannelMessagesSameDay example_world (str "in/general")
      (str "out/general") example_channels example_users ignoreNothing in
  let runByFile :=
    convertChannelMessages example_world (str "in/general")
      (str "out/general") example_channels example_users ignoreNothing in
  result runByDay = Ok tt
  ∧ result runByFile = Ok tt
  ∧ (∃ made groups logNames,
       trace runByDay
       = made ++ (documentOf (str "out/general") example_channels example_users
                    <$> groups) ++ index logNames
       ∧ (made = [] ∨ made = [Mkdir (str "out/general")])
       ∧ logNames ≡ₚ groups.*1 ∧ StronglySorted notBelow logNames)
  ∧ (∃ made groups filePaths files,
       trace runByFile
       = made ++ (documentOf (str "out/general") example_channels example_users
                    <$> groups) ++ index groups.*1
       ∧ (made = [] ∨ made = [Mkdir (str "out/general")])
       ∧ enumMessageJSONs (after example_world made) (str "in/general")
         = Ok filePaths
       ∧ files `sublist_of` array_sort descending filePaths
       ∧ StronglySorted notBelow files
       ∧ groups.*1
         = (λ filePath, path_basename filePath (Some (str ".json"))) <$> files).
Proof.
  intros index runByDay runByFile.
  assert (result runByDay = Ok tt) as HbyDay by (vm_compute; reflexivity).
  assert (result runByFile = Ok tt) as HbyFile by (vm_compute; reflexivity).
  destruct (index_of_channel example_world (str "in/general")
              (str "out/general") example_channels example_users ignoreNothing)
    as [Hday Hfile].
  split_and!; [done|done|exact (Hday HbyDay)|exact (Hfile HbyFile)].
Defined.

(** A workspace without its metadata files: both readers throw, and so does
    the run; the message file that holds an object is not read. *)
Lemma missing_or_malformed_source_throws_witness :
  readChannels broken_world (str "in")
  = Throw (Error (str "File does not exist. " ++ dquote
                  ++ str "in/channels.json" ++ dquote))
  ∧ readUsers broken_world (str "in")
    = Throw (Error (str "File does not exist. " ++ dquote
                    ++ str "in/users.json" ++ dquote))
  ∧ (∃ e, result (log2Md broken_world (str "in") (str "out")
                    {| report := Some true; groupingSameDayByUTC := None;
                       ignore := None |}) = Throw e)
  ∧ readMessages broken_world (str "in/general/2019-10-31.json")
    = Throw (Error (str "Data is not an array.")).
Proof.
  destruct (missing_or_malformed_source_throws broken_world (str "in"))
    as (Hchannels & Husers & Hrun & Hmessages).
  split_and!.
  - apply Hchannels. vm_compute; reflexivity.
  - apply Husers. vm_compute; reflexivity.
  - destruct (Hrun (or_introl eq_refl) (str "out")
                {| report := Some true; groupingSameDayByUTC := None;
                   ignore := None |}) as (e & He & _).
    by exists e.
  - apply Hmessages. vm_compute; reflexivity.
Defined.

(** The metadata files of the example hold two records of [C1] and two of
    [U1]: the later ones are kept, and the mappings have two entries. *)
Lemma readers_keep_last_record_witness :
  (∃ channels, readChannels example_world (str "in") = Ok channels
     ∧ channels !! str "C1" = Some general_renamed
     ∧ size channels = 2)
  ∧ (∃ users, readUsers example_world (str "in") = Ok users
       ∧ users !! str "U1" = Some alice_renamed
       ∧ size users = 2).
Proof.
  destruct (readers_keep_last_record example_world (str "in"))
    as (Hchannels & Husers).
  split.
  - destruct (Hchannels
                [RChannel general; RChannel random; RChannel general_renamed]
                [general; random; general_renamed])
      as (channels & Hread & Hlast & _ & Hsize).
    + vm_compute; reflexivity.
    + repeat constructor.
    + exists channels. split_and!; [done|by rewrite Hlast|by rewrite Hsize].
  - destruct (Husers [RUser alice; RUser bob; RUser alice_renamed]
                [alice; bob; alice_renamed])
      as (users & Hread & Hlast & _ & Hsize).
    + vm_compute; reflexivity.
    + repeat constructor.
    + exists users. split_and!; [done|by rewrite Hlast|by rewrite Hsize].
Defined.

(** * Further properties of the code *)

(** ** The passes of [createBody] *)

Lemma lazyUntilGt_Some_gt (s cap rest : jsstring) :
  lazyUntilGt s = Some (cap, rest) → code ">" ∈ s.
Proof.
  revert cap rest; induction s as [|c s IH]; intros cap rest; [done|].
  cbn [lazyUntilGt]. case_bool_decide as Hc; [intros _; rewrite Hc; by left|].
  destruct (isLineTerminator c); [done|].
  destruct (lazyUntilGt s) as [[cap' rest']|]; [|done].
  intros _. right. by eapply IH.
Qed.

(** A run with a line terminator before any [>] is not a token. *)
Lemma lazyUntilGt_line (a rest : jsstring) c :
  code ">" ∉ a → isLineTerminator c = true → c ≠ code ">" →
  lazyUntilGt (a ++ c :: rest) = None.
Proof.
  intros Hgt Hc Hne. induction a as [|x a IH]; cbn [app lazyUntilGt].
  - by rewrite bool_decide_eq_false_2, Hc.
  - apply not_elem_of_cons in Hgt as [Hx Hgt].
    rewrite bool_decide_eq_false_2 by done.
    destruct (isLineTerminator x); [done|]. by rewrite IH.
Qed.

Lemma matchToken_not_lt sigil c (s : jsstring) :
  c ≠ code "<" → matchToken sigil (c :: s) = None.
Proof.
  intros Hc. destruct s as [|c1 s]; [done|]. cbn [matchToken].
  by rewrite bool_decide_eq_false_2.
Qed.

(** The text before the first [<] is kept, and the search goes on after it. *)
Lemma replaceTokens_plain_prefix sigil replacer (pre s : jsstring) :
  code "<" ∉ pre →
  replaceTokens sigil replacer (pre ++ s) = pre ++ replaceTokens sigil replacer s.
Proof.
  induction pre as [|c pre IH]; [done|].
  intros [Hc Hpre]%not_elem_of_cons. cbn [app].
  rewrite replaceTokens_cons, matchToken_not_lt by done. by rewrite IH.
Qed.

(** A [<] that the sigil does not follow is kept. *)
Lemma replaceTokens_other_sigil sigil replacer c (s : jsstring) :
  c ≠ sigil →
  replaceTokens sigil replacer (code "<" :: c :: s)
  = code "<" :: replaceTokens sigil replacer (c :: s).
Proof.
  intros Hc. rewrite replaceTokens_cons. cbn [matchToken].
  by rewrite (bool_decide_eq_false_2 (c = sigil)), andb_false_r.
Qed.

(** A text without [>] has no token. *)
Lemma replaceTokens_no_gt sigil replacer (s : jsstring) :
  code ">" ∉ s → replaceTokens sigil replacer s = s.
Proof.
  induction s as [|c s IH]; [by simp replaceTokens|].
  intros Hgt. rewrite replaceTokens_cons.
  assert (matchToken sigil (c :: s) = None) as ->.
  { destruct s as [|c1 s]; [done|]. cbn [matchToken].
    destruct (_ && _); [|done].
    destruct (lazyUntilGt s) as [[cap rest]|] eqn:Hlazy; [|done].
    apply lazyUntilGt_Some_gt in Hlazy. destruct Hgt. by do 2 right. }
  rewrite IH; [done|]. by apply not_elem_of_cons in Hgt as [_ Hgt].
Qed.

Lemma cons_snoc_app {A} (c : A) (l : list A) d t :
  c :: l ++ d :: t = (c :: l ++ [d]) ++ t.
Proof. cbn [app]. by rewrite <-app_assoc. Qed.

Lemma replaceLineBreaks_app (a b : jsstring) :
  replaceLineBreaks (a ++ b) = replaceLineBreaks a ++ replaceLineBreaks b.
Proof. apply bind_app. Qed.

Lemma replaceLineBreaks_LF : replaceLineBreaks [LF] = str "<br>".
Proof. done. Qed.

Lemma replaceLineBreaks_no_LF (s : jsstring) : LF ∉ replaceLineBreaks s.
Proof.
  unfold replaceLineBreaks. intros (c & Hin & _)%list_elem_of_bind.
  case_bool_decide as Hc.
  - revert Hin. not_in_literal.
  - apply list_elem_of_singleton in Hin. congruence.
Qed.

Lemma not_lineTerminator_LF (id : jsstring) :
  Forall (λ c, isLineTerminator c = false) id → LF ∉ id.
Proof.
  intros Hlt Hin. rewrite Forall_forall in Hlt. by specialize (Hlt _ Hin).
Qed.

Section Transformer.
Context `{Imports}.
Context (channels : gmap jsstring Channel) (users : gmap jsstring User).

(** X1: the body of a message never holds a line feed, whatever the text,
    the user name and the names of the channels are: the row of a message
    stays on one line of the table. *)
Theorem createBody_no_line_feed message username :
  LF ∉ createBody message username channels users.
Proof. unfold createBody. apply replaceLineBreaks_no_LF. Qed.

(** X2: the text before the first [<] goes through with its line feeds
    replaced, and does not change the body of what follows it. *)
Theorem createBody_plain_prefix message rest username (pre : jsstring) :
  text message = pre ++ text rest →
  code "<" ∉ pre →
  createBody message username channels users
  = replaceLineBreaks pre ++ createBody rest username channels users.
Proof.
  intros Htext Hpre. unfold createBody. cbn zeta. rewrite Htext.
  rewrite !replaceTokens_plain_prefix by done. apply replaceLineBreaks_app.
Qed.

(** X3: the mention of an id that is not in the user mapping, at the head of
    a text, becomes the raw id after [@] in inline code, and the body of the
    rest of the text follows it. *)
Theorem createBody_unknown_mention message rest username (id : jsstring) :
  text message = code "<" :: code "@" :: id ++ code ">" :: text rest →
  code ">" ∉ id → code "<" ∉ id →
  Forall (λ c, isLineTerminator c = false) id →
  users !! id = None →
  createBody message username channels users
  = str "`@" ++ id ++ str "`" ++ createBody rest username channels users.
Proof.
  intros Htext Hgt Hlt Hline Huser. unfold createBody. cbn zeta.
  rewrite Htext, replaceTokens_token by done. rewrite Huser.
  rewrite !app_assoc, replaceTokens_plain_prefix, replaceLineBreaks_app.
  - rewrite replaceLineBreaks_plain; [done|].
    rewrite !not_elem_of_app.
    split_and!; [not_in_literal|by apply not_lineTerminator_LF|not_in_literal].
  - rewrite !not_elem_of_app. split_and!; [not_in_literal|done|not_in_literal].
Qed.

(** X4: the reference to a channel of the channel mapping, at the head of a
    text, becomes the name of the channel after [#] in inline code, and the
    body of the rest of the text follows it. *)
Theorem createBody_known_channel message rest username (id : jsstring) channel :
  text message = code "<" :: code "#" :: id ++ code ">" :: text rest →
  code ">" ∉ id → code "<" ∉ id →
  Forall (λ c, isLineTerminator c = false) id →
  channels !! id = Some channel →
  createBody message username channels users
  = str "`#" ++ replaceLineBreaks (channel_name channel) ++ str "`"
    ++ createBody rest username channels users.
Proof.
  intros Htext Hgt Hlt Hline Hchannel. unfold createBody. cbn zeta.
  rewrite Htext, replaceTokens_other_sigil by (by vm_compute).
  rewrite (cons_snoc_app (code "#") id), replaceTokens_plain_prefix.
  - rewrite <-cons_snoc_app, replaceTokens_token by done. rewrite Hchannel.
    rewrite <-!app_assoc, !replaceLineBreaks_app. done.
  - rewrite not_elem_of_cons, not_elem_of_app.
    split_and!; [by vm_compute|done|not_in_literal].
Qed.

(** X5: a text without [<], and a text without [>], has no token: its body
    is the text with its line feeds replaced. A token that is not closed
    stays as it is written. *)
Theorem createBody_without_token message username :
  code "<" ∉ text message ∨ code ">" ∉ text message →
  createBody message username channels users = replaceLineBreaks (text message).
Proof.
  intros Htext. unfold createBody. cbn zeta.
  destruct Htext as [Hlt|Hgt].
  - rewrite (replaceTokens_plain (code "@")) by done.
    by rewrite (replaceTokens_plain (code "#")).
  - rewrite (replaceTokens_no_gt (code "@")) by done.
    by rewrite (replaceTokens_no_gt (code "#")).
Qed.

(** X6: a mention does not go over a line: when a line feed comes before
    the [>], the [<@] and what follows it stay as they are written, and the
    line feed is replaced. *)
Theorem createBody_mention_across_lines message rest username (a : jsstring) :
  text message = code "<" :: code "@" :: a ++ LF :: text rest →
  code ">" ∉ a → code "<" ∉ a → LF ∉ a →
  createBody message username channels users
  = str "<@" ++ a ++ str "<br>" ++ createBody rest username channels users.
Proof.
  intros Htext Hgt Hlt Hlf. unfold createBody. cbn zeta.
  assert (code "<" ∉ code "@" :: a ++ [LF]) as Hprefix.
  { rewrite not_elem_of_cons, not_elem_of_app.
    split_and!; [by vm_compute|done|not_in_literal]. }
  rewrite Htext, replaceTokens_cons. cbn [matchToken].
  rewrite !bool_decide_eq_true_2 by done. cbn [andb].
  rewrite lazyUntilGt_line by (done || by vm_compute).
  rewrite (cons_snoc_app (code "@") a), replaceTokens_plain_prefix by done.
  rewrite <-cons_snoc_app, replaceTokens_other_sigil by (by vm_compute).
  rewrite (cons_snoc_app (code "@") a), replaceTokens_plain_prefix by done.
  change (code "<" :: (code "@" :: a ++ [LF]) ++ ?x)
    with ((str "<@" ++ a ++ [LF]) ++ x).
  rewrite <-!app_assoc, !replaceLineBreaks_app.
  by rewrite (replaceLineBreaks_plain a).
Qed.

End Transformer.

Lemma createBody_plain_prefix_witness :
  createBody (textMessage (str "Hi" ++ nl ++ str "<@U9>")) (str "Alice")
    example_channels example_users
  = replaceLineBreaks (str "Hi" ++ nl)
    ++ createBody (textMessage (str "<@U9>")) (str "Alice")
         example_channels example_users.
Proof.
  apply (createBody_plain_prefix example_channels example_users
           (textMessage (str "Hi" ++ nl ++ str "<@U9>"))
           (textMessage (str "<@U9>")) (str "Alice") (str "Hi" ++ nl)).
  - reflexivity.
  - not_in_literal.
Defined.

Lemma createBody_unknown_mention_witness :
  createBody (textMessage (str "<@U9> left")) (str "Alice")
    example_channels example_users
  = str "`@" ++ str "U9" ++ str "`"
    ++ createBody (textMessage (str " left")) (str "Alice")
         example_channels example_users.
Proof.
  apply (createBody_unknown_mention example_channels example_users
           (textMessage (str "<@U9> left")) (textMessage (str " left"))
           (str "Alice") (str "U9")).
  - reflexivity.
  - not_in_literal.
  - not_in_literal.
  - repeat constructor.
  - vm_compute; reflexivity.
Defined.

Lemma createBody_known_channel_witness :
  createBody (textMessage (str "<#C2> is open")) (str "Alice")
    example_channels example_users
  = str "`#" ++ replaceLineBreaks (channel_name random) ++ str "`"
    ++ createBody (textMessage (str " is open")) (str "Alice")
         example_channels example_users.
Proof.
  apply (createBody_known_channel example_channels example_users
           (textMessage (str "<#C2> is open")) (textMessage (str " is open"))
           (str "Alice") (str "C2") random).
  - reflexivity.
  - not_in_literal.
  - not_in_literal.
  - repeat constructor.
  - vm_compute; reflexivity.
Defined.

Lemma createBody_without_token_witness :
  createBody (textMessage (str "a <@U1 is not closed")) (str "Alice")
    example_channels example_users
  = replaceLineBreaks (str "a <@U1 is not closed").
Proof.
  apply (createBody_without_token example_channels example_users
           (textMessage (str "a <@U1 is not closed")) (str "Alice")).
  right. not_in_literal.
Defined.

Lemma createBody_mention_across_lines_witness :
  createBody (textMessage (str "<@U1" ++ nl ++ str "U2> done")) (str "Alice")
    example_channels example_users
  = str "<@" ++ str "U1" ++ str "<br>"
    ++ createBody (textMessage (str "U2> done")) (str "Alice")
         example_channels example_users.
Proof.
  apply (createBody_mention_across_lines example_channels example_users
           (textMessage (str "<@U1" ++ nl ++ str "U2> done"))
           (textMessage (str "U2> done")) (str "Alice") (str "U1")).
  - reflexivity.
  - not_in_literal.
  - not_in_literal.
  - not_in_literal.
Defined.

(** ** The rows of the table *)

Lemma lineFeeds_app (a b : jsstring) : lineFeeds (a ++ b) = lineFeeds a + lineFeeds b.
Proof. unfold lineFeeds. by rewrite filter_app, length_app. Qed.

Lemma lineFeeds_none (s : jsstring) : LF ∉ s → lineFeeds s = 0.
Proof.
  unfold lineFeeds. induction s as [|c s IH]; [done|].
  intros [Hc Hs]%not_elem_of_cons. rewrite filter_cons.
  destruct (decide (c = LF)); [done|]. by apply IH.
Qed.

Section Rows.
Context `{Imports}.
Context (channels : gmap jsstring Channel) (users : gmap jsstring User).

(** A row has one line feed, its last unit, when the time, the image and
    the user name of the message have none. *)
Lemma lineFeeds_tableRow message :
  LF ∉ time (getMetadata message users) →
  LF ∉ imageURL (getMetadata message users) →
  LF ∉ username (getMetadata message users) →
  lineFeeds (tableRow channels users message) = 1.
Proof.
  intros Htime Himage Hname. unfold tableRow. cbn zeta.
  assert (lineFeeds (match imageURL (getMetadata message users) with
                     | [] => []
                     | url => str "![](" ++ url ++ str ")"
                     end) = 0) as Hicon.
  { destruct (imageURL (getMetadata message users)) as [|c url] eqn:Hurl; [done|].
    rewrite !lineFeeds_app, (lineFeeds_none (c :: url)) by done. done. }
  rewrite !lineFeeds_app, Hicon, (lineFeeds_none (time _)),
    (lineFeeds_none (username _)), (lineFeeds_none (createBody _ _ _ _));
    [done|unfold createBody; apply replaceLineBreaks_no_LF|done..].
Qed.

(** X7: the table of two sequences of messages, one after the other, is the
    table of the first followed by the table of the second. *)
Theorem messagesToMarkdown_app messages1 messages2 :
  messagesToMarkdown (messages1 ++ messages2) channels users
  = messagesToMarkdown messages1 channels users
    ++ messagesToMarkdown messages2 channels users.
Proof. by rewrite !messagesToMarkdown_tableRows, fmap_app, join_app. Qed.

(** X8: the table has one line for each message, whatever the texts of the
    messages hold, when the time, the image and the user name that
    [getMetadata] gives hold no line feed. *)
Theorem messagesToMarkdown_lines messages :
  Forall (λ message,
            (LF ∉ time (getMetadata message users))
            ∧ (LF ∉ imageURL (getMetadata message users))
            ∧ (LF ∉ username (getMetadata message users))) messages →
  lineFeeds (messagesToMarkdown messages channels users) = length messages.
Proof.
  intros Hmeta. rewrite messagesToMarkdown_tableRows.
  induction Hmeta as [|message messages (Htime & Himage & Hname) _ IH]; [done|].
  rewrite fmap_cons.
  change (mjoin (tableRow channels users message
                   :: (tableRow channels users <$> messages)))
    with (tableRow channels users message
            ++ mjoin (tableRow channels users <$> messages)).
  rewrite lineFeeds_app, lineFeeds_tableRow, IH by done. done.
Qed.

End Rows.

Lemma messagesToMarkdown_lines_witness :
  lineFeeds (messagesToMarkdown [msg_join; msg_late; msg_next]
               example_channels example_users) = 3.
Proof.
  apply (messagesToMarkdown_lines example_channels example_users
           [msg_join; msg_late; msg_next]).
  repeat constructor; not_in_literal.
Defined.

(** ** The readers and the listings *)

(** A loop that parses each record stops at the first record that does not
    parse, and throws what the parser throws. *)
Lemma foldM_parse_throw {R E B : Type} (parse : R → outcome E) (step : B → E → B)
    (good : list R) bad rest (acc : B) e :
  Forall (λ value, ∃ parsed, parse value = Ok parsed) good →
  parse bad = Throw e →
  foldM (λ acc value, parsed ← parse value; mret (step acc parsed)) acc
    (good ++ bad :: rest)
  = Throw e.
Proof.
  intros Hgood Hbad; revert acc.
  induction Hgood as [|value good [parsed Hvalue] _ IH]; intros acc;
    cbn [app foldM].
  - by rewrite Hbad.
  - rewrite Hvalue. cbn [mbind outcome_bind mret outcome_ret]. apply IH.
Qed.

Section Listings.
Context `{Imports}.
Context (w : world).

(** X10: each of the three readers stops at the first record that does not
    parse and throws the error of the parser; the records before it do not
    give a partial result. *)
Theorem readers_throw_at_first_malformed_record dir filePath :
  (∀ good bad rest e,
     readArrayFromJSON w (path_join dir (str "channels.json"))
     = Ok (good ++ bad :: rest) →
     Forall (λ value, ∃ channel, parseChannel value = Ok channel) good →
     parseChannel bad = Throw e →
     readChannels w dir = Throw e)
  ∧ (∀ good bad rest e,
       readArrayFromJSON w (path_join dir (str "users.json"))
       = Ok (good ++ bad :: rest) →
       Forall (λ value, ∃ user, parseUser value = Ok user) good →
       parseUser bad = Throw e →
       readUsers w dir = Throw e)
  ∧ (∀ good bad rest e,
       readArrayFromJSON w filePath = Ok (good ++ bad :: rest) →
       Forall (λ value, ∃ message, parseMessage value = Ok message) good →
       parseMessage bad = Throw e →
       readMessages w filePath = Throw e).
Proof.
  split_and!; intros good bad rest e Hread Hgood Hbad.
  - unfold readChannels. rewrite Hread. cbn [mbind outcome_bind].
    by apply (foldM_parse_throw parseChannel
                (λ channels channel, <[channel_id channel := channel]> channels)).
  - unfold readUsers. rewrite Hread. cbn [mbind outcome_bind].
    by apply (foldM_parse_throw parseUser (λ users user, <[user_id user := user]> users)).
  - unfold readMessages. rewrite Hread. cbn [mbind outcome_bind].
    by apply (foldM_parse_throw parseMessage (λ messages message, messages ++ [message])).
Qed.

(** X11: [enumMessageJSONs] lists, in the order of the directory, the paths
    of the entries whose name ends with [.json] and that are files; the
    other entries are left out, and those whose name does not end with
    [.json] are not even looked at. *)
Theorem enumMessageJSONs_lists_json_files dir items :
  w !! dir = Some (Directory items) →
  Forall (λ item, endsWith item (str ".json") = true →
                  is_Some (w !! path_join dir item)) items →
  enumMessageJSONs w dir
  = Ok (path_join dir
          <$> filter (λ item, endsWith item (str ".json")
                              && isFile w (path_join dir item)) items).
Proof.
  intros Hdir Hitems. unfold enumMessageJSONs, readdirAsync. rewrite Hdir.
  cbn [mbind outcome_bind]. by rewrite enumMessageJSONs_loop.
Qed.

Lemma enumChannelDirs_loop rootDir items results :
  Forall (λ item, is_Some (w !! path_join rootDir item)) items →
  foldM (λ results item,
    let dir := path_join rootDir item in
    isDir ← statIsDirectory w dir;
    if isDir : bool then mret (results ++ [dir]) else mret results) results items
  = Ok (results
        ++ (path_join rootDir
              <$> filter (λ item, isDirectory w (path_join rootDir item)) items)).
Proof.
  intros Hitems; revert results.
  induction Hitems as [|item items [n Hn] _ IH]; intros results.
  - cbn. by rewrite app_nil_r.
  - cbn [foldM]. rewrite filter_cons.
    destruct (stat_Some _ _ _ Hn) as [-> _].
    destruct (isDirectory w (path_join rootDir item));
      cbn [mbind outcome_bind mret outcome_ret].
    + rewrite decide_True by done. rewrite IH, fmap_cons.
      by rewrite <-app_assoc.
    + rewrite decide_False by (by intros []). apply IH.
Qed.

(** X12: [enumChannelDirs] lists, in the order of the workspace directory,
    the paths of its entries that are directories; the files of the
    workspace, as [channels.json] and [users.json], are left out. *)
Theorem enumChannelDirs_lists_directories rootDir items :
  w !! rootDir = Some (Directory items) →
  Forall (λ item, is_Some (w !! path_join rootDir item)) items →
  enumChannelDirs w rootDir
  = Ok (path_join rootDir
          <$> filter (λ item, isDirectory w (path_join rootDir item)) items).
Proof.
  intros Hdir Hitems. unfold enumChannelDirs, readdirAsync. rewrite Hdir.
  cbn [mbind outcome_bind]. by rewrite enumChannelDirs_loop.
Qed.

(** X13: [checkIgnoreOption] does not change what is ignored: a message is
    ignored under the checked option exactly as under the given one, no
    message is ignored when no option is given, and checking a checked
    option gives it back. *)
Theorem checkIgnoreOption_keeps_policy (option : option IgnoreMessage) message :
  isIgnore message (checkIgnoreOption option)
  = match option with
    | Some ignore => isIgnore message ignore
    | None => false
    end
  ∧ checkIgnoreOption (Some (checkIgnoreOption option)) = checkIgnoreOption option.
Proof.
  destruct option as [[[[]|]]|]; done.
Qed.

End Listings.

Lemma readers_throw_at_first_malformed_record_witness :
  readChannels malformed_world (str "in") = malformed
  ∧ readUsers malformed_world (str "in") = malformed
  ∧ readMessages malformed_world (str "in/general/2019-10-31.json") = malformed.
Proof.
  destruct (readers_throw_at_first_malformed_record malformed_world (str "in")
              (str "in/general/2019-10-31.json"))
    as (Hchannels & Husers & Hmessages).
  split_and!.
  - apply (Hchannels [RChannel general] (RUser alice) [RChannel random]).
    + vm_compute; reflexivity.
    + repeat constructor. by eexists.
    + reflexivity.
  - apply (Husers [RUser alice] (RMessage msg_join) []).
    + vm_compute; reflexivity.
    + repeat constructor. by eexists.
    + reflexivity.
  - apply (Hmessages [RMessage msg_next] (RChannel general) [RMessage msg_late]).
    + vm_compute; reflexivity.
    + repeat constructor. by eexists.
    + reflexivity.
Defined.

Lemma enumMessageJSONs_lists_json_files_witness :
  enumMessageJSONs example_world (str "in/general")
  = Ok [str "in/general/2019-10-30.json"; str "in/general/2019-10-31.json"].
Proof.
  rewrite (enumMessageJSONs_lists_json_files example_world (str "in/general")
             [str "2019-10-30.json"; str "2019-10-31.json"; str "notes.txt"]).
  - vm_compute; reflexivity.
  - vm_compute; reflexivity.
  - repeat constructor; intros _; vm_compute; by eexists.
Defined.

Lemma enumChannelDirs_lists_directories_witness :
  enumChannelDirs example_world (str "in") = Ok [str "in/general"].
Proof.
  rewrite (enumChannelDirs_lists_directories example_world (str "in")
             [str "channels.json"; str "users.json"; str "general"]).
  - vm_compute; reflexivity.
  - vm_compute; reflexivity.
  - repeat constructor; vm_compute; by eexists.
Defined.

(** ** A conversion that throws *)

Section Throwing.
Context `{Imports}.
Context (w : world) (src dest : jsstring).
Context (channels : gmap jsstring Channel) (users : gmap jsstring User).
Context (ignore : IgnoreMessage).

(** X14: the two conversions return when the files of the channel can be
    listed and read and the files of their groups written: the conversion
    by source file has then written the documents of the files, in the
    descending order of the paths, the conversion by day the documents of
    the days, and each the index after its documents. *)
Theorem conversions_return filePaths :
  enumMessageJSONs w src = Ok filePaths →
  Forall (λ filePath, ∃ messages, readMessages w filePath = Ok messages) filePaths →
  let byFile := fileGroups w ignore filePaths in
  let byDay := dayGroups w ignore filePaths in
  canWrite w src dest filePaths (targets dest byFile) →
  canWrite w src dest filePaths (targets dest byDay) →
  convertChannelMessages w src dest channels users ignore
  = mkIO (conversionTrace w src dest channels users byFile byFile.*1) (Ok tt)
  ∧ convertChannelMessagesSameDay w src dest channels users ignore
    = mkIO (conversionTrace w src dest channels users byDay
              (array_sort descending byDay.*1)) (Ok tt).
Proof.
  intros Hlist Hall byFile byDay HcanFile HcanDay. split.
  - by apply convertChannelMessages_fileGroups.
  - by apply convertChannelMessagesSameDay_dayGroups.
Qed.

Lemma foldM_Async_app {A B} (body : B → A → Async B) (b : B) (xs ys : list A)
    (w' : world) :
  foldM (M := Async) body b (xs ++ ys) w'
  = (foldM body b xs ≫= λ b', foldM body b' ys) w'.
Proof.
  revert b w'. induction xs as [|x xs IH]; intros b w'.
  - cbn [app foldM]. rewrite Async_bind_unfold.
    cbn [mret Async_ret IO_ret result trace app after foldl]. by rewrite IO_eta.
  - cbn [app]. rewrite (foldM_Async_cons body b x (xs ++ ys)), Async_bind_unfold.
    rewrite (Async_bind_unfold _ (foldM body b (x :: xs))).
    rewrite (foldM_Async_cons body b x xs), Async_bind_unfold.
    destruct (result (body b x w')) as [b'|e]; [|done]. cbn [result trace].
    rewrite IH, !Async_bind_unfold.
    destruct (result (foldM body b' xs (after w' (trace (body b x w')))))
      as [b''|e]; cbn [result trace]; [|done].
    by rewrite after_app, app_assoc.
Qed.

(** The first loop of the conversion by day stops at the first file that
    cannot be read. *)
Lemma collect_loop_throw w' done mss bad rest logs e :
  Forall2 (λ filePath messages, readMessages w' filePath = Ok messages) done mss →
  readMessages w' bad = Throw e →
  foldM (λ logs filePath, async (λ w, collectLogs w ignore logs filePath))
    logs (done ++ bad :: rest) w'
  = mkIO [] (Throw e).
Proof.
  intros Hdone Hbad.
  rewrite foldM_Async_app, Async_bind_unfold.
  rewrite (collect_loop_run _ _ _ _ _ Hdone). cbn [result trace app after foldl].
  rewrite foldM_Async_cons, Async_bind_unfold, async_run, collectLogs_eq, Hbad.
  done.
Qed.

(** X15: the conversion by day reads every file before it writes: when a
    listed file cannot be read, it throws what the reader throws, and no
    document and no index is written; only the output directory of the
    channel is made, if it is not there. *)
Theorem convertChannelMessagesSameDay_throws_before_writing
    filePaths done bad rest e :
  enumMessageJSONs w src = Ok filePaths →
  filePaths = done ++ bad :: rest →
  Forall (λ filePath, ∃ messages, readMessages w filePath = Ok messages) done →
  readMessages w bad = Throw e →
  canWrite w src dest filePaths [] →
  convertChannelMessagesSameDay w src dest channels users ignore
  = mkIO (if existsSync w dest then [] else [Mkdir dest]) (Throw e).
Proof.
  intros Hlist Hsplit Hdone Hbad Hcan.
  destruct (mkdirUnlessExists_canWrite _ _ _ _ _ Hcan Hlist)
    as (Hmk & _ & Hlist1 & Halike & _).
  set (made := if existsSync w dest then [] else [Mkdir dest]) in *.
  assert (Forall2 (λ filePath messages,
                     readMessages (after w made) filePath = Ok messages)
            done (messagesOf w <$> done)) as Hdone1.
  { apply readable_messagesOf in Hdone.
    assert (∀ p, p ∈ done → p ∈ filePaths) as Hin
      by (intros p Hp; rewrite Hsplit, elem_of_app; by left).
    clear -Hdone Halike Hin.
    induction Hdone as [|p ms ps mss Hp _ IH]; constructor.
    - rewrite <-Hp. symmetry. apply readMessages_alike, Halike, Hin. by left.
    - apply IH. intros q Hq. apply Hin. by right. }
  assert (readMessages (after w made) bad = Throw e) as Hbad1.
  { rewrite <-Hbad. symmetry. apply readMessages_alike, Halike.
    rewrite Hsplit, elem_of_app. right. by left. }
  unfold convertChannelMessagesSameDay.
  rewrite Async_bind_unfold, async_run, Hmk. cbn [result trace].
  rewrite Async_bind_unfold, async_run, Hlist1.
  cbn [await result trace app after foldl].
  rewrite Async_bind_unfold, Hsplit, (collect_loop_throw _ _ _ _ _ _ _ Hdone1 Hbad1).
  cbn [result trace]. by rewrite app_nil_r.
Qed.

(** X16: the conversion by source file writes as it reads: when a file
    cannot be read, the documents of the files before it, in the descending
    order of the paths, are written, then the conversion throws what the
    reader throws; the files after it are not read and no index is
    written. The documents of the files before it are taken to be
    writable. *)
Theorem convertChannelMessages_throws_after_writing filePaths done bad rest e :
  enumMessageJSONs w src = Ok filePaths →
  array_sort descending filePaths = done ++ bad :: rest →
  Forall (λ filePath, ∃ messages, readMessages w filePath = Ok messages) done →
  readMessages w bad = Throw e →
  let groups :=
    groupsByFile ignore ((λ filePath, (filePath, messagesOf w filePath)) <$> done) in
  canWrite w src dest filePaths (documentPaths dest groups) →
  convertChannelMessages w src dest channels users ignore
  = mkIO ((if existsSync w dest then [] else [Mkdir dest])
          ++ (documentOf dest channels users <$> groups))
         (Throw e).
Proof.
  intros Hlist Hsorted Hdone Hbad groups Hcan.
  destruct (mkdirUnlessExists_canWrite _ _ _ _ _ Hcan Hlist)
    as (Hmk & Hdest & Hlist1 & Halike & Hpaths).
  set (made := if existsSync w dest then [] else [Mkdir dest]) in *.
  assert (∀ p, p ∈ done ++ bad :: rest → p ∈ filePaths) as Hin.
  { intros p. by rewrite <-Hsorted, (array_sort_perm descending filePaths). }
  unfold convertChannelMessages.
  rewrite Async_bind_unfold, async_run, Hmk. cbn [result trace].
  rewrite Async_bind_unfold, async_run, Hlist1.
  cbn [await result trace app after foldl].
  rewrite Async_bind_unfold, Hsorted, foldM_Async_app, Async_bind_unfold.
  rewrite (perFile_loop_run dest channels users ignore w (after w made) done []).
  - cbn [result trace]. fold groups.
    rewrite foldM_Async_cons, Async_bind_unfold, async_run, convertFile_eq.
    rewrite <-(readMessages_alike w), Hbad; [by rewrite app_nil_r|].
    eapply alike_trans; [apply Halike, Hin; rewrite elem_of_app; right; by left|].
    apply after_alike, Forall_fmap, Forall_forall. intros group Hgroup.
    cbn [target documentOf compose]. intros [= Heq].
    rewrite Forall_forall in Hpaths.
    destruct (Hpaths (path_join dest (group.1 ++ str ".md"))) as (_ & _ & Hnot).
    { unfold documentPaths. by apply list_elem_of_fmap_2'  with group. }
    apply Hnot. rewrite Heq. apply Hin. rewrite elem_of_app. right. by left.
  - intros p Hp. apply Halike, Hin. rewrite elem_of_app. by left.
  - done.
  - done.
  - eapply Forall_impl; [exact Hpaths|]. intros p (? & ? & Hp).
    split_and!; [done..|]. intros Hpin. apply Hp, Hin.
    rewrite elem_of_app. by left.
Qed.

End Throwing.

Lemma convertChannelMessagesSameDay_throws_before_writing_witness :
  convertChannelMessagesSameDay partial_world (str "in/random")
    (str "out/random") example_channels example_users ignoreNothing
  = mkIO [Mkdir (str "out/random")] (Throw (Error (str "Data is not an array."))).
Proof.
  rewrite (convertChannelMessagesSameDay_throws_before_writing partial_world
             (str "in/random") (str "out/random") example_channels example_users
             ignoreNothing [str "in/random/a.json"; str "in/random/b.json"]
             [] (str "in/random/a.json") [str "in/random/b.json"]
             (Error (str "Data is not an array."))).
  - vm_compute; reflexivity.
  - vm_compute; reflexivity.
  - reflexivity.
  - constructor.
  - vm_compute; reflexivity.
  - can_write.
Defined.

Lemma convertChannelMessages_throws_after_writing_witness :
  convertChannelMessages partial_world (str "in/random") (str "out/random")
    example_channels example_users ignoreNothing
  = mkIO [ Mkdir (str "out/random");
           documentOf (str "out/random") example_channels example_users
             (str "b", [msg_late]) ]
         (Throw (Error (str "Data is not an array."))).
Proof.
  rewrite (convertChannelMessages_throws_after_writing partial_world
             (str "in/random") (str "out/random") example_channels example_users
             ignoreNothing [str "in/random/a.json"; str "in/random/b.json"]
             [str "in/random/b.json"] (str "in/random/a.json") []
             (Error (str "Data is not an array."))).
  - vm_compute; reflexivity.
  - vm_compute; reflexivity.
  - vm_compute; reflexivity.
  - repeat constructor; eexists; vm_compute; reflexivity.
  - vm_compute; reflexivity.
  - can_write.
Defined.

Lemma conversions_return_witness :
  let filePaths :=
    [str "in/general/2019-10-30.json"; str "in/general/2019-10-31.json"] in
  let byFile := fileGroups example_world ignoreLogin filePaths in
  let byDay := dayGroups example_world ignoreLogin filePaths in
  byFile = [(str "2019-10-31", [msg_next]); (str "2019-10-30", [msg_late])]
  ∧ byDay = [(str "2019-10-31", [msg_late; msg_next])]
  ∧ convertChannelMessages example_world (str "in/general") (str "out/general")
      example_channels example_users ignoreLogin
    = mkIO (conversionTrace example_world (str "in/general") (str "out/general")
              example_channels example_users byFile byFile.*1) (Ok tt)
  ∧ convertChannelMessagesSameDay example_world (str "in/general")
      (str "out/general") example_channels example_users ignoreLogin
    = mkIO (conversionTrace example_world (str "in/general") (str "out/general")
              example_channels example_users byDay
              (array_sort descending byDay.*1)) (Ok tt).
Proof.
  intros filePaths byFile byDay.
  split; [vm_compute; reflexivity|]. split; [vm_compute; reflexivity|].
  apply (conversions_return example_world (str "in/general") (str "out/general")
           example_channels example_users ignoreLogin filePaths).
  - vm_compute; reflexivity.
  - repeat constructor; eexists; vm_compute; reflexivity.
  - can_write.
  - can_write.
Defined.


(** ** When the output cannot be made or written *)

Section Blocked.
Context `{Imports}.
Context (w : world) (src dest : jsstring).
Context (channels : gmap jsstring Channel) (users : gmap jsstring User).
Context (ignore : IgnoreMessage).

(** X24: when the output directory of the channel is not there and cannot
    be made, because the directory in which it is to be made is missing or
    is a file, both conversions throw the error of [mkdir], [ENOENT] or
    [ENOTDIR], and nothing is made or written. *)
Theorem conversions_throw_when_the_output_cannot_be_made parent :
  existsSync w dest = false →
  parentDir dest = Some parent →
  let throws e :=
    convertChannelMessages w src dest channels users ignore = mkIO [] (Throw e)
    ∧ convertChannelMessagesSameDay w src dest channels users ignore
      = mkIO [] (Throw e) in
  (w !! parent = None → throws (ENOENT dest))
  ∧ (∀ content, w !! parent = Some (File content) → throws (ENOTDIR dest)).
Proof.
  intros Hexists Hparent throws.
  assert (∀ e, checkParent w dest = Throw e → throws e) as Hthrows.
  { intros e Hcheck.
    assert (mkdirUnlessExists w dest = mkIO [] (Throw e)) as Hmk
      by (by rewrite mkdirUnlessExists_eq, Hexists, Hcheck).
    split; [unfold convertChannelMessages|unfold convertChannelMessagesSameDay];
      by rewrite Async_bind_unfold, async_run, Hmk. }
  split; [intros Hnone|intros content Hfile]; apply Hthrows;
    unfold checkParent; by rewrite Hparent, ?Hnone, ?Hfile.
Qed.

Lemma writeFileASync_ENOTDIR p data content :
  w !! dest = Some (File content) →
  parentDir p = Some dest → isDirectory w p = false →
  writeFileASync w p data = mkIO [] (Throw (ENOTDIR p)).
Proof.
  intros Hdest Hparent Hdir. rewrite writeFileASync_eq. unfold checkParent.
  rewrite Hparent, Hdest. unfold isDirectory in Hdir.
  by destruct (w !! p) as [[]|].
Qed.

Lemma perFile_loop_blocked filePaths indexMd group groups content :
  Forall (λ filePath, ∃ messages, readMessages w filePath = Ok messages)
    filePaths →
  groupsByFile ignore ((λ filePath, (filePath, messagesOf w filePath)) <$> filePaths)
  = group :: groups →
  w !! dest = Some (File content) →
  parentDir (path_join dest (group.1 ++ str ".md")) = Some dest →
  isDirectory w (path_join dest (group.1 ++ str ".md")) = false →
  foldM (λ indexMd filePath,
           async (λ w, convertFile w dest channels users ignore indexMd filePath))
    indexMd filePaths w
  = mkIO [] (Throw (ENOTDIR (path_join dest (group.1 ++ str ".md")))).
Proof.
  intros Hread Hgroups Hdest Hparent Hdir. revert indexMd.
  induction Hread as [|filePath filePaths [all Hall] _ IH]; intros indexMd;
    [done|].
  rewrite foldM_Async_cons, Async_bind_unfold, async_run.
  rewrite (convertFile_eq dest channels users ignore), Hall.
  rewrite fmap_cons, groupsByFile_cons in Hgroups. cbn [fst snd] in Hgroups.
  assert (messagesOf w filePath = all) as Hof
    by (unfold messagesOf; by rewrite Hall).
  rewrite Hof in Hgroups.
  destruct (kept ignore all) as [|message messages].
  - cbn [result trace after foldl app]. rewrite IO_eta. by apply IH.
  - injection Hgroups as <- _. cbn [fst] in *. cbn zeta.
    by rewrite (writeFileASync_ENOTDIR _ _ _ Hdest Hparent Hdir).
Qed.

(** X25: when a file is in the place of the output directory of the
    channel, a conversion that has a group to write throws [ENOTDIR] at the
    document of its first group, and nothing is made or written. The files
    of the channel are taken to be readable. *)
Theorem conversions_throw_when_the_output_is_a_file filePaths content :
  w !! dest = Some (File content) →
  enumMessageJSONs w src = Ok filePaths →
  Forall (λ filePath, ∃ messages, readMessages w filePath = Ok messages) filePaths →
  let throws (groups : list (jsstring * list Message)) (run : IO unit) :=
    ∀ group rest,
      groups = group :: rest →
      parentDir (path_join dest (group.1 ++ str ".md")) = Some dest →
      isDirectory w (path_join dest (group.1 ++ str ".md")) = false →
      run = mkIO [] (Throw (ENOTDIR (path_join dest (group.1 ++ str ".md")))) in
  throws (fileGroups w ignore filePaths)
    (convertChannelMessages w src dest channels users ignore)
  ∧ throws (dayGroups w ignore filePaths)
      (convertChannelMessagesSameDay w src dest channels users ignore).
Proof.
  intros Hdest Hlist Hread throws.
  assert (mkdirUnlessExists w dest = mkIO [] (Ok tt)) as Hmk.
  { rewrite mkdirUnlessExists_eq. unfold existsSync.
    by rewrite bool_decide_eq_true_2 by (by rewrite Hdest). }
  split; intros group rest Hgroups Hparent Hdir.
  - unfold convertChannelMessages.
    rewrite Async_bind_unfold, async_run, Hmk. cbn [result trace after foldl].
    rewrite Async_bind_unfold, async_run, Hlist.
    cbn [await result trace app after foldl].
    rewrite Async_bind_unfold.
    rewrite (perFile_loop_blocked _ _ group rest content); [done| |done..].
    by rewrite (array_sort_perm descending filePaths).
  - unfold convertChannelMessagesSameDay.
    rewrite Async_bind_unfold, async_run, Hmk. cbn [result trace after foldl].
    rewrite Async_bind_unfold, async_run, Hlist.
    cbn [await result trace app after foldl].
    rewrite Async_bind_unfold.
    rewrite (collect_loop_run ignore _ _ _ _ (readable_messagesOf _ _ Hread)).
    cbn [result trace app after foldl].
    fold (groupsByDay ignore (mjoin (messagesOf w <$> filePaths))).
    fold (dayGroups w ignore filePaths).
    destruct (groupsByDay_grouped ignore (mjoin (messagesOf w <$> filePaths)))
      as (Hnd & _ & _).
    fold (dayGroups w ignore filePaths) in Hnd.
    rewrite Hgroups in *. destruct group as [logName messages].
    unfold jsmap_keys. rewrite fmap_cons. cbn [fst] in *.
    rewrite Async_bind_unfold, foldM_Async_cons, Async_bind_unfold, async_run.
    rewrite (writeLog_eq dest channels users _ _ _ _ messages)
      by (apply jsmap_get_elem_of; [done|by left]).
    by rewrite (writeFileASync_ENOTDIR _ _ _ Hdest Hparent Hdir).
Qed.

End Blocked.

Lemma conversions_throw_when_the_output_cannot_be_made_witness :
  convertChannelMessages unmade_world (str "in/general") (str "out/general")
    example_channels example_users ignoreLogin
  = mkIO [] (Throw (ENOENT (str "out/general")))
  ∧ convertChannelMessagesSameDay unmade_world (str "in/general")
      (str "out/general") example_channels example_users ignoreLogin
    = mkIO [] (Throw (ENOENT (str "out/general"))).
Proof.
  apply (conversions_throw_when_the_output_cannot_be_made unmade_world
           (str "in/general") (str "out/general") example_channels
           example_users ignoreLogin (str "out"));
    vm_compute; reflexivity.
Defined.

Lemma conversions_throw_when_the_output_is_a_file_witness :
  convertChannelMessages blocked_world (str "in/general") (str "out/general")
    example_channels example_users ignoreLogin
  = mkIO [] (Throw (ENOTDIR (str "out/general/2019-10-31.md")))
  ∧ convertChannelMessagesSameDay blocked_world (str "in/general")
      (str "out/general") example_channels example_users ignoreLogin
    = mkIO [] (Throw (ENOTDIR (str "out/general/2019-10-31.md"))).
Proof.
  destruct (conversions_throw_when_the_output_is_a_file blocked_world
              (str "in/general") (str "out/general") example_channels
              example_users ignoreLogin
              [str "in/general/2019-10-30.json"; str "in/general/2019-10-31.json"]
              None)
    as [HbyFile HbyDay].
  - vm_compute; reflexivity.
  - vm_compute; reflexivity.
  - repeat constructor; eexists; vm_compute; reflexivity.
  - split.
    + apply (HbyFile (str "2019-10-31", [msg_next])
               [(str "2019-10-30", [msg_late])]); vm_compute; reflexivity.
    + apply (HbyDay (str "2019-10-31", [msg_late; msg_next]) []);
        vm_compute; reflexivity.
Defined.
(** ** The groups of a channel *)

Lemma firstSeen_snoc l x :
  firstSeen (l ++ [x])
  = if decide (x ∈ firstSeen l) then firstSeen l else firstSeen l ++ [x].
Proof. unfold firstSeen. by rewrite foldl_snoc. Qed.

Lemma elem_of_firstSeen l x : x ∈ firstSeen l ↔ x ∈ l.
Proof.
  induction l as [|y l IH] using rev_ind; [done|].
  rewrite firstSeen_snoc, elem_of_app, list_elem_of_singleton, <-IH.
  destruct (decide (y ∈ firstSeen l)) as [Hy|Hy].
  - split; [by left|]. intros [?| ->]; done.
  - by rewrite elem_of_app, list_elem_of_singleton.
Qed.

Lemma NoDup_firstSeen l : NoDup (firstSeen l).
Proof.
  induction l as [|y l IH] using rev_ind; [constructor|].
  rewrite firstSeen_snoc. destruct (decide (y ∈ firstSeen l)) as [Hy|Hy]; [done|].
  apply NoDup_app. split_and!; [done| |apply NoDup_singleton].
  by intros x Hx ->%list_elem_of_singleton.
Qed.

Section JsMapOfKeys.
Context {V : Type} (g : jsstring → V).

Lemma jsmap_get_fmap (keys : list jsstring) d :
  jsmap_get ((λ k, (k, g k)) <$> keys) d
  = if decide (d ∈ keys) then Some (g d) else None.
Proof.
  induction keys as [|k keys IH]; [done|].
  rewrite fmap_cons. cbn [jsmap_get]. destruct (decide (k = d)) as [->|Hne].
  - by rewrite decide_True by left.
  - rewrite IH. destruct (decide (d ∈ keys)) as [Hd|Hd].
    + by rewrite decide_True by (by right).
    + rewrite decide_False; [done|]. rewrite not_elem_of_cons. naive_solver.
Qed.

Lemma jsmap_set_fmap_in (keys : list jsstring) d v :
  NoDup keys → d ∈ keys →
  jsmap_set ((λ k, (k, g k)) <$> keys) d v
  = (λ k, (k, if decide (k = d) then v else g k)) <$> keys.
Proof.
  induction keys as [|k keys IH]; [by intros _ ?%elem_of_nil|].
  intros [Hk Hnd]%NoDup_cons Hd. rewrite !fmap_cons. cbn [jsmap_set].
  destruct (decide (k = d)) as [->|Hne].
  - f_equal. apply list_fmap_ext. intros i k Hi.
    rewrite decide_False; [done|]. intros ->. apply Hk.
    by eapply list_elem_of_lookup_2.
  - f_equal. apply IH; [done|]. by apply elem_of_cons in Hd as [->|Hd].
Qed.

Lemma jsmap_set_fmap_notin (keys : list jsstring) d v :
  d ∉ keys →
  jsmap_set ((λ k, (k, g k)) <$> keys) d v = ((λ k, (k, g k)) <$> keys) ++ [(d, v)].
Proof.
  induction keys as [|k keys IH]; [done|].
  intros [Hne Hd]%not_elem_of_cons. rewrite !fmap_cons. cbn [jsmap_set app].
  rewrite decide_False by done. by rewrite IH.
Qed.

End JsMapOfKeys.

Section JsMapOfLists.
Context {A : Type}.
Implicit Types (m : list (jsstring * list A)).

(** Pushing onto the array of a key, or setting a new array of one element,
    adds the element to the values of the map. *)
Lemma jsmap_push_values m k old x :
  jsmap_get m k = Some old →
  mjoin (jsmap_set m k (old ++ [x])).*2 ≡ₚ x :: mjoin m.*2.
Proof.
  induction m as [|[k' v'] m IH]; [done|]. cbn [jsmap_get jsmap_set].
  destruct (decide (k' = k)) as [->|Hne].
  - intros [= ->]. rewrite !fmap_cons. cbn [snd].
    change (mjoin (?x :: ?l)) with (x ++ mjoin l).
    rewrite <-app_assoc. cbn [app]. symmetry. apply Permutation_middle.
  - intros Hget. rewrite !fmap_cons. cbn [snd].
    change (mjoin (?x :: ?l)) with (x ++ mjoin l).
    rewrite (IH Hget). symmetry. apply Permutation_middle.
Qed.

Lemma jsmap_new_values m k x :
  jsmap_get m k = None →
  mjoin (jsmap_set m k [x]).*2 ≡ₚ x :: mjoin m.*2.
Proof.
  induction m as [|[k' v'] m IH]; [done|]. cbn [jsmap_get jsmap_set].
  destruct (decide (k' = k)) as [->|Hne]; [done|].
  intros Hget. rewrite !fmap_cons. cbn [snd].
  change (mjoin (?x :: ?l)) with (x ++ mjoin l).
  rewrite (IH Hget). symmetry. apply Permutation_middle.
Qed.

End JsMapOfLists.

Section ChannelGroups.
Context `{Imports}.
Context (ignore : IgnoreMessage).

Lemma kept_snoc all message :
  kept ignore (all ++ [message])
  = kept ignore all ++ (if isIgnore message ignore then [] else [message]).
Proof.
  unfold kept. rewrite filter_app, filter_cons, filter_nil.
  by destruct (isIgnore message ignore).
Qed.

Lemma filter_day_snoc all message day :
  filter (λ m, isIgnore m ignore = false ∧ utcDay m = day) (all ++ [message])
  = filter (λ m, isIgnore m ignore = false ∧ utcDay m = day) all
    ++ (if decide (isIgnore message ignore = false ∧ utcDay message = day)
        then [message] else []).
Proof. by rewrite filter_app, filter_cons, filter_nil. Qed.

(** X17: the groups that the conversion by day collects are the days of the
    kept messages, in the order in which the days are first met, each with
    the kept messages of the day in the order in which they are read. *)
Theorem groupsByDay_days_in_order (all : list Message) :
  groupsByDay ignore all
  = (λ day, (day, filter (λ message, isIgnore message ignore = false
                                     ∧ utcDay message = day) all))
      <$> firstSeen (utcDay <$> kept ignore all).
Proof.
  induction all as [|message all IH] using rev_ind; [done|].
  unfold groupsByDay in *. rewrite foldl_snoc, IH. clear IH.
  rewrite kept_snoc. unfold pushLog.
  destruct (isIgnore message ignore) eqn:Hignore.
  - rewrite app_nil_r. apply list_fmap_ext. intros i day _. f_equal.
    rewrite filter_day_snoc, decide_False, app_nil_r; [done|].
    intros [? _]. congruence.
  - fold (utcDay message). rewrite fmap_app, fmap_cons, fmap_nil, firstSeen_snoc.
    rewrite (jsmap_get_fmap (λ day, filter (λ m, isIgnore m ignore = false
                                                 ∧ utcDay m = day) all)).
    destruct (decide (utcDay message ∈ firstSeen (utcDay <$> kept ignore all)))
      as [Hday|Hday].
    + rewrite (jsmap_set_fmap_in
                 (λ day, filter (λ m, isIgnore m ignore = false
                                      ∧ utcDay m = day) all))
        by (done || apply NoDup_firstSeen).
      apply list_fmap_ext. intros i day _. f_equal.
      rewrite filter_day_snoc. destruct (decide (day = utcDay message)) as [->|Hne].
      * by rewrite decide_True.
      * rewrite decide_False, app_nil_r; [done|]. intros [_ ?]. congruence.
    + rewrite (jsmap_set_fmap_notin
                 (λ day, filter (λ m, isIgnore m ignore = false
                                      ∧ utcDay m = day) all)) by done.
      rewrite fmap_app, fmap_cons, fmap_nil. f_equal.
      * apply list_fmap_ext. intros i day Hi. f_equal.
        rewrite filter_day_snoc, decide_False, app_nil_r; [done|].
        intros [_ <-]. apply Hday. by eapply list_elem_of_lookup_2.
      * f_equal. f_equal. rewrite filter_day_snoc, decide_True by done.
        destruct (filter (λ m, isIgnore m ignore = false
                               ∧ utcDay m = utcDay message) all)
          as [|m ms] eqn:Hfilter; [done|].
        assert (m ∈ filter (λ m, isIgnore m ignore = false
                                 ∧ utcDay m = utcDay message) all) as Hm
          by (rewrite Hfilter; by left).
        apply list_elem_of_filter in Hm as [[Hk Hd] Hin].
        destruct Hday. apply elem_of_firstSeen, list_elem_of_fmap.
        exists m. split; [done|]. by apply elem_of_kept.
Qed.

End ChannelGroups.

Section WrittenGroups.
Context `{Imports}.
Context (w : world) (src dest : jsstring).
Context (channels : gmap jsstring Channel) (users : gmap jsstring User).
Context (ignore : IgnoreMessage).

(** X18: no conversion writes a document without a row, whatever the tree
    is and whether the conversion returns or throws: what it does is to
    make the output directory, to write documents, each with the row of a
    message after its heading, and to write the index, with a link. *)
Theorem no_empty_document :
  let rowed (run : IO unit) :=
    Forall (λ e,
      e = Mkdir dest
      ∨ (∃ name message messages,
           e = WriteFile (path_join dest (name ++ str ".md"))
                 (str "# " ++ name ++ nl ++ nl
                  ++ tableRow channels users message
                  ++ mjoin (tableRow channels users <$> messages)))
      ∨ (∃ name names, e = indexOf src dest (name :: names))) (trace run) in
  rowed (convertChannelMessages w src dest channels users ignore)
  ∧ rowed (convertChannelMessagesSameDay w src dest channels users ignore).
Proof.
  intros rowed.
  assert (∀ made groups index,
    (made = [] ∨ made = [Mkdir dest]) →
    Forall (λ group : jsstring * list Message, group.2 ≠ []) groups →
    (index = [] ∨ ∃ name names, index = [indexOf src dest (name :: names)]) →
    rowed (mkIO (made ++ (documentOf dest channels users <$> groups) ++ index)
                (Ok tt))) as Hrowed.
  { intros made groups index Hmade Hgroups Hindex. unfold rowed. cbn [trace].
    rewrite !Forall_app. split_and!.
    - destruct Hmade as [->| ->]; [constructor|].
      apply Forall_singleton. by left.
    - apply Forall_fmap. eapply Forall_impl; [exact Hgroups|].
      intros [name [|message messages]] Hne; [done|]. right; left.
      exists name, message, messages. by rewrite documentOf_text.
    - destruct Hindex as [->|(name & names & ->)]; [constructor|].
      apply Forall_singleton. right; right. by exists name, names. }
  unfold rowed in *. cbn [trace] in Hrowed. split.
  - destruct (convertChannelMessages_trace src dest channels users ignore w)
      as (made & groups & index & -> & Hmade & Hgroups & Hindex & _).
    apply Hrowed; [done..|]. destruct Hindex as [->|[Hne ->]]; [by left|right].
    destruct groups as [|[name messages] groups]; [done|]. by eexists _, _.
  - destruct (convertChannelMessagesSameDay_trace src dest channels users ignore w)
      as (made & groups & index & -> & Hmade & Hgroups & _ & Hindex & _).
    apply Hrowed; [done..|]. destruct Hindex as [->|[Hne ->]]; [by left|right].
    destruct (array_sort descending groups.*1) as [|name names] eqn:Hsorted.
    + by apply sorted_names_nil in Hsorted.
    + by eexists _, _.
Qed.

Lemma pushLog_ignored logs (all : list Message) :
  kept ignore all = [] → foldl (pushLog ignore) logs all = logs.
Proof.
  induction all as [|message all IH] using rev_ind; [done|].
  rewrite kept_snoc, foldl_snoc. intros [Hall Hm]%app_eq_nil.
  unfold pushLog. destruct (isIgnore message ignore); [by apply IH|done].
Qed.

Lemma kept_join (mss : list (list Message)) :
  kept ignore (mjoin mss) = mjoin (kept ignore <$> mss).
Proof.
  induction mss as [|ms mss IH]; [done|].
  rewrite fmap_cons. change (mjoin (?x :: ?l)) with (x ++ mjoin l).
  rewrite <-IH. unfold kept. by rewrite filter_app.
Qed.

Lemma groupsByFile_values files :
  mjoin (groupsByFile ignore files).*2 = mjoin (kept ignore <$> files.*2).
Proof.
  unfold groupsByFile. induction files as [|[p ms] files IH]; [done|].
  rewrite !fmap_cons. cbn [omap list_omap fst snd].
  destruct (kept ignore ms) as [|m kms] eqn:Hkept.
  - by rewrite IH.
  - rewrite fmap_cons. cbn [snd].
    change (mjoin (?x :: ?l)) with (x ++ mjoin l). by rewrite IH.
Qed.

(** X19: a channel in which no message is kept, and so a channel without
    messages, gets no document and no index from either conversion; the
    output directory is made if it is not there, and the conversion
    returns. The output directory is taken to be a directory, or one that
    can be made. *)
Theorem nothing_kept_nothing_written filePaths :
  enumMessageJSONs w src = Ok filePaths →
  Forall (λ filePath, ∃ messages, readMessages w filePath = Ok messages) filePaths →
  Forall (λ filePath, kept ignore (messagesOf w filePath) = []) filePaths →
  canWrite w src dest filePaths [] →
  convertChannelMessages w src dest channels users ignore
  = mkIO (if existsSync w dest then [] else [Mkdir dest]) (Ok tt)
  ∧ convertChannelMessagesSameDay w src dest channels users ignore
    = mkIO (if existsSync w dest then [] else [Mkdir dest]) (Ok tt).
Proof.
  intros Henum Hall Hnone Hcan.
  assert (fileGroups w ignore filePaths = []) as HbyFile.
  { unfold fileGroups, groupsByFile.
    rewrite <-(array_sort_perm descending filePaths) in Hnone.
    induction Hnone as [|p ps Hp _ IH]; [done|].
    rewrite fmap_cons. cbn [omap list_omap fst snd]. by rewrite Hp. }
  assert (dayGroups w ignore filePaths = []) as HbyDay.
  { unfold dayGroups, groupsByDay. apply pushLog_ignored.
    rewrite kept_join, <-list_fmap_compose. apply join_nil_2, Forall_fmap.
    eapply Forall_impl; [exact Hnone|]. by intros p Hp. }
  split.
  - rewrite (convertChannelMessages_fileGroups _ _ _ _ _ _ _ Henum Hall);
      rewrite HbyFile; [|done].
    unfold conversionTrace. by rewrite !app_nil_r.
  - rewrite (convertChannelMessagesSameDay_dayGroups _ _ _ _ _ _ _ Henum Hall);
      rewrite HbyDay; [|done].
    unfold conversionTrace. by rewrite !app_nil_r.
Qed.

Lemma groupsByDay_values (all : list Message) :
  mjoin (groupsByDay ignore all).*2 ≡ₚ kept ignore all.
Proof.
  unfold groupsByDay. induction all as [|message all IH] using rev_ind; [done|].
  rewrite foldl_snoc, kept_snoc. unfold pushLog.
  destruct (isIgnore message ignore); [by rewrite app_nil_r|].
  rewrite <-Permutation_cons_append, <-IH.
  destruct (jsmap_get _ _) as [targets|] eqn:Hget.
  - by apply jsmap_push_values.
  - by apply jsmap_new_values.
Qed.

(** X20: the two conversions write the same messages, when neither writes
    a path twice: each leaves the documents of its groups, and the messages
    of the groups by day are, up to their order, those of the groups by
    source file; the grouping neither drops nor repeats a kept message. The
    files of the channel are taken to be readable and the files of the
    output writable; both conversions return then. *)
Theorem both_conversions_write_the_same_messages filePaths :
  enumMessageJSONs w src = Ok filePaths →
  Forall (λ filePath, ∃ messages, readMessages w filePath = Ok messages) filePaths →
  let byFile := fileGroups w ignore filePaths in
  let byDay := dayGroups w ignore filePaths in
  canWrite w src dest filePaths (targets dest byFile) →
  NoDup (targets dest byFile) →
  canWrite w src dest filePaths (targets dest byDay) →
  NoDup (targets dest byDay) →
  let runByFile := convertChannelMessages w src dest channels users ignore in
  let runByDay := convertChannelMessagesSameDay w src dest channels users ignore in
  (result runByFile = Ok tt
   ∧ outputIs dest channels users (trace runByFile) byFile)
  ∧ (result runByDay = Ok tt
     ∧ outputIs dest channels users (trace runByDay) byDay)
  ∧ mjoin byDay.*2 ≡ₚ mjoin byFile.*2
  ∧ mjoin byDay.*2 ≡ₚ kept ignore (mjoin (messagesOf w <$> filePaths)).
Proof.
  intros Henum Hall byFile byDay HcanFile HndFile HcanDay HndDay
    runByFile runByDay.
  split; [|split; [|split]].
  - unfold runByFile.
    rewrite (convertChannelMessages_fileGroups _ _ _ _ _ _ _ Henum Hall HcanFile).
    split; [done|]. by apply conversionTrace_outputIs; [apply names_nil|].
  - unfold runByDay.
    rewrite (convertChannelMessagesSameDay_dayGroups _ _ _ _ _ _ _ Henum Hall HcanDay).
    split; [done|]. by apply conversionTrace_outputIs; [apply sorted_names_nil|].
  - unfold byDay, byFile, dayGroups, fileGroups.
    rewrite groupsByDay_values, groupsByFile_values, kept_join.
    rewrite <-!list_fmap_compose.
    by rewrite (array_sort_perm descending filePaths).
  - apply groupsByDay_values.
Qed.

End WrittenGroups.

Lemma nothing_kept_nothing_written_witness :
  convertChannelMessages quiet_world (str "in/general") (str "out/general")
    example_channels example_users ignoreLogin
  = mkIO [] (Ok tt)
  ∧ convertChannelMessagesSameDay quiet_world (str "in/general")
      (str "out/general") example_channels example_users ignoreLogin
    = mkIO [] (Ok tt).
Proof.
  apply (nothing_kept_nothing_written quiet_world (str "in/general")
           (str "out/general") example_channels example_users ignoreLogin
           [str "in/general/2019-10-30.json"]).
  - vm_compute; reflexivity.
  - repeat constructor; eexists; vm_compute; reflexivity.
  - repeat constructor.
  - can_write.
Defined.

Lemma both_conversions_write_the_same_messages_witness :
  let filePaths :=
    [str "in/general/2019-10-30.json"; str "in/general/2019-10-31.json"] in
  let byFile := fileGroups example_world ignoreLogin filePaths in
  let byDay := dayGroups example_world ignoreLogin filePaths in
  let runByFile :=
    convertChannelMessages example_world (str "in/general") (str "out/general")
      example_channels example_users ignoreLogin in
  let runByDay :=
    convertChannelMessagesSameDay example_world (str "in/general")
      (str "out/general") example_channels example_users ignoreLogin in
  (result runByFile = Ok tt
   ∧ outputIs (str "out/general") example_channels example_users
       (trace runByFile) byFile)
  ∧ (result runByDay = Ok tt
     ∧ outputIs (str "out/general") example_channels example_users
         (trace runByDay) byDay)
  ∧ mjoin byDay.*2 ≡ₚ mjoin byFile.*2
  ∧ mjoin byDay.*2 ≡ₚ [msg_late; msg_next].
Proof.
  intros filePaths byFile byDay runByFile runByDay.
  destruct (both_conversions_write_the_same_messages example_world
              (str "in/general") (str "out/general") example_channels
              example_users ignoreLogin filePaths)
    as (HbyFile & HbyDay & Hsame & Hkept).
  - vm_compute; reflexivity.
  - repeat constructor; eexists; vm_compute; reflexivity.
  - can_write.
  - by_deciding.
  - can_write.
  - by_deciding.
  - split; [exact HbyFile|split; [exact HbyDay|split; [exact Hsame|exact Hkept]]].
Defined.
(** ** The run *)

Lemma withoutLogs_app tr1 tr2 :
  withoutLogs (tr1 ++ tr2) = withoutLogs tr1 ++ withoutLogs tr2.
Proof. apply filter_app. Qed.

Section Silence.
Context `{Imports}.
Implicit Types (w : world).

(** Log lines leave the tree as it is. *)
Lemma after_withoutLogs w tr : after w (withoutLogs tr) = after w tr.
Proof.
  revert w; induction tr as [|e tr IH]; intros w; [done|].
  unfold withoutLogs. rewrite filter_cons. destruct e; cbn [isLog];
    (rewrite decide_True by done) || (rewrite decide_False by done);
    rewrite ?after_cons; apply IH.
Qed.

Lemma Async_bind_cong {A B} (f g : A → Async B) (m m' : Async A) w :
  (∀ w, m w = m' w) → (∀ a w, f a w = g a w) → (m ≫= f) w = (m' ≫= g) w.
Proof.
  intros Hm Hfg. rewrite !Async_bind_unfold, <-Hm.
  destruct (result (m w)); [|done]. by rewrite Hfg.
Qed.

Lemma foldM_Async_cong {A B} (f g : B → A → Async B) (b : B) (xs : list A) w :
  (∀ b x w, f b x w = g b x w) →
  foldM (M := Async) f b xs w = foldM (M := Async) g b xs w.
Proof.
  intros Hfg; revert b w; induction xs as [|x xs IH]; intros b w; [done|].
  rewrite !foldM_Async_cons. apply Async_bind_cong; [apply Hfg|apply IH].
Qed.

Lemma silent_bind {A B} (f : A → Async B) (m : Async A) w :
  silent ((m ≫= f) w)
  = (async (λ w, silent (m w)) ≫= λ a, async (λ w, silent (f a w))) w.
Proof.
  unfold silent. rewrite !Async_bind_unfold, !async_run. cbn [result trace].
  destruct (result (m w)); cbn [result trace]; [|done].
  by rewrite withoutLogs_app, after_withoutLogs.
Qed.

Lemma silent_foldM {A B} (body : B → A → Async B) (b : B) (xs : list A) w :
  silent (foldM (M := Async) body b xs w)
  = foldM (M := Async) (λ b x, async (λ w, silent (body b x w))) b xs w.
Proof.
  revert b w; induction xs as [|x xs IH]; intros b w; [done|].
  rewrite !foldM_Async_cons, silent_bind. by apply Async_bind_cong.
Qed.

Lemma silent_quiet {A} (m : IO A) : quiet m → silent m = m.
Proof.
  unfold quiet, silent, withoutLogs. intros Hq. destruct m as [tr r].
  cbn [trace result] in *. f_equal.
  induction Hq as [|e tr He _ IH]; [done|].
  by rewrite filter_cons, decide_True, IH.
Qed.

Lemma quiet_await {A} (r : outcome A) : quiet (await r).
Proof. constructor. Qed.

Lemma silent_logger_log report line : silent (logger_log report line) = mret tt.
Proof. by destruct report. Qed.

Lemma quiet_convertChannelMessages w src dest channels users ignore :
  quiet (convertChannelMessages w src dest channels users ignore).
Proof.
  unfold quiet.
  destruct (convertChannelMessages_trace src dest channels users ignore w)
    as (made & groups & index & -> & Hmade & _ & Hindex & _).
  rewrite !Forall_app. split_and!.
  - destruct Hmade as [->| ->]; by repeat constructor.
  - apply Forall_fmap, Forall_forall. by intros group _.
  - destruct Hindex as [->|[_ ->]]; by repeat constructor.
Qed.

Lemma quiet_convertChannelMessagesSameDay w src dest channels users ignore :
  quiet (convertChannelMessagesSameDay w src dest channels users ignore).
Proof.
  unfold quiet.
  destruct (convertChannelMessagesSameDay_trace src dest channels users ignore w)
    as (made & groups & index & -> & Hmade & _ & _ & Hindex & _).
  rewrite !Forall_app. split_and!.
  - destruct Hmade as [->| ->]; by repeat constructor.
  - apply Forall_fmap, Forall_forall. by intros group _.
  - destruct Hindex as [->|[_ ->]]; by repeat constructor.
Qed.

End Silence.

Section Run.
Context `{Imports}.
Context (w : world).

(** X21: the option [report] only adds log lines: with or without it, a run
    returns or throws the same, and makes the same directories and writes
    the same files, in the same order; without it, nothing is logged. *)
Theorem report_only_adds_log_lines inputDir outputDir options :
  let unreported :=
    {| report := Some false;
       groupingSameDayByUTC := groupingSameDayByUTC options;
       ignore := ignore options |} in
  result (log2Md w inputDir outputDir options)
  = result (log2Md w inputDir outputDir unreported)
  ∧ withoutLogs (trace (log2Md w inputDir outputDir options))
    = trace (log2Md w inputDir outputDir unreported)
  ∧ Forall (λ e, isLog e = false) (trace (log2Md w inputDir outputDir unreported)).
Proof.
  intros unreported.
  assert (silent (log2Md w inputDir outputDir options)
          = log2Md w inputDir outputDir unreported) as Hsilent.
  { unfold log2Md. cbn [report groupingSameDayByUTC ignore unreported truthy default].
    do 3 (rewrite silent_bind; apply Async_bind_cong;
          [intros ?; apply silent_logger_log|intros _ ?; rewrite async_run]).
    do 3 (rewrite silent_bind; apply Async_bind_cong;
          [intros ?; apply silent_quiet, quiet_await|intros ? ?; rewrite async_run]).
    rewrite silent_bind. apply Async_bind_cong;
      [|intros _ ?; apply silent_logger_log].
    intros ?. rewrite async_run, silent_foldM. apply foldM_Async_cong.
    intros _ src ?. rewrite async_run, silent_bind. apply Async_bind_cong;
      [intros ?; apply silent_logger_log|intros _ ?; rewrite async_run].
    unfold truthy. destruct (default false (groupingSameDayByUTC options));
      rewrite !async_run; apply silent_quiet;
      [apply quiet_convertChannelMessagesSameDay|apply quiet_convertChannelMessages]. }
  rewrite <-Hsilent. split_and!; [done..|].
  unfold silent, withoutLogs. cbn [trace]. apply Forall_forall.
  by intros e [He _]%list_elem_of_filter.
Qed.

End Run.

Section Channels.
Context `{Imports}.
Context (inputDir outputDir : jsstring) (options : Log2MdOptions).
Context (channels : gmap jsstring Channel) (users : gmap jsstring User).
Implicit Types (w : world).

Lemma logger_log_logLines report line :
  logger_log report line = mkIO (logLines report [line]) (Ok tt).
Proof. by destruct report. Qed.

Lemma after_logLines w report lines : after w (logLines report lines) = w.
Proof.
  destruct report; [|done]. cbn [logLines].
  induction lines as [|line lines IH]; [done|]. by rewrite fmap_cons, after_cons.
Qed.

(** A step of the loop of [log2Md]. *)
Lemma log2Md_step w src :
  (async (λ _, logger_log (truthy (report options))
                 (str "  #" ++ path_basename src None));;
   if truthy (groupingSameDayByUTC options)
   then async (λ w, convertChannelMessagesSameDay w src
                      (path_join outputDir (path_basename src None))
                      channels users (checkIgnoreOption (ignore options)))
   else async (λ w, convertChannelMessages w src
                      (path_join outputDir (path_basename src None))
                      channels users (checkIgnoreOption (ignore options)))) w
  = channelRun w outputDir options channels users src.
Proof.
  unfold channelRun. rewrite Async_bind_unfold, IO_bind_unfold, async_run.
  rewrite logger_log_logLines. cbn [result trace]. rewrite after_logLines.
  by destruct (truthy (groupingSameDayByUTC options)).
Qed.

(** The loop goes through the channels as long as their conversions return,
    each in the tree that the ones before it have left, and stops where one
    throws. *)
Lemma log2Md_loop_returns (body : unit → jsstring → Async unit) channelDirs w :
  (∀ w src, body tt src w = channelRun w outputDir options channels users src) →
  Forall (λ run : IO unit, result run = Ok tt)
    (channelRuns w outputDir options channels users channelDirs) →
  foldM (M := Async) body tt channelDirs w
  = mkIO (mjoin (trace <$> channelRuns w outputDir options channels users channelDirs))
         (Ok tt).
Proof.
  intros Hbody. revert w; induction channelDirs as [|src dirs IH]; intros w Hall;
    [done|].
  cbn [channelRuns] in Hall. apply Forall_cons in Hall as [Hrun Hall].
  rewrite foldM_Async_cons, Async_bind_unfold, Hbody, Hrun.
  rewrite (IH _ Hall). cbn [result trace channelRuns]. by rewrite fmap_cons.
Qed.

Lemma log2Md_loop_throws (body : unit → jsstring → Async unit)
    converted failing later e w :
  (∀ w src, body tt src w = channelRun w outputDir options channels users src) →
  let runs := channelRuns w outputDir options channels users converted in
  Forall (λ run : IO unit, result run = Ok tt) runs →
  result (channelRun (after w (mjoin (trace <$> runs))) outputDir options
            channels users failing) = Throw e →
  foldM (M := Async) body tt (converted ++ failing :: later) w
  = mkIO (mjoin (trace <$> runs)
          ++ trace (channelRun (after w (mjoin (trace <$> runs))) outputDir
                      options channels users failing))
         (Throw e).
Proof.
  intros Hbody. revert w; induction converted as [|src dirs IH];
    intros w runs Hall Hfailing; cbn [app].
  - cbn in Hfailing. rewrite foldM_Async_cons, Async_bind_unfold, Hbody.
    cbn [runs channelRuns fmap list_fmap mjoin list_join after foldl app].
    by rewrite Hfailing.
  - unfold runs in *. cbn [channelRuns] in *.
    apply Forall_cons in Hall as [Hrun Hall].
    rewrite fmap_cons in *.
    change (mjoin (?x :: ?l)) with (x ++ mjoin l) in *.
    rewrite after_app in Hfailing.
    rewrite foldM_Async_cons, Async_bind_unfold, Hbody, Hrun.
    rewrite (IH _ Hall Hfailing). cbn [result trace].
    by rewrite after_app, <-app_assoc.
Qed.

Context (w : world) (channelDirs : list jsstring).
Hypothesis Hchannels : readChannels w inputDir = Ok channels.
Hypothesis Husers : readUsers w inputDir = Ok users.
Hypothesis HchannelDirs : enumChannelDirs w inputDir = Ok channelDirs.

(** The run, up to its loop: the three opening lines, then the two tables
    and the listing are read. *)
Lemma log2Md_channels :
  log2Md w inputDir outputDir options
  = (mkIO (logLines (truthy (report options))
             [str "src: " ++ dquote ++ inputDir ++ dquote;
              str "dest: " ++ dquote ++ outputDir ++ dquote;
              str "Converted channels..."]) (Ok tt);;
     (foldM (M := Async) (λ _ src,
        async (λ _, logger_log (truthy (report options))
                      (str "  #" ++ path_basename src None));;
        if truthy (groupingSameDayByUTC options)
        then async (λ w, convertChannelMessagesSameDay w src
                           (path_join outputDir (path_basename src None))
                           channels users (checkIgnoreOption (ignore options)))
        else async (λ w, convertChannelMessages w src
                           (path_join outputDir (path_basename src None))
                           channels users (checkIgnoreOption (ignore options))))
        tt channelDirs;;
      async (λ _, logger_log (truthy (report options)) (str "Completed!!"))) w).
Proof using Hchannels Husers HchannelDirs.
  unfold log2Md.
  do 3 (rewrite Async_bind_unfold, async_run, logger_log_eq;
        cbn [result trace]; rewrite after_log).
  do 3 (rewrite Async_bind_unfold, async_run;
        rewrite ?Hchannels, ?Husers, ?HchannelDirs;
        cbn [await result trace app after foldl]).
  rewrite IO_bind_unfold. cbn [result trace].
  by destruct (truthy (report options)).
Qed.

(** X22: when the two tables and the channel directories are read and the
    conversion of every channel returns, each in the tree as the conversions
    before it have left it, the run returns, and what it does is: the three
    opening lines, then channel by channel, in the order of the listing, the
    line of the channel and its conversion, then the closing line; the lines
    only with the option [report]. *)
Theorem log2Md_converts_every_channel :
  let runs := channelRuns w outputDir options channels users channelDirs in
  Forall (λ run : IO unit, result run = Ok tt) runs →
  log2Md w inputDir outputDir options
  = mkIO (logLines (truthy (report options))
            [str "src: " ++ dquote ++ inputDir ++ dquote;
             str "dest: " ++ dquote ++ outputDir ++ dquote;
             str "Converted channels..."]
          ++ mjoin (trace <$> runs)
          ++ logLines (truthy (report options)) [str "Completed!!"])
         (Ok tt).
Proof using Hchannels Husers HchannelDirs.
  intros runs Hall. rewrite log2Md_channels, IO_bind_unfold. cbn [result trace].
  rewrite Async_bind_unfold.
  rewrite (log2Md_loop_returns _ _ _ log2Md_step Hall). cbn [result trace].
  by rewrite async_run, logger_log_logLines.
Qed.

(** X23: the run stops at the first channel whose conversion throws: it
    throws that error, the channels before it are converted, what the failing
    conversion did before it threw stays done, no later channel is touched
    and the closing line is not logged. Each conversion runs in the tree as
    the conversions before it have left it. *)
Theorem log2Md_stops_at_the_first_failing_channel converted failing later e :
  channelDirs = converted ++ failing :: later →
  let runs := channelRuns w outputDir options channels users converted in
  let failed :=
    channelRun (after w (mjoin (trace <$> runs))) outputDir options channels
      users failing in
  Forall (λ run : IO unit, result run = Ok tt) runs →
  result failed = Throw e →
  log2Md w inputDir outputDir options
  = mkIO (logLines (truthy (report options))
            [str "src: " ++ dquote ++ inputDir ++ dquote;
             str "dest: " ++ dquote ++ outputDir ++ dquote;
             str "Converted channels..."]
          ++ mjoin (trace <$> runs)
          ++ trace failed)
         (Throw e).
Proof using Hchannels Husers HchannelDirs.
  intros Hdirs runs failed Hconverted Hfailing.
  rewrite log2Md_channels, IO_bind_unfold, Hdirs. cbn [result trace].
  rewrite Async_bind_unfold.
  rewrite (log2Md_loop_throws _ _ _ later _ _ log2Md_step Hconverted Hfailing).
  by cbn [result trace].
Qed.

End Channels.

Lemma log2Md_converts_every_channel_witness :
  let run := channelRun example_world (str "out") reportingOptions
               example_channels example_users (str "in/general") in
  result run = Ok tt
  ∧ log2Md example_world (str "in") (str "out") reportingOptions
    = mkIO ([Log (str "src: " ++ dquote ++ str "in" ++ dquote);
             Log (str "dest: " ++ dquote ++ str "out" ++ dquote);
             Log (str "Converted channels...")]
            ++ trace run
            ++ [Log (str "Completed!!")])
           (Ok tt).
Proof.
  intros run.
  assert (result run = Ok tt) as Hrun by (vm_compute; reflexivity).
  split; [exact Hrun|].
  rewrite (log2Md_converts_every_channel (str "in") (str "out")
             reportingOptions example_channels example_users example_world
             [str "in/general"]);
    [|vm_compute; reflexivity..|constructor; [exact Hrun|constructor]].
  cbn [channelRuns fmap list_fmap mjoin list_join]. by rewrite app_nil_r.
Defined.

Lemma log2Md_stops_at_the_first_failing_channel_witness :
  let channels : gmap jsstring Channel :=
    <[str "C2" := random]> (<[str "C1" := general]> ∅) in
  let users : gmap jsstring User :=
    <[str "U2" := bob]> (<[str "U1" := alice]> ∅) in
  let run w := channelRun w (str "out") defaultOptions channels users in
  let converted := run partial_world (str "in/general") in
  let failed := run (after partial_world (trace converted)) (str "in/random") in
  result converted = Ok tt
  ∧ result failed = Throw (Error (str "Data is not an array."))
  ∧ log2Md partial_world (str "in") (str "out") defaultOptions
    = mkIO (trace converted
            ++ [Mkdir (str "out/random");
                documentOf (str "out/random") channels users (str "b", [msg_late])])
           (Throw (Error (str "Data is not an array."))).
Proof.
  intros channels users run converted failed.
  assert (result converted = Ok tt) as Hgeneral by (vm_compute; reflexivity).
  assert (result failed = Throw (Error (str "Data is not an array.")))
    as Hrandom by (vm_compute; reflexivity).
  split; [exact Hgeneral|split; [exact Hrandom|]].
  rewrite (log2Md_stops_at_the_first_failing_channel (str "in") (str "out")
             defaultOptions channels users partial_world
             [str "in/general"; str "in/random"]
             ltac:(vm_compute; reflexivity) ltac:(vm_compute; reflexivity)
             ltac:(vm_compute; reflexivity)
             [str "in/general"] (str "in/random") []
             (Error (str "Data is not an array.")) eq_refl
             ltac:(constructor; [exact Hgeneral|constructor])).
  - vm_compute; reflexivity.
  - cbn [channelRuns fmap list_fmap mjoin list_join]. rewrite app_nil_r.
    exact Hrandom.
Defined.
